(** * Aphex Architect: blueprint builder, remote publisher, model response

    A shallow embedding of the three helper functions of
    [admin_tools/architect.py]

      - [generate_response]
      - [build_blueprint_from_folder]
      - [deploy_to_github]

    together with the pieces of the Python runtime they lean on
    ([str], [pathlib], [json], the remote clients), and the properties
    the specification states about them. *)

From Stdlib Require Import String Ascii Strings.Byte NArith Bool Arith Lia List.
From Stdlib Require Import Permutation Sorted.
Import ListNotations.

Set Implicit Arguments.
Set Warnings "-register-all".

(* ================================================================== *)
(** * Python text *)
(* ================================================================== *)

(** A Python [str] is a sequence of Unicode code points; a code point is
    kept as a number so that characters beyond ASCII are first class. *)
Module Text.

Definition char := N.
Definition str := list char.

(** An ASCII literal as a [str]. *)
Definition lit (s : string) : str :=
  map N_of_ascii (list_ascii_of_string s).

(** Truth value of a string: [not s] holds exactly for the empty one. *)
Definition truthy (s : str) : bool :=
  match s with [] => false | _ :: _ => true end.

(** Lexicographic [<] of sequences, as Python compares [str] (by code
    point) and [list] (by element). *)
Section Lex.
Variable A : Type.
Variable eqb ltb : A -> A -> bool.

Fixpoint lex_eqb (a b : list A) : bool :=
  match a, b with
  | [], [] => true
  | x :: a', y :: b' => eqb x y && lex_eqb a' b'
  | _, _ => false
  end.

Fixpoint lex_ltb (a b : list A) : bool :=
  match a, b with
  | _, [] => false
  | [], _ :: _ => true
  | x :: a', y :: b' => if eqb x y then lex_ltb a' b' else ltb x y
  end.
End Lex.

Definition str_eqb : str -> str -> bool := lex_eqb N.eqb.
Definition str_ltb : str -> str -> bool := lex_ltb N.eqb N.ltb.

Fixpoint startswith (s prefix : str) : bool :=
  match prefix, s with
  | [], _ => true
  | p :: prefix', c :: s' => N.eqb p c && startswith s' prefix'
  | _ :: _, [] => false
  end.

(** [needle in hay] *)
Fixpoint contains (needle hay : str) : bool :=
  startswith hay needle ||
  match hay with
  | [] => false
  | _ :: hay' => contains needle hay'
  end.

(** [sep.join(parts)] *)
Fixpoint join (sep : str) (parts : list str) : str :=
  match parts with
  | [] => []
  | [x] => x
  | x :: rest => x ++ sep ++ join sep rest
  end.

(** [s.replace(old, new)] for one-character [old] and [new]. *)
Definition replace_char (old new : char) (s : str) : str :=
  map (fun c => if N.eqb c old then new else c) s.

(** ASCII lower-casing; the full [str.lower] agrees with it on ASCII
    text. *)
Definition ascii_lower (s : str) : str :=
  map (fun c => if (65 <=? c)%N && (c <=? 90)%N then (c + 32)%N else c) s.

End Text.
Import Text.

(* ================================================================== *)
(** * Exceptions *)
(* ================================================================== *)

Inductive exn_class : Type :=
| ValueError
| UnicodeDecodeError
| UnicodeEncodeError
| OSError
| PermissionError
| RecursionError
| RemoteException.

(** An exception carries its class and the text [str(e)] gives. *)
Record exn : Type := Exn { exn_cls : exn_class; exn_str : str }.

(** The error kinds the specification names. *)
Definition MissingCredential (e : exn) : Prop :=
  e = Exn ValueError (lit "GitHub token is missing") \/
  e = Exn ValueError (lit "OpenAI API key is missing").

Definition MissingTarget (e : exn) : Prop :=
  e = Exn ValueError (lit "Repo name is missing").

(** [except PermissionError]: the class itself; it is a subclass of
    [OSError] and has none of its own here. *)
Definition is_permission_error (e : exn) : bool :=
  match exn_cls e with
  | PermissionError => true
  | _ => false
  end.

(** Outcome of a call that may raise. *)
Definition result (A : Type) : Type := (exn + A)%type.

(* ================================================================== *)
(** * pathlib *)
(* ================================================================== *)

Module Paths.

(** The two path flavours of [pathlib]. *)
Inductive flavour : Type := Posix | Windows.

Definition slash : char := 47%N.
Definition backslash : char := 92%N.

Definition sep (fl : flavour) : char :=
  match fl with Posix => slash | Windows => backslash end.

Section WithLower.
(** [str.lower], whose Unicode case table is not part of the program. *)
Variable lower : str -> str.

Definition normcase (fl : flavour) (s : str) : str :=
  match fl with Posix => s | Windows => lower s end.

(** A pure path: its anchor (drive and root, empty for a relative
    path) and its name components. *)
Record Path : Type := mkPath { anchor : str; parts : list str }.

(** [p / child] *)
Definition joinpath (p : Path) (child : str) : Path :=
  mkPath (anchor p) (parts p ++ [child]).

(** [p.name]: the last component, empty when there is none. *)
Definition name (p : Path) : str := last (parts p) [].

(** [p.parent]: drops the last component; a bare anchor and the empty
    relative path are their own parents. *)
Definition parent (p : Path) : Path :=
  mkPath (anchor p) (removelast (parts p)).

(** [str(p)] *)
Definition str_of_path (fl : flavour) (p : Path) : str :=
  match anchor p, parts p with
  | [], [] => lit "."
  | a, ps => a ++ join [sep fl] ps
  end.

(** [p.as_posix()]: [str(p).replace(sep, '/')] *)
Definition as_posix (fl : flavour) (p : Path) : str :=
  replace_char (sep fl) slash (str_of_path fl p).

Fixpoint is_prefix (a b : list str) : bool :=
  match a, b with
  | [], _ => true
  | x :: a', y :: b' => str_eqb x y && is_prefix a' b'
  | _ :: _, [] => false
  end.

(** [p.relative_to(other)]: [other] must be [p] or one of its parents
    (compared case-normalised); the result keeps the remaining
    components of [p]. *)
Definition relative_to (fl : flavour) (p other : Path) : result Path :=
  if str_eqb (normcase fl (anchor other)) (normcase fl (anchor p))
     && is_prefix (map (normcase fl) (parts other))
                  (map (normcase fl) (parts p))
  then inr (mkPath [] (skipn (length (parts other)) (parts p)))
  else inl (Exn ValueError (lit "path is not in the subpath of other")).

(** Paths order by their case-normalised components. *)
Definition sort_key (fl : flavour) (p : Path) : list str :=
  map (normcase fl) (anchor p :: parts p).

Definition parts_ltb : list str -> list str -> bool :=
  lex_ltb str_eqb str_ltb.

Definition path_ltb (fl : flavour) (p q : Path) : bool :=
  parts_ltb (sort_key fl p) (sort_key fl q).

End WithLower.

End Paths.
Import Paths.

(* ================================================================== *)
(** * Insertion-ordered dictionaries *)
(* ================================================================== *)

(** A Python [dict] with [str] keys: entries are kept in insertion order;
    assigning to a key that is present replaces its value in place. *)
Module Dict.
Section WithValue.
Variable V : Type.

Definition dict := list (str * V).

(** [d[k] = v] *)
Fixpoint set (k : str) (v : V) (d : dict) : dict :=
  match d with
  | [] => [(k, v)]
  | (k', v') :: d' =>
      if str_eqb k' k then (k', v) :: d' else (k', v') :: set k v d'
  end.

(** [d.get(k)] *)
Fixpoint get (k : str) (d : dict) : option V :=
  match d with
  | [] => None
  | (k', v') :: d' => if str_eqb k' k then Some v' else get k d'
  end.

Definition keys (d : dict) : list str := map fst d.

(** [dict(pairs)] *)
Definition of_pairs (pairs : list (str * V)) : dict :=
  fold_left (fun d kv => set (fst kv) (snd kv) d) pairs [].
End WithValue.
End Dict.

(** A blueprint maps relative paths to file text. *)
Definition blueprint := Dict.dict str.

(* ================================================================== *)
(** * Files: UTF-8 text and the directory tree *)
(* ================================================================== *)

Module Utf8.

Definition between (lo hi b : N) : bool := ((lo <=? b) && (b <=? hi))%N.
Definition cont (b : N) : bool := between 128 191 b.
Definition low6 (b : N) : N := N.land b 63.

(** Strict UTF-8 decoding ([errors='strict']): shortest forms only, no
    surrogates, nothing above U+10FFFF. *)
Fixpoint decode (bs : list N) : option str :=
  match bs with
  | [] => Some []
  | b0 :: r0 =>
      if (b0 <? 128)%N then option_map (cons b0) (decode r0)
      else if between 194 223 b0 then
        match r0 with
        | b1 :: r1 =>
            if cont b1
            then option_map
                   (cons (N.lor (N.shiftl (N.land b0 31) 6) (low6 b1)))
                   (decode r1)
            else None
        | _ => None
        end
      else if between 224 239 b0 then
        match r0 with
        | b1 :: b2 :: r2 =>
            if between (if (b0 =? 224)%N then 160 else 128)
                       (if (b0 =? 237)%N then 159 else 191) b1
               && cont b2
            then option_map
                   (cons (N.lor (N.shiftl (N.land b0 15) 12)
                            (N.lor (N.shiftl (low6 b1) 6) (low6 b2))))
                   (decode r2)
            else None
        | _ => None
        end
      else if between 240 244 b0 then
        match r0 with
        | b1 :: b2 :: b3 :: r3 =>
            if between (if (b0 =? 240)%N then 144 else 128)
                       (if (b0 =? 244)%N then 143 else 191) b1
               && cont b2 && cont b3
            then option_map
                   (cons (N.lor (N.shiftl (N.land b0 7) 18)
                            (N.lor (N.shiftl (low6 b1) 12)
                               (N.lor (N.shiftl (low6 b2) 6) (low6 b3)))))
                   (decode r3)
            else None
        | _ => None
        end
      else None
  end.

(** Text-mode reading translates ["\r\n"] and a lone ["\r"] to ["\n"]. *)
Fixpoint universal_newlines (s : str) : str :=
  match s with
  | [] => []
  | c :: rest =>
      if (c =? 13)%N then
        10%N :: match rest with
                | c' :: rest' =>
                    if (c' =? 10)%N then universal_newlines rest'
                    else universal_newlines rest
                | [] => []
                end
      else c :: universal_newlines rest
  end.

End Utf8.

Module FileSystem.

(** What a path denotes: a regular file with its bytes (and the error
    opening or reading it raises, when it cannot be read), or a
    directory with its entries in the order the system lists them. *)
Inductive node : Type :=
| File (content : list byte) (unreadable : option exn)
| Dir (entries : list (str * node)).

(** The file tree as the running program meets it.

    - [lookup]: what a path denotes, if anything.  A path for which
      [os.stat] fails with one of the errors pathlib ignores ([ENOENT],
      [ENOTDIR], [EBADF], [ELOOP]) denotes nothing.
    - [stat_error]: the [OSError] that [os.stat] raises for a path, when
      it raises one pathlib does not ignore: permission denied on a
      directory of the path, a name that is too long, an I/O error.
    - [scandir_error]: the [OSError] that [os.scandir] raises for a
      directory: permission denied when it may not be listed, or any
      other.
    - [depth_limit]: how many levels of directories below its starting
      point the nested generators of [rglob] can enter before the
      interpreter raises [RecursionError]. *)
Record filesystem : Type := mkFs {
  lookup :> Path -> option node;
  stat_error : Path -> option exn;
  scandir_error : Path -> option exn;
  depth_limit : nat
}.

(** [os.stat] as pathlib uses it: the error it re-raises, or what is
    there. *)
Definition stat (fs : filesystem) (p : Path) : result (option node) :=
  match stat_error fs p with
  | Some e => inl e
  | None => inr (fs p)
  end.

(** A regular file. *)
Definition regular (n : node) : bool :=
  match n with File _ _ => true | Dir _ => false end.

(** [p.exists()] *)
Definition exists_ (fs : filesystem) (p : Path) : result bool :=
  match stat fs p with
  | inl e => inl e
  | inr (Some _) => inr true
  | inr None => inr false
  end.

(** [p.is_dir()] *)
Definition is_dir (fs : filesystem) (p : Path) : result bool :=
  match stat fs p with
  | inl e => inl e
  | inr (Some (Dir _)) => inr true
  | inr _ => inr false
  end.

(** [p.is_file()] for a path [p] the traversal has listed, which denotes
    [n]. *)
Definition is_file (fs : filesystem) (p : Path) (n : node) : result bool :=
  match stat_error fs p with
  | Some e => inl e
  | None => inr (regular n)
  end.

(** [p.read_text(encoding='utf-8')] on what [p] denotes. *)
Definition read_text (n : node) : result str :=
  match n with
  | Dir _ => inl (Exn OSError (lit "Is a directory"))
  | File _ (Some e) => inl e
  | File content None =>
      match Utf8.decode (map Byte.to_N content) with
      | Some s => inr (Utf8.universal_newlines s)
      | None => inl (Exn UnicodeDecodeError
                       (lit "'utf-8' codec can't decode bytes"))
      end
  end.

(** Everything below [p], each path with what it denotes. *)
Fixpoint descendants (p : Path) (n : node) : list (Path * node) :=
  match n with
  | File _ _ => []
  | Dir entries =>
      (fix walk (es : list (str * node)) : list (Path * node) :=
         match es with
         | [] => []
         | (nm, c) :: es' =>
             (joinpath p nm, c) :: descendants (joinpath p nm) c ++ walk es'
         end) entries
  end.

(** The traversal of [rglob('*')] from a directory [p] that denotes
    [n], with [room] levels left to descend.  Both selectors list [p]
    with [os.scandir]: a [PermissionError] is caught and ends the
    traversal of [p] with nothing found, any other error propagates.
    Every entry is yielded; the kind of an entry is known from the
    listing, and a directory among them is entered by one more nested
    generator, depth first and in the order of the listing. *)
Fixpoint walk (fs : filesystem) (room : nat) (p : Path) (n : node)
         {struct n} : result (list (Path * node)) :=
  match n with
  | File _ _ => inr []
  | Dir entries =>
      match scandir_error fs p with
      | Some e => if is_permission_error e then inr [] else inl e
      | None =>
          (fix each (es : list (str * node)) : result (list (Path * node)) :=
             match es with
             | [] => inr []
             | (nm, c) :: es' =>
                 match
                   match c with
                   | File _ _ => inr []
                   | Dir _ =>
                       match room with
                       | O => inl (Exn RecursionError
                                     (lit "maximum recursion depth exceeded"))
                       | S room' => walk fs room' (joinpath p nm) c
                       end
                   end
                 with
                 | inl e => inl e
                 | inr found =>
                     match each es' with
                     | inl e => inl e
                     | inr rest => inr ((joinpath p nm, c) :: found ++ rest)
                     end
                 end
             end) entries
      end
  end.

(** [folder.rglob('*')], consumed to the end: the selector first asks
    [is_dir] of the starting point. *)
Definition rglob (fs : filesystem) (folder : Path)
  : result (list (Path * node)) :=
  match is_dir fs folder with
  | inl e => inl e
  | inr false => inr []
  | inr true =>
      match fs folder with
      | Some n => walk fs (depth_limit fs) folder n
      | None => inr []
      end
  end.

End FileSystem.
Import FileSystem.

(* ================================================================== *)
(** * [build_blueprint_from_folder] *)
(* ================================================================== *)

Section Builder.
Variable lower : str -> str.
Variable fl : flavour.

(** [sorted(...)] on paths: a stable sort that only asks [<]. *)
Fixpoint insert_sorted (x : Path * node) (l : list (Path * node))
  : list (Path * node) :=
  match l with
  | [] => [x]
  | y :: l' =>
      if path_ltb lower fl (fst y) (fst x)
      then y :: insert_sorted x l'
      else x :: y :: l'
  end.

Fixpoint sorted (l : list (Path * node)) : list (Path * node) :=
  match l with
  | [] => []
  | x :: l' => insert_sorted x (sorted l')
  end.

(** The body of the [for] loop, threaded over the items. *)
Fixpoint build_loop (fs : filesystem) (folder : Path)
         (items : list (Path * node)) (bp : blueprint) : result blueprint :=
  match items with
  | [] => inr bp
  | (p, n) :: rest =>
      match is_file fs p n with
      | inl e => inl e
      | inr true =>
          match relative_to lower fl p (parent folder) with
          | inl e => inl e
          | inr r =>
              let rel := as_posix fl r in
              match read_text n with
              | inl _ => build_loop fs folder rest bp
              | inr text => build_loop fs folder rest (Dict.set rel text bp)
              end
          end
      | inr false => build_loop fs folder rest bp
      end
  end.

(** The guard evaluates [folder.exists()] and, only when that holds,
    [folder.is_dir()]; [sorted] consumes the traversal before the loop
    starts. *)
Definition build_blueprint_from_folder (fs : filesystem) (folder : Path)
  : result blueprint :=
  let bp : blueprint := [] in
  match exists_ fs folder with
  | inl e => inl e
  | inr false => inr bp
  | inr true =>
      match is_dir fs folder with
      | inl e => inl e
      | inr false => inr bp
      | inr true =>
          match rglob fs folder with
          | inl e => inl e
          | inr items => build_loop fs folder (sorted items) bp
          end
      end
  end.

End Builder.

(* ================================================================== *)
(** * The [json] module, on the values a blueprint needs *)
(* ================================================================== *)

Module Json.

Definition quote : char := 34%N.
Definition bslash : char := 92%N.

(** ** Encoding: [json.dumps(bp, indent=2, ensure_ascii=False)] *)

Definition hex_digit (n : N) : char :=
  if (n <? 10)%N then (48 + n)%N else (87 + n)%N.

(** [ESCAPE_DCT]: the short escapes, and [\u00xx] for the other control
    characters; every other character stands for itself. *)
Definition escape_char (c : char) : str :=
  if (c =? quote)%N then [bslash; quote]
  else if (c =? bslash)%N then [bslash; bslash]
  else if (c =? 10)%N then [bslash; 110%N]
  else if (c =? 13)%N then [bslash; 114%N]
  else if (c =? 9)%N then [bslash; 116%N]
  else if (c =? 8)%N then [bslash; 98%N]
  else if (c =? 12)%N then [bslash; 102%N]
  else if (c <? 32)%N
       then [bslash; 117%N; 48%N; 48%N;
             hex_digit (c / 16); hex_digit (c mod 16)]
  else [c].

(** [py_encode_basestring] *)
Definition encode_basestring (s : str) : str :=
  quote :: flat_map escape_char s ++ [quote].

Definition indent_unit : str := repeat 32%N 2.
Definition item_separator : str := lit ",".
Definition key_separator : str := lit ": ".

Definition newline_indent (level : nat) : str :=
  10%N :: concat (repeat indent_unit level).

(** The loop of [_iterencode_dict] over the items, with its [first]
    flag. *)
Fixpoint iterencode_items (separator : str) (first : bool)
         (items : list (str * str)) : str :=
  match items with
  | [] => []
  | (k, v) :: rest =>
      (if first then [] else separator)
        ++ encode_basestring k ++ key_separator ++ encode_basestring v
        ++ iterencode_items separator false rest
  end.

Definition iterencode_dict (dct : blueprint) (level : nat) : str :=
  match dct with
  | [] => lit "{}"
  | _ :: _ =>
      lit "{" ++ newline_indent (S level)
        ++ iterencode_items (item_separator ++ newline_indent (S level))
             true dct
        ++ newline_indent level ++ lit "}"
  end.

Definition dumps (bp : blueprint) : str := iterencode_dict bp 0.

(** ** Decoding: [json.loads] *)

(** Decoded values.  Numbers are not part of this fragment: the scanner
    below answers [None] where Python would go on to match a number. *)
Inductive json : Type :=
| JNull
| JBool (b : bool)
| JStr (s : str)
| JArr (items : list json)
| JObj (members : Dict.dict json).

Definition is_ws (c : char) : bool :=
  (c =? 32)%N || (c =? 9)%N || (c =? 10)%N || (c =? 13)%N.

Fixpoint skip_ws (s : str) : str :=
  match s with
  | c :: rest => if is_ws c then skip_ws rest else s
  | [] => []
  end.

Definition hex_value (c : char) : option N :=
  if Utf8.between 48 57 c then Some (c - 48)%N
  else if Utf8.between 97 102 c then Some (c - 87)%N
  else if Utf8.between 65 70 c then Some (c - 55)%N
  else None.

(** [_decode_uXXXX] on the four characters after [\u]: four hexadecimal
    digits.  (The few other spellings [int(esc, 16)] lets through are
    read as errors here.) *)
Definition decode_hex4 (a b c d : char) : option N :=
  match hex_value a, hex_value b, hex_value c, hex_value d with
  | Some x, Some y, Some z, Some w =>
      Some (x * 4096 + y * 256 + z * 16 + w)%N
  | _, _, _, _ => None
  end.

(** The code point a surrogate pair stands for. *)
Definition combine_surrogates (uni uni2 : N) : N :=
  (65536 + N.lor (N.shiftl (uni - 55296) 10) (uni2 - 56320))%N.

(** [BACKSLASH]: the one-character escapes. *)
Definition backslash_escape (c : char) : option char :=
  if (c =? quote)%N then Some quote
  else if (c =? bslash)%N then Some bslash
  else if (c =? 47)%N then Some 47%N
  else if (c =? 98)%N then Some 8%N
  else if (c =? 102)%N then Some 12%N
  else if (c =? 110)%N then Some 10%N
  else if (c =? 114)%N then Some 13%N
  else if (c =? 116)%N then Some 9%N
  else None.

(** [py_scanstring] in strict mode, started after the opening quote:
    the decoded string and what follows the closing quote. *)
Fixpoint scanstring (s : str) : option (str * str) :=
  match s with
  | [] => None
  | c :: rest =>
      if (c =? quote)%N then Some ([], rest)
      else if (c =? bslash)%N then
        match rest with
        | [] => None
        | esc :: r1 =>
            if (esc =? 117)%N then
              match r1 with
              | h1 :: h2 :: h3 :: h4 :: r5 =>
                  match decode_hex4 h1 h2 h3 h4 with
                  | None => None
                  | Some uni =>
                      let plain :=
                        match scanstring r5 with
                        | Some (t, r) => Some (uni :: t, r)
                        | None => None
                        end in
                      if Utf8.between 55296 56319 uni then
                        match r5 with
                        | b :: u :: g1 :: g2 :: g3 :: g4 :: r11 =>
                            if (b =? bslash)%N && (u =? 117)%N then
                              match decode_hex4 g1 g2 g3 g4 with
                              | None => None
                              | Some uni2 =>
                                  if Utf8.between 56320 57343 uni2 then
                                    match scanstring r11 with
                                    | Some (t, r) =>
                                        Some (combine_surrogates uni uni2 :: t,
                                              r)
                                    | None => None
                                    end
                                  else plain
                              end
                            else plain
                        | _ => plain
                        end
                      else plain
                  end
              | _ => None
              end
            else
              match backslash_escape esc with
              | None => None
              | Some ch =>
                  match scanstring r1 with
                  | Some (t, r) => Some (ch :: t, r)
                  | None => None
                  end
              end
        end
      else if (c <? 32)%N then None
      else
        match scanstring rest with
        | Some (t, r) => Some (c :: t, r)
        | None => None
        end
  end.

Section Containers.
(** [scan_once], as the object and array parsers call it back. *)
Variable scan_once : str -> option (json * str).

(** The [while True] loop of [JSONObject]; [s] starts after the
    opening quote of a key. *)
Fixpoint object_loop (fuel : nat) (s : str) (pairs : list (str * json))
  : option (list (str * json) * str) :=
  match fuel with
  | O => None
  | S fuel' =>
      match scanstring s with
      | None => None
      | Some (key, s1) =>
          match skip_ws s1 with
          | colon :: s2 =>
              if (colon =? 58)%N then
                match scan_once (skip_ws s2) with
                | None => None
                | Some (value, s3) =>
                    let pairs' := pairs ++ [(key, value)] in
                    match skip_ws s3 with
                    | nextchar :: s4 =>
                        if (nextchar =? 125)%N then Some (pairs', s4)
                        else if (nextchar =? 44)%N then
                          match skip_ws s4 with
                          | q :: s5 =>
                              if (q =? quote)%N
                              then object_loop fuel' s5 pairs'
                              else None
                          | [] => None
                          end
                        else None
                    | [] => None
                    end
                end
              else None
          | [] => None
          end
      end
  end.

(** [JSONObject]; [s] starts after the opening brace. *)
Definition JSONObject (fuel : nat) (s : str) : option (json * str) :=
  match skip_ws s with
  | c :: rest =>
      if (c =? 125)%N then Some (JObj [], rest)
      else if (c =? quote)%N then
        match object_loop fuel rest [] with
        | Some (pairs, r) => Some (JObj (Dict.of_pairs pairs), r)
        | None => None
        end
      else None
  | [] => None
  end.

(** The loop of [JSONArray]; [s] starts at a value. *)
Fixpoint array_loop (fuel : nat) (s : str) (values : list json)
  : option (list json * str) :=
  match fuel with
  | O => None
  | S fuel' =>
      match scan_once s with
      | None => None
      | Some (value, s1) =>
          let values' := values ++ [value] in
          match skip_ws s1 with
          | nextchar :: s2 =>
              if (nextchar =? 93)%N then Some (values', s2)
              else if (nextchar =? 44)%N
              then array_loop fuel' (skip_ws s2) values'
              else None
          | [] => None
          end
      end
  end.

(** [JSONArray]; [s] starts after the opening bracket. *)
Definition JSONArray (fuel : nat) (s : str) : option (json * str) :=
  match skip_ws s with
  | c :: rest =>
      if (c =? 93)%N then Some (JArr [], rest)
      else
        match array_loop fuel (c :: rest) [] with
        | Some (values, r) => Some (JArr values, r)
        | None => None
        end
  | [] => None
  end.
End Containers.

(** [_scan_once]: dispatch on the next character. *)
Fixpoint scan_once (fuel : nat) (s : str) : option (json * str) :=
  match fuel with
  | O => None
  | S fuel' =>
      match s with
      | [] => None
      | c :: rest =>
          if (c =? quote)%N then
            match scanstring rest with
            | Some (v, r) => Some (JStr v, r)
            | None => None
            end
          else if (c =? 123)%N then JSONObject (scan_once fuel') fuel' rest
          else if (c =? 91)%N then JSONArray (scan_once fuel') fuel' rest
          else if startswith s (lit "null") then Some (JNull, skipn 4 s)
          else if startswith s (lit "true") then Some (JBool true, skipn 4 s)
          else if startswith s (lit "false") then Some (JBool false, skipn 5 s)
          else None
      end
  end.

(** [json.loads]: one value between optional whitespace, nothing after
    it.  Every call and every loop round consumes a character, so the
    length of the text bounds the recursion. *)
Definition loads (s : str) : option json :=
  match scan_once (S (length s)) (skip_ws s) with
  | Some (v, rest) =>
      match skip_ws rest with
      | [] => Some v
      | _ :: _ => None
      end
  | None => None
  end.

(** A blueprint as the decoder returns it. *)
Definition of_blueprint (bp : blueprint) : json :=
  JObj (map (fun kv => (fst kv, JStr (snd kv))) bp).

End Json.

(* ================================================================== *)
(** * Calls to the outside world *)
(* ================================================================== *)

(** Code that talks to a remote service is a state transformer that may
    raise: the state records what has been sent out so far. *)
Module Effects.
Section WithState.
Variable St : Type.

Definition M (A : Type) : Type := St -> St * result A.

Definition ret {A} (a : A) : M A := fun s => (s, inr a).

Definition raise {A} (e : exn) : M A := fun s => (s, inl e).

Definition bind {A B} (m : M A) (k : A -> M B) : M B :=
  fun s =>
    match m s with
    | (s', inr a) => k a s'
    | (s', inl e) => (s', inl e)
    end.

(** [try: body / except Exception as e: handler e] *)
Definition try_except {A} (body : M A) (handler : exn -> M A) : M A :=
  fun s =>
    match body s with
    | (s', inl e) => handler e s'
    | (s', inr a) => (s', inr a)
    end.
End WithState.

Arguments ret {St A} a.
Arguments raise {St A} e.
Arguments bind {St A B} m k.
Arguments try_except {St A} body handler.
End Effects.
Import Effects.

Declare Scope effect_scope.
Delimit Scope effect_scope with eff.
Notation "x <- m ;; k" := (bind m (fun x => k))
  (at level 61, m at next level, right associativity) : effect_scope.
Notation "m ;;; k" := (bind m (fun _ => k))
  (at level 61, right associativity) : effect_scope.

(* ================================================================== *)
(** * [deploy_to_github] *)
(* ================================================================== *)

Module Github.

(** What [get_contents] returns for a file: its path and the hash of
    the stored version, the concurrency token of an update. *)
Record ContentFile : Type := mkContentFile { cf_path : str; cf_sha : str }.

(** The client object [Github(token)] and a repository obtained from
    it. *)
Record Client : Type := mkClient { client_token : str }.
Record Repository : Type := mkRepository { full_name : str }.

(** The requests the publisher can send. *)
Inductive call : Type :=
| GetRepo (token repo_full_name : str)
| GetContents (repo path ref : str)
| UpdateFile (repo path message content sha branch : str)
| CreateFile (repo path message content branch : str).

Definition is_fetch (c : call) : bool :=
  match c with GetContents _ _ _ => true | _ => false end.
Definition is_update (c : call) : bool :=
  match c with UpdateFile _ _ _ _ _ _ => true | _ => false end.
Definition is_create (c : call) : bool :=
  match c with CreateFile _ _ _ _ _ => true | _ => false end.

Definition count (f : call -> bool) (log : list call) : nat :=
  length (filter f log).

(** The remote service: how it answers a request, given everything sent
    so far (the request itself last).  Any behaviour of the service,
    stateful or not, is one such record. *)
Record service : Type := mkService {
  answer_get_repo : list call -> result Repository;
  answer_get_contents : list call -> result ContentFile;
  answer_update_file : list call -> result unit;
  answer_create_file : list call -> result unit
}.

Definition send {A} (c : call) (answer : list call -> result A)
  : M (list call) A :=
  fun log => let log' := log ++ [c] in (log', answer log').

Section Publisher.
Variable lower : str -> str.
Variable svc : service.

Definition get_repo (g : Client) (repo_full_name : str)
  : M (list call) Repository :=
  send (GetRepo (client_token g) repo_full_name) (answer_get_repo svc).

Definition get_contents (repo : Repository) (path ref : str)
  : M (list call) ContentFile :=
  send (GetContents (full_name repo) path ref) (answer_get_contents svc).

Definition update_file (repo : Repository)
           (path message content sha branch : str) : M (list call) unit :=
  send (UpdateFile (full_name repo) path message content sha branch)
       (answer_update_file svc).

Definition create_file (repo : Repository)
           (path message content branch : str) : M (list call) unit :=
  send (CreateFile (full_name repo) path message content branch)
       (answer_create_file svc).

(** ['404' in err_str or 'not found' in err_str.lower()] *)
Definition looks_not_found (err_str : str) : bool :=
  contains (lit "404") err_str
  || contains (lit "not found") (lower err_str).

Definition target_path : str := lit "admin_tools_blueprint.json".

Definition deploy_to_github (token repo_full_name : str) (bp : blueprint)
           (commit_message branch_name : str) : M (list call) unit :=
  (if negb (truthy token)
   then raise (Exn ValueError (lit "GitHub token is missing"))
   else if negb (truthy repo_full_name)
   then raise (Exn ValueError (lit "Repo name is missing"))
   else
     let g := mkClient token in
     repo <- get_repo g repo_full_name ;;
     let content_str := Json.dumps bp in
     try_except
       (existing <- get_contents repo target_path branch_name ;;
        update_file repo (cf_path existing) commit_message content_str
                    (cf_sha existing) branch_name)
       (fun e =>
          let err_str := exn_str e in
          if looks_not_found err_str
          then create_file repo target_path commit_message content_str
                           branch_name
          else raise e))%eff.

End Publisher.

End Github.

(* ================================================================== *)
(** * [generate_response] *)
(* ================================================================== *)

Module Chat.

(** [choice.message]: a mapping with a [get] method, or some other
    object. *)
Inductive message_obj : Type :=
| MsgMapping (fields : Dict.dict (option str))
| MsgOther.

(** One entry of [resp.choices]: its [message] attribute ([None] when
    absent) and its [text] attribute when it has one. *)
Record choice : Type := mkChoice {
  choice_message : option message_obj;
  choice_text : option (option str)
}.

(** The response object, through its [choices]. *)
Record response : Type := mkResponse { choices : list choice }.

(** The one request the generator sends. *)
Inductive request : Type :=
| ChatCompletionCreate (api_key model_name : str)
                       (messages : list (Dict.dict str)).

(** The module-level [openai.api_key] and the requests sent so far. *)
Record world : Type := mkWorld {
  openai_api_key : str;
  sent : list request
}.

(** The endpoint: its answer to the requests sent so far; a falsy
    response object is [None]. *)
Definition endpoint := list request -> result (option response).

Section Generator.
Variable api : endpoint.

Definition set_api_key (k : str) : M world unit :=
  fun w => (mkWorld k (sent w), inr tt).

Definition ChatCompletion_create (model_name : str)
           (messages : list (Dict.dict str))
  : M world (option response) :=
  fun w =>
    let log := sent w ++
               [ChatCompletionCreate (openai_api_key w) model_name messages]
    in (mkWorld (openai_api_key w) log, api log).

(** [x or ''] *)
Definition or_empty (x : option str) : str :=
  match x with
  | Some (c :: s) => c :: s
  | _ => []
  end.

(** The defensive extraction of the reply text. *)
Definition extract_content (resp : option response) : option str :=
  match resp with
  | Some (mkResponse (ch :: _)) =>
      match choice_message ch with
      | Some (MsgMapping (f :: fields)) =>
          match Dict.get (lit "content") (f :: fields) with
          | Some v => v
          | None => Some []
          end
      | _ =>
          match choice_text ch with
          | Some t => t
          | None => Some []
          end
      end
  | _ => Some []
  end.

Definition generate_response (api_key model_name : str)
           (messages : list (Dict.dict str)) : M world str :=
  (if negb (truthy api_key)
   then raise (Exn ValueError (lit "OpenAI API key is missing"))
   else
     set_api_key api_key ;;;
     resp <- ChatCompletion_create model_name messages ;;
     let content := extract_content resp in
     ret (or_empty content))%eff.

End Generator.

End Chat.

(* ================================================================== *)
(** * The page: session state, widgets and event handlers *)
(* ================================================================== *)

(** The module-level code of [architect.py] is the page.  The framework
    runs it from top to bottom on every interaction; the widgets hand
    back what the user entered or clicked, [st.session_state] survives
    from one run to the next, and every [st.*] call puts an element on
    the screen. *)
Module App.

(** ** Text helpers *)

(** [c.isspace()] *)
Definition isspace (c : char) : bool :=
  Utf8.between 9 13 c || Utf8.between 28 32 c
  || (c =? 133)%N || (c =? 160)%N || (c =? 5760)%N
  || Utf8.between 8192 8202 c
  || (c =? 8232)%N || (c =? 8233)%N || (c =? 8239)%N
  || (c =? 8287)%N || (c =? 12288)%N.

Fixpoint lstrip (s : str) : str :=
  match s with
  | [] => []
  | c :: rest => if isspace c then lstrip rest else s
  end.

Definition rstrip (s : str) : str := rev (lstrip (rev s)).

(** [s.strip()] *)
Definition strip (s : str) : str := rstrip (lstrip s).

Fixpoint uint_digits (u : Decimal.uint) : str :=
  match u with
  | Decimal.Nil => []
  | Decimal.D0 u' => 48%N :: uint_digits u'
  | Decimal.D1 u' => 49%N :: uint_digits u'
  | Decimal.D2 u' => 50%N :: uint_digits u'
  | Decimal.D3 u' => 51%N :: uint_digits u'
  | Decimal.D4 u' => 52%N :: uint_digits u'
  | Decimal.D5 u' => 53%N :: uint_digits u'
  | Decimal.D6 u' => 54%N :: uint_digits u'
  | Decimal.D7 u' => 55%N :: uint_digits u'
  | Decimal.D8 u' => 56%N :: uint_digits u'
  | Decimal.D9 u' => 57%N :: uint_digits u'
  end.

(** [str(n)] for a length *)
Definition decimal (n : nat) : str := uint_digits (Nat.to_uint n).

(** [json.dumps(bp, ensure_ascii=False)]: without [indent] the items
    follow one another on one line, separated by [", "]. *)
Definition dumps_compact (bp : blueprint) : str :=
  match bp with
  | [] => lit "{}"
  | _ :: _ => lit "{" ++ Json.iterencode_items (lit ", ") true bp ++ lit "}"
  end.

(** ** What a run can raise *)

Inductive failure : Type :=
| Raised (e : exn)
| KeyError (key : str)
| AttributeError (attr : str).

(** [str(e)] *)
Definition failure_str (f : failure) : str :=
  match f with
  | Raised e => exn_str e
  | KeyError key => [39%N] ++ key ++ [39%N]
  | AttributeError attr =>
      lit "st.session_state has no attribute " ++ attr
  end.

(** ** Session state, screen and widgets *)

(** One entry of the chat history: a dict with a role and a content. *)
Definition entry : Type := Dict.dict str.

Definition chat_entry (role content : str) : entry :=
  [(lit "role", role); (lit "content", content)].

(** [st.session_state]: a key that has not been assigned is [None]; the
    [blueprint] key, once assigned, holds [None] or a blueprint. *)
Record session_state : Type := mkSession {
  ss_history : option (list entry);
  ss_blueprint : option (option blueprint)
}.

(** What the [st.*] calls put on the screen, in order. *)
Inductive element : Type :=
| PageConfig (page_title layout : str)
| SidebarTitle (text : str)
| SidebarTextInput (label : str) (password : bool)
| SidebarSelectbox (label : str) (options : list str)
| SidebarMarkdown (text : str)
| Title (text : str)
| Columns (widths : list nat)
| Header (text : str)
| Markdown (text : str)
| TextArea (label : str)
| Button (label : str)
| Spinner (text : str)
| Warning (text : str)
| Error (text : str)
| Success (text : str)
| Code (text : str)
| Write (text : str)
| ExceptionBox (f : failure)
| DownloadButton (label data file_name mime : str).

(** What the widgets return in one run. *)
Record inputs : Type := mkInputs {
  openai_key : str;
  github_token : str;
  repo_name : str;
  branch : str;
  model : str;
  user_input : str;
  send : bool;
  build_clicked : bool;
  deploy_clicked : bool;
  clear_clicked : bool;
  download_clicked : bool
}.

(** Everything a run can read and change. *)
Record state : Type := mkState {
  session : session_state;
  screen : list element;
  openai : Chat.world;
  github : list Github.call
}.

(** ** Running page code *)

Definition AppM (A : Type) : Type := state -> state * (failure + A).

Definition ret {A} (a : A) : AppM A := fun w => (w, inr a).

Definition raise {A} (f : failure) : AppM A := fun w => (w, inl f).

Definition bind {A B} (m : AppM A) (k : A -> AppM B) : AppM B :=
  fun w =>
    match m w with
    | (w', inr a) => k a w'
    | (w', inl f) => (w', inl f)
    end.

(** [try: body / except Exception as e: handler e] *)
Definition try_except {A} (body : AppM A) (handler : failure -> AppM A)
  : AppM A :=
  fun w =>
    match body w with
    | (w', inl f) => handler f w'
    | (w', inr a) => (w', inr a)
    end.

Declare Scope app_scope.
Delimit Scope app_scope with app.
Notation "x <- m ;; k" := (bind m (fun x => k))
  (at level 61, m at next level, right associativity) : app_scope.
Notation "m ;;; k" := (bind m (fun _ => k))
  (at level 61, right associativity) : app_scope.

(** [for x in items: body x] *)
Fixpoint for_each {A} (items : list A) (body : A -> AppM unit) : AppM unit :=
  match items with
  | [] => ret tt
  | x :: rest => (body x ;;; for_each rest body)%app
  end.

(** [[f x for x in items]] *)
Fixpoint comprehension {A B} (items : list A) (f : A -> AppM B)
  : AppM (list B) :=
  match items with
  | [] => ret []
  | x :: rest =>
      (y <- f x ;; ys <- comprehension rest f ;; ret (y :: ys))%app
  end.

(** A code point UTF-8 has no encoding for: a surrogate. *)
Definition is_surrogate (c : char) : bool :=
  ((55296 <=? c) && (c <=? 57343))%N.

(** [s.encode('utf-8')] succeeds. *)
Definition encodable (s : str) : bool :=
  forallb (fun c => negb (is_surrogate c)) s.

(** The texts an element carries to the browser. *)
Definition texts (e : element) : list str :=
  match e with
  | PageConfig page_title layout => [page_title; layout]
  | SidebarTitle text => [text]
  | SidebarTextInput label _ => [label]
  | SidebarSelectbox label options => label :: options
  | SidebarMarkdown text => [text]
  | Title text => [text]
  | Columns _ => []
  | Header text => [text]
  | Markdown text => [text]
  | TextArea label => [label]
  | Button label => [label]
  | Spinner text => [text]
  | Warning text => [text]
  | Error text => [text]
  | Success text => [text]
  | Code text => [text]
  | Write text => [text]
  | ExceptionBox f => [failure_str f]
  | DownloadButton label data file_name mime => [label; data; file_name; mime]
  end.

Definition renders (e : element) : bool := forallb encodable (texts e).

Definition unicode_encode_error : exn :=
  Exn UnicodeEncodeError
      (lit "'utf-8' codec can't encode character: surrogates not allowed").

(** What an [st.*] call does when Streamlit accepts the element. *)
Definition put (e : element) : AppM unit :=
  fun w => (mkState (session w) (screen w ++ [e]) (openai w) (github w),
            inr tt).

(** An [st.*] call.  Streamlit sends the texts of an element to the
    browser encoded as UTF-8: a text that holds a lone surrogate -- the
    name of a file that is not UTF-8, a reply of the model -- cannot be
    encoded, and the call raises [UnicodeEncodeError] with nothing
    shown. *)
Definition emit (e : element) : AppM unit :=
  fun w =>
    if renders e then put e w
    else (w, inl (Raised unicode_encode_error)).

(** A call into [generate_response]. *)
Definition call_openai {A} (m : Effects.M Chat.world A) : AppM A :=
  fun w =>
    match m (openai w) with
    | (o, inl e) =>
        (mkState (session w) (screen w) o (github w), inl (Raised e))
    | (o, inr a) => (mkState (session w) (screen w) o (github w), inr a)
    end.

(** A call into [deploy_to_github]. *)
Definition call_github {A} (m : Effects.M (list Github.call) A) : AppM A :=
  fun w =>
    match m (github w) with
    | (g, inl e) =>
        (mkState (session w) (screen w) (openai w) g, inl (Raised e))
    | (g, inr a) => (mkState (session w) (screen w) (openai w) g, inr a)
    end.

Definition of_result {A} (r : result A) : AppM A :=
  match r with
  | inl e => raise (Raised e)
  | inr a => ret a
  end.

(** [st.session_state.history] and [st.session_state.blueprint], read
    and assigned. *)
Definition read_history : AppM (list entry) :=
  fun w =>
    match ss_history (session w) with
    | Some h => (w, inr h)
    | None => (w, inl (AttributeError (lit "history")))
    end.

Definition assign_history (h : list entry) : AppM unit :=
  fun w =>
    (mkState (mkSession (Some h) (ss_blueprint (session w)))
             (screen w) (openai w) (github w),
     inr tt).

Definition read_blueprint : AppM (option blueprint) :=
  fun w =>
    match ss_blueprint (session w) with
    | Some b => (w, inr b)
    | None => (w, inl (AttributeError (lit "blueprint")))
    end.

Definition assign_blueprint (b : option blueprint) : AppM unit :=
  fun w =>
    (mkState (mkSession (ss_history (session w)) (Some b))
             (screen w) (openai w) (github w),
     inr tt).

(** [st.session_state.history.append(x)] *)
Definition append_history (x : entry) : AppM unit :=
  (h <- read_history ;; assign_history (h ++ [x]))%app.

(** [m[key]] *)
Definition getitem (m : entry) (key : str) : AppM str :=
  match Dict.get key m with
  | Some v => ret v
  | None => raise (KeyError key)
  end.

(** [m.get(key, default)] *)
Definition get_default (m : entry) (key default : str) : str :=
  match Dict.get key m with
  | Some v => v
  | None => default
  end.

Section Page.
Variable lower : str -> str.
Variable fl : flavour.
Variable fs : filesystem.
Variable api : Chat.endpoint.
Variable svc : Github.service.
(** [__file__] *)
Variable script_file : Path.
Variable inp : inputs.

(** Session state initialization. *)
Definition session_defaults : AppM unit :=
  ((fun w =>
      match ss_history (session w) with
      | None => assign_history [] w
      | Some _ => ret tt w
      end) ;;;
   (fun w =>
      match ss_blueprint (session w) with
      | None => assign_blueprint None w
      | Some _ => ret tt w
      end))%app.

Definition sidebar : AppM unit :=
  (emit (SidebarTitle (lit "Aphex Architect - Admin")) ;;;
   emit (SidebarTextInput (lit "OpenAI API Key") true) ;;;
   emit (SidebarTextInput (lit "GitHub Token") true) ;;;
   emit (SidebarTextInput (lit "GitHub Repo (owner/repo)") false) ;;;
   emit (SidebarTextInput (lit "Branch") false) ;;;
   emit (SidebarSelectbox (lit "Model")
           [lit "gpt-5"; lit "gpt-4o"; lit "gpt-4"; lit "gpt-3.5-turbo"]) ;;;
   emit (SidebarMarkdown (lit "---")) ;;;
   emit (SidebarMarkdown
           (lit "Make sure your tokens have the required permissions for repo updates and the OpenAI quota is available.")))%app.

(** One line of the transcript. *)
Definition show_message (msg : entry) : AppM unit :=
  let role := get_default msg (lit "role") (lit "user") in
  let content := get_default msg (lit "content") [] in
  if str_eqb role (lit "user")
  then emit (Markdown (lit "**You:** " ++ content))
  else emit (Markdown (lit "**Assistant:** " ++ content)).

(** The [if send:] block. *)
Definition on_send : AppM unit :=
  (if negb (truthy (user_input inp)) || negb (truthy (strip (user_input inp)))
   then emit (Warning (lit "Please enter a message before sending"))
   else if negb (truthy (openai_key inp))
   then emit (Error (lit "OpenAI API key is required in the sidebar"))
   else
     append_history (chat_entry (lit "user") (user_input inp)) ;;;
     history <- read_history ;;
     messages <- comprehension history
                   (fun m =>
                      role <- getitem m (lit "role") ;;
                      content <- getitem m (lit "content") ;;
                      ret (chat_entry role content)) ;;
     try_except
       (emit (Spinner (lit "Generating response...")) ;;;
        assistant_text <- call_openai
                            (Chat.generate_response api (openai_key inp)
                                                    (model inp) messages) ;;
        append_history (chat_entry (lit "assistant") assistant_text))
       (fun e =>
          emit (Error (lit "OpenAI request failed: " ++ failure_str e))))%app.

(** The [with left:] block. *)
Definition chat_column : AppM unit :=
  (emit (Header (lit "Chat")) ;;;
   history <- read_history ;;
   for_each history show_message ;;;
   emit (TextArea (lit "Message")) ;;;
   emit (Button (lit "Send")) ;;;
   if send inp then on_send else ret tt)%app.

Definition admin_folder : Path :=
  let base_path := parent script_file in
  joinpath base_path (lit "admin_tools").

(** The block of the build button. *)
Definition on_build : AppM unit :=
  (bp <- of_result (build_blueprint_from_folder lower fl fs admin_folder) ;;
   (match bp with
    | [] => emit (Warning
                    (lit "No files found under admin_tools/. The blueprint will be empty"))
    | _ :: _ => ret tt
    end) ;;;
   assign_blueprint (Some bp) ;;;
   emit (Success (lit "Blueprint built with " ++ decimal (length bp)
                    ++ lit " file(s)")))%app.

(** The preview of the blueprint held by the session. *)
Definition preview_blueprint : AppM unit :=
  (held <- read_blueprint ;;
   match held with
   | None => ret tt
   | Some bp =>
       emit (Markdown (lit "Blueprint preview (first 1k chars of JSON)")) ;;;
       try_except
         (let preview := dumps_compact bp in
          emit (Code (firstn 1000 preview)))
         (fun _ => emit (Write (lit "Unable to preview blueprint")))
   end)%app.

(** The block of the deploy button. *)
Definition on_deploy : AppM unit :=
  (if negb (truthy (github_token inp)) || negb (truthy (repo_name inp))
   then emit (Error (lit "Provide GitHub token and repo name in the sidebar"))
   else
     held <- read_blueprint ;;
     match held with
     | None => emit (Error (lit "Build a blueprint first"))
     | Some bp =>
         try_except
           (emit (Spinner (lit "Deploying to GitHub...")) ;;;
            call_github
              (Github.deploy_to_github lower svc
                 (github_token inp) (repo_name inp) bp
                 (lit "Automated admin_tools blueprint update")
                 (branch inp)) ;;;
            emit (Success (lit "Deployed blueprint to GitHub successfully")))
           (fun e => emit (ExceptionBox e))
     end)%app.

(** The [with right:] block. *)
Definition deployment_column : AppM unit :=
  (emit (Header (lit "Deployment")) ;;;
   emit (Button (lit "Build JSON blueprint from admin_tools/")) ;;;
   (if build_clicked inp then on_build else ret tt) ;;;
   preview_blueprint ;;;
   emit (Markdown (lit "---")) ;;;
   emit (Button (lit "Deploy blueprint to GitHub")) ;;;
   if deploy_clicked inp then on_deploy else ret tt)%app.

(** The block of the clear button. *)
Definition on_clear : AppM unit :=
  (assign_history [] ;;;
   emit (Success (lit "Chat history cleared")))%app.

(** The block of the download button. *)
Definition on_download : AppM unit :=
  (held <- read_blueprint ;;
   match held with
   | None => emit (Error (lit "No blueprint to download"))
   | Some bp =>
       let payload := Json.dumps bp in
       emit (DownloadButton (lit "Download JSON") payload
               (lit "admin_tools_blueprint.json") (lit "application/json"))
   end)%app.

Definition utility_controls : AppM unit :=
  (emit (Markdown (lit "---")) ;;;
   emit (Columns [1; 1]) ;;;
   emit (Button (lit "Clear chat")) ;;;
   (if clear_clicked inp then on_clear else ret tt) ;;;
   emit (Button (lit "Download blueprint")) ;;;
   if download_clicked inp then on_download else ret tt)%app.

(** The whole script, top to bottom. *)
Definition script : AppM unit :=
  (emit (PageConfig (lit "Aphex Architect") (lit "wide")) ;;;
   session_defaults ;;;
   sidebar ;;;
   emit (Title (lit "Aphex Architect")) ;;;
   emit (Columns [3; 1]) ;;;
   chat_column ;;;
   deployment_column ;;;
   utility_controls)%app.

(** One run of the page: the screen starts empty; session state and the
    outside world are as the previous run left them. *)
Definition run (w : state) : state * (failure + unit) :=
  script (mkState (session w) [] (openai w) (github w)).

End Page.

(** The state of a fresh browser session. *)
Definition fresh : state :=
  mkState (mkSession None None) [] (Chat.mkWorld [] []) [].

End App.

(* ================================================================== *)
(** * Notions the builder's properties are stated with *)
(* ================================================================== *)

(** Everything below a node by its components relative to the node, with
    what each path denotes; the order is that of [descendants]. *)
Fixpoint below (n : node) : list (list str * node) :=
  match n with
  | File _ _ => []
  | Dir entries =>
      (fix walk (es : list (str * node)) : list (list str * node) :=
         match es with
         | [] => []
         | (nm, c) :: es' =>
             ([nm], c)
               :: map (fun rn => (nm :: fst rn, snd rn)) (below c) ++ walk es'
         end) entries
  end.

(** How many levels of directories lie below a node. *)
Fixpoint height (n : node) : nat :=
  match n with
  | File _ _ => 0
  | Dir entries =>
      (fix tallest (es : list (str * node)) : nat :=
         match es with
         | [] => 0
         | (_, c) :: es' =>
             Nat.max (match c with
                      | File _ _ => 0
                      | Dir _ => S (height c)
                      end)
                     (tallest es')
         end) entries
  end.

(** The path [folder / r1 / ... / rn]. *)
Definition under (folder : Path) (rel : list str) : Path :=
  mkPath (anchor folder) (parts folder ++ rel).

(** The system lets the program examine the whole of the tree [n] at
    [folder]: no status query and no listing raises, on the folder or on
    anything below it, and the tree is no deeper than the traversal can
    descend. *)
Definition undisturbed (fs : filesystem) (folder : Path) (n : node) : Prop :=
  stat_error fs folder = None
  /\ scandir_error fs folder = None
  /\ (forall rel x,
         In (rel, x) (below n) ->
         stat_error fs (under folder rel) = None
         /\ scandir_error fs (under folder rel) = None)
  /\ height n <= depth_limit fs.

Section BuilderNotions.
Variable lower : str -> str.
Variable fl : flavour.

Definition is_under (folder : Path) (it : Path * node) : Prop :=
  exists rel, fst it = under folder rel.

(** The key the loop computes for a path [p] found below [folder]. *)
Definition key_of (folder p : Path) : str :=
  as_posix fl (mkPath [] (skipn (length (parts (parent folder))) (parts p))).

(** The components a key is made of: those of the path relative to the
    parent of [folder].  When [folder] has a last component, that is its
    name followed by the components below it; a bare anchor and the
    empty relative path have no name to contribute. *)
Definition key_components (folder : Path) (rel : list str) : list str :=
  match parts folder with
  | [] => rel
  | _ :: _ => name folder :: rel
  end.


(** The entries one item of the traversal contributes: one for a regular
    file that [read_text] succeeds on, none otherwise. *)
Definition entry_of (folder : Path) (item : Path * node) : list (str * str) :=
  if regular (snd item) then
    match read_text (snd item) with
    | inr text => [(key_of folder (fst item), text)]
    | inl _ => []
    end
  else [].

(** A component of a path holds neither the host separator nor a forward
    slash. *)
Definition valid_name (nm : str) : bool :=
  negb (existsb (N.eqb (sep fl)) nm) && negb (existsb (N.eqb slash) nm).

Fixpoint distinct (l : list str) : bool :=
  match l with
  | [] => true
  | x :: l' => negb (existsb (str_eqb x) l') && distinct l'
  end.

(** A directory tree as a file system holds it: within a directory the
    names are valid and, compared as the host compares them, pairwise
    different. *)
Fixpoint well_formed (n : node) : bool :=
  match n with
  | File _ _ => true
  | Dir entries =>
      distinct (map (fun e => normcase lower fl (fst e)) entries)
      && forallb (fun e => valid_name (fst e)) entries
      && (fix all (es : list (str * node)) : bool :=
            match es with
            | [] => true
            | (_, c) :: es' => well_formed c && all es'
            end) entries
  end.


End BuilderNotions.

(* ================================================================== *)
(** * Notions the serialisation's properties are stated with *)
(* ================================================================== *)

(** One item of the object on a line of its own, indented by two
    spaces. *)
Definition item_line (kv : str * str) : str :=
  [32%N; 32%N] ++ Json.encode_basestring (fst kv)
    ++ lit ": " ++ Json.encode_basestring (snd kv).

Definition non_ascii (c : char) : bool := (128 <=? c)%N.

(* ================================================================== *)
(** * Notions the publisher's properties are stated with *)
(* ================================================================== *)

(** [needle] occurs somewhere in [hay]. *)
Definition occurs_in (needle hay : str) : Prop :=
  exists before after, hay = before ++ needle ++ after.

(** The text of an error reads as a missing file: it contains "404", or
    its lower-cased form contains "not found". *)
Definition reads_not_found (lower : str -> str) (text : str) : Prop :=
  occurs_in (lit "404") text \/ occurs_in (lit "not found") (lower text).

(* ================================================================== *)
(** * Notions the further properties are stated with *)
(* ================================================================== *)

(** A request is one the publisher sends for a given call: it carries
    the caller's token, repository, commit message and branch, it reads
    and creates the target path only, and what it writes is the
    serialised blueprint. *)
Definition publisher_request (token repo : str) (bp : blueprint)
           (msg br : str) (c : Github.call) : Prop :=
  match c with
  | Github.GetRepo t n => t = token /\ n = repo
  | Github.GetContents _ p ref => p = Github.target_path /\ ref = br
  | Github.UpdateFile _ _ m content _ b =>
      m = msg /\ content = Json.dumps bp /\ b = br
  | Github.CreateFile _ p m content b =>
      p = Github.target_path /\ m = msg /\ content = Json.dumps bp /\ b = br
  end.

(** ** The page *)

Section PageNotions.
Import App.

(** The history and the blueprint a session holds; a session that has
    not been initialised yet holds what the defaults will give it. *)
Definition history_of (s : session_state) : list entry :=
  match ss_history s with
  | Some h => h
  | None => []
  end.

Definition held_blueprint (s : session_state) : option blueprint :=
  match ss_blueprint s with
  | Some held => held
  | None => None
  end.

(** An entry of the history can be read by the page: it has a role and
    a content. *)
Definition entry_ok (m : entry) : Prop :=
  Dict.get (lit "role") m <> None /\ Dict.get (lit "content") m <> None.

(** The session is in good order: every entry of the history can be
    read, and the keys of the blueprint it holds are pairwise
    different. *)
Definition session_ok (s : session_state) : Prop :=
  Forall entry_ok (history_of s)
  /\ match held_blueprint s with
     | Some bp => NoDup (Dict.keys bp)
     | None => True
     end.

(** An entry as it is sent to the model. *)
Definition as_message (m : entry) : entry :=
  chat_entry (get_default m (lit "role") [])
             (get_default m (lit "content") []).

(** An entry as the transcript shows it. *)
Definition transcript_line (m : entry) : element :=
  if str_eqb (get_default m (lit "role") (lit "user")) (lit "user")
  then Markdown (lit "**You:** " ++ get_default m (lit "content") [])
  else Markdown (lit "**Assistant:** " ++ get_default m (lit "content") []).

(** A message of nothing but white space. *)
Definition blank (s : str) : Prop := forallb isspace s = true.

(** What is on the screen above the chat column. *)
Definition page_top : list element :=
  [PageConfig (lit "Aphex Architect") (lit "wide");
   SidebarTitle (lit "Aphex Architect - Admin");
   SidebarTextInput (lit "OpenAI API Key") true;
   SidebarTextInput (lit "GitHub Token") true;
   SidebarTextInput (lit "GitHub Repo (owner/repo)") false;
   SidebarTextInput (lit "Branch") false;
   SidebarSelectbox (lit "Model")
     [lit "gpt-5"; lit "gpt-4o"; lit "gpt-4"; lit "gpt-3.5-turbo"];
   SidebarMarkdown (lit "---");
   SidebarMarkdown
     (lit "Make sure your tokens have the required permissions for repo updates and the OpenAI quota is available.");
   Title (lit "Aphex Architect");
   Columns [3; 1]].

(** What the build block reports for the blueprint it built. *)
Definition build_report (bp : blueprint) : list element :=
  match bp with
  | [] =>
      [Warning
         (lit "No files found under admin_tools/. The blueprint will be empty")]
  | _ :: _ => []
  end
  ++ [Success (lit "Blueprint built with " ++ decimal (length bp)
                 ++ lit " file(s)")].

(** The preview of the blueprint the session holds: the first thousand
    characters of its JSON, or the fallback of the [except] clause when
    Streamlit cannot show them. *)
Definition preview_of (held : option blueprint) : list element :=
  match held with
  | None => []
  | Some bp =>
      [Markdown (lit "Blueprint preview (first 1k chars of JSON)");
       if encodable (firstn 1000 (dumps_compact bp))
       then Code (firstn 1000 (dumps_compact bp))
       else Write (lit "Unable to preview blueprint")]
  end.

(** What the download block offers. *)
Definition download_offer (held : option blueprint) : element :=
  match held with
  | None => Error (lit "No blueprint to download")
  | Some bp =>
      DownloadButton (lit "Download JSON") (Json.dumps bp)
                     (lit "admin_tools_blueprint.json")
                     (lit "application/json")
  end.

(** What the send block does to the history and to the model's world,
    and what it puts on the screen, case by case. *)
Definition send_outcome (api : Chat.endpoint) (inp : inputs)
           (h : list entry) (o : Chat.world)
           (h' : list entry) (o' : Chat.world) (shown : list element)
  : Prop :=
  if send inp then
    if forallb isspace (user_input inp) then
      h' = h /\ o' = o
      /\ shown = [Warning (lit "Please enter a message before sending")]
    else
      match openai_key inp with
      | [] =>
          h' = h /\ o' = o
          /\ shown
             = [Error (lit "OpenAI API key is required in the sidebar")]
      | _ :: _ =>
          let asked := h ++ [chat_entry (lit "user") (user_input inp)] in
          let request :=
            Chat.ChatCompletionCreate (openai_key inp) (model inp)
                                      (map as_message asked) in
          o' = Chat.mkWorld (openai_key inp) (Chat.sent o ++ [request])
          /\ match api (Chat.sent o ++ [request]) with
             | inl e =>
                 h' = asked
                 /\ shown
                    = [Spinner (lit "Generating response...");
                       Error (lit "OpenAI request failed: " ++ exn_str e)]
             | inr resp =>
                 h' = asked
                        ++ [chat_entry (lit "assistant")
                              (Chat.or_empty (Chat.extract_content resp))]
                 /\ shown = [Spinner (lit "Generating response...")]
             end
      end
  else h' = h /\ o' = o /\ shown = [].

(** What the deploy block sends and what it puts on the screen, case by
    case. *)
Definition deploy_outcome (lower : str -> str) (svc : Github.service)
           (inp : inputs) (held : option blueprint)
           (g g' : list Github.call) (shown : list element) : Prop :=
  if deploy_clicked inp then
    match github_token inp, repo_name inp, held with
    | _ :: _, _ :: _, Some bp =>
        let published :=
          Github.deploy_to_github lower svc (github_token inp)
            (repo_name inp) bp
            (lit "Automated admin_tools blueprint update") (branch inp) g in
        g' = fst published
        /\ shown
           = [Spinner (lit "Deploying to GitHub...");
              match snd published with
              | inr _ =>
                  Success (lit "Deployed blueprint to GitHub successfully")
              | inl e => ExceptionBox (Raised e)
              end]
    | _ :: _, _ :: _, None =>
        g' = g /\ shown = [Error (lit "Build a blueprint first")]
    | _, _, _ =>
        g' = g
        /\ shown
           = [Error (lit "Provide GitHub token and repo name in the sidebar")]
    end
  else g' = g /\ shown = [].

(** An entry the transcript can show: its content can be encoded. *)
Definition showable (m : entry) : Prop :=
  encodable (get_default m (lit "content") []) = true.

(** Nothing cuts the chat column short: the transcript can be shown,
    and so can the error of a request that fails. *)
Definition chat_steady (api : Chat.endpoint) (inp : inputs) (w : state)
  : Prop :=
  Forall showable (history_of (session w))
  /\ (send inp = true -> ~ blank (user_input inp) -> openai_key inp <> [] ->
      forall e,
        api (Chat.sent (openai w)
               ++ [Chat.ChatCompletionCreate (openai_key inp) (model inp)
                     (map as_message
                          (history_of (session w)
                             ++ [chat_entry (lit "user") (user_input inp)]))])
        = inl e ->
        encodable (exn_str e) = true).

(** Nothing cuts the run short: the chat column goes through; the
    builder returns, if Build is clicked; the error of a deployment that
    fails can be shown; and the text offered for download can be
    encoded. *)
Definition steady (lower : str -> str) (fl : flavour) (fs : filesystem)
           (api : Chat.endpoint) (svc : Github.service)
           (script_file : Path) (inp : inputs) (w : state) : Prop :=
  chat_steady api inp w
  /\ (build_clicked inp = true ->
      exists bp,
        build_blueprint_from_folder lower fl fs (admin_folder script_file)
        = inr bp)
  /\ (deploy_clicked inp = true ->
      github_token inp <> [] -> repo_name inp <> [] ->
      forall bp e,
        (if build_clicked inp
         then build_blueprint_from_folder lower fl fs
                (admin_folder script_file) = inr bp
         else held_blueprint (session w) = Some bp) ->
        snd (Github.deploy_to_github lower svc (github_token inp)
               (repo_name inp) bp
               (lit "Automated admin_tools blueprint update") (branch inp)
               (github w))
        = inl e ->
        encodable (exn_str e) = true)
  /\ (download_clicked inp = true ->
      forall bp,
        (if build_clicked inp
         then build_blueprint_from_folder lower fl fs
                (admin_folder script_file) = inr bp
         else held_blueprint (session w) = Some bp) ->
        encodable (Json.dumps bp) = true).

(** A run of page code keeps a property of the state, however it
    ends. *)
Definition keeps {A : Type} (I : state -> Prop) (m : AppM A) : Prop :=
  forall w, I w -> I (fst (m w)).

(** A run of page code keeps a property of the state and does not fail
    in a look-up: it raises neither [KeyError] nor [AttributeError]. *)
Definition lookup_failure {A : Type} (r : failure + A) : Prop :=
  match r with
  | inl (KeyError _) | inl (AttributeError _) => True
  | _ => False
  end.

Definition tidy {A : Type} (I : state -> Prop) (m : AppM A) : Prop :=
  forall w, I w -> I (fst (m w)) /\ ~ lookup_failure (snd (m w)).

(** The states the page can be in: that of a fresh session, and what a
    run leaves behind, whatever the user entered and however the file
    system and the remote services behaved. *)
Inductive reachable : state -> Prop :=
| reachable_fresh : reachable fresh
| reachable_run :
    forall (lower : str -> str) (fl : flavour) (fs : filesystem)
           (api : Chat.endpoint) (svc : Github.service)
           (script_file : Path) (inp : inputs) (w : state),
      reachable w ->
      reachable (fst (run lower fl fs api svc script_file inp w)).

End PageNotions.

(* ================================================================== *)
(** * Sample inputs *)
(* ================================================================== *)

Module Samples.
Import Github Chat.

Definition ok_repo : list call -> result Repository :=
  fun _ => inr (mkRepository (lit "owner/repo")).
Definition ok_unit : list call -> result unit := fun _ => inr tt.
Definition failing {A} (text : string) : list call -> result A :=
  fun _ => inl (Exn RemoteException (lit text)).

Definition stored : ContentFile :=
  mkContentFile target_path (lit "9b2e1c404e7b").

(** The target file is there and the update goes through. *)
Definition svc_present : service :=
  mkService ok_repo (fun _ => inr stored) ok_unit ok_unit.

(** The target file is not there yet. *)
Definition svc_absent : service :=
  mkService ok_repo (failing "404 Not Found") ok_unit ok_unit.

(** The service is down. *)
Definition svc_outage : service :=
  mkService ok_repo (failing "500 Internal Server Error") ok_unit ok_unit.

(** The target file is there, but someone else has replaced it since it
    was fetched: the update is refused, and the refusal quotes the stale
    hash. *)
Definition svc_stale : service :=
  mkService ok_repo (fun _ => inr stored)
    (failing "409 admin_tools_blueprint.json does not match 9b2e1c404e7b")
    ok_unit.

(** The update is refused for a reason that reads like nothing else. *)
Definition svc_conflict : service :=
  mkService ok_repo (fun _ => inr stored) (failing "409 Conflict") ok_unit.

Definition token : str := lit "ghp_token".
Definition repo_name : str := lit "owner/repo".
Definition message : str := lit "Automated admin_tools blueprint update".
Definition branch : str := lit "main".

Definition small_blueprint : blueprint :=
  [(lit "root/a.txt", lit "hi"); (lit "root/sub/c.txt", [233%N; 10%N])].

(** [root/{a.txt:"hi", sub/b.bin:<invalid utf-8>}] *)
Definition scenario_entries : list (str * node) :=
  [(lit "a.txt", File (list_byte_of_string "hi") None);
   (lit "sub", Dir [(lit "b.bin", File [xff; xfe; x00] None)])].

Definition scenario_tree : node := Dir scenario_entries.




Definition path_eqb (p q : Path) : bool :=
  str_eqb (anchor p) (anchor q) && lex_eqb str_eqb (parts p) (parts q).

(** A file system that holds [n] at [at_path] and nothing elsewhere, and
    that refuses nothing. *)
Definition mount (at_path : Path) (n : node) : filesystem :=
  mkFs (fun p => if path_eqb p at_path then Some n else None)
       (fun _ => None) (fun _ => None) 300.

Definition permission_denied : exn :=
  Exn PermissionError (lit "[Errno 13] Permission denied").

(** The same, but the status of the path [closed] may not be queried: a
    directory on the way to it may not be searched. *)
Definition mount_unsearchable (at_path : Path) (n : node) (closed : Path)
  : filesystem :=
  mkFs (fun p => if path_eqb p at_path then Some n else None)
       (fun p => if path_eqb p closed then Some permission_denied else None)
       (fun _ => None) 300.


(** A folder that is not there, in a directory that may not be
    searched. *)
Definition private_folder : Path :=
  mkPath (lit "/") [lit "srv"; lit "private"; lit "admin_tools"].





Definition root_dir : Path := mkPath [] [lit "root"].
Definition here : Path := mkPath [] [].

Definition api_key : str := lit "sk-test".
Definition model : str := lit "gpt-4o".
Definition conversation : list (Dict.dict str) :=
  [[(lit "role", lit "user"); (lit "content", lit "hi")]].
Definition fresh_world : world := mkWorld [] [].

(** An endpoint that answers with nothing usable. *)
Definition no_endpoint : endpoint := fun _ => inr None.

(** An endpoint whose choices carry a [message] mapping. *)
Definition chat_endpoint : endpoint :=
  fun _ =>
    inr (Some (mkResponse
                 [mkChoice
                    (Some (MsgMapping
                             [(lit "role", Some (lit "assistant"));
                              (lit "content", Some (lit "hello"))]))
                    None])).

(** An endpoint whose choices carry a [text] attribute instead. *)
Definition completion_endpoint : endpoint :=
  fun _ => inr (Some (mkResponse [mkChoice None (Some (Some (lit "hello")))])).

End Samples.

(* ================================================================== *)
(** * More sample inputs *)
(* ================================================================== *)

Module MoreSamples.
Import Github Chat.

(** The repository itself is not there. *)
Definition svc_no_repo : service :=
  mkService (Samples.failing "404 Not Found")
            (fun _ => inr Samples.stored) Samples.ok_unit Samples.ok_unit.

(** An endpoint that is down. *)
Definition broken_endpoint : endpoint :=
  fun _ => inl (Exn RemoteException (lit "Rate limit reached")).

(** A tree with a file that has Windows line ends. *)
Definition crlf_entries : list (str * node) :=
  [(lit "notes.txt", File [x61; x0d; x0a; x62] None)].

Definition crlf_tree : node := Dir crlf_entries.

End MoreSamples.

Module PageSamples.
Import App.

Definition script_file : Path :=
  mkPath (lit "/") [lit "app"; lit "architect.py"].

(** The folder the page builds from holds the scenario tree. *)
Definition disk : filesystem :=
  Samples.mount (mkPath (lit "/") [lit "app"; lit "admin_tools"])
                Samples.scenario_tree.

Definition idle : inputs :=
  mkInputs (lit "sk-test") (lit "ghp_token") (lit "owner/repo") (lit "main")
           (lit "gpt-4o") [] false false false false false.

Definition asking : inputs :=
  mkInputs (lit "sk-test") (lit "ghp_token") (lit "owner/repo") (lit "main")
           (lit "gpt-4o") (lit "hi") true false false false false.

Definition asking_nothing : inputs :=
  mkInputs (lit "sk-test") (lit "ghp_token") (lit "owner/repo") (lit "main")
           (lit "gpt-4o") (lit "  ") true false false false false.

Definition asking_without_key : inputs :=
  mkInputs [] (lit "ghp_token") (lit "owner/repo") (lit "main")
           (lit "gpt-4o") (lit "hi") true false false false false.

Definition building : inputs :=
  mkInputs (lit "sk-test") (lit "ghp_token") (lit "owner/repo") (lit "main")
           (lit "gpt-4o") [] false true false false false.

Definition deploying : inputs :=
  mkInputs (lit "sk-test") (lit "ghp_token") (lit "owner/repo") (lit "main")
           (lit "gpt-4o") [] false false true false false.

Definition clearing : inputs :=
  mkInputs (lit "sk-test") (lit "ghp_token") (lit "owner/repo") (lit "main")
           (lit "gpt-4o") [] false false false true false.

Definition downloading : inputs :=
  mkInputs (lit "sk-test") (lit "ghp_token") (lit "owner/repo") (lit "main")
           (lit "gpt-4o") [] false false false false true.

(** A session with one exchange in the history and a blueprint built. *)
Definition busy : state :=
  mkState
    (mkSession
       (Some [chat_entry (lit "user") (lit "hello");
              chat_entry (lit "assistant") (lit "hi there")])
       (Some (Some Samples.small_blueprint)))
    [] (Chat.mkWorld [] []) [].

(** The folder beside the script lies where the system lets nobody
    look: its status cannot be queried. *)
Definition closed_disk : filesystem :=
  Samples.mount_unsearchable
    (mkPath (lit "/") [lit "app"; lit "admin_tools"]) Samples.scenario_tree
    (mkPath (lit "/") [lit "app"; lit "admin_tools"]).

(** A session whose last reply holds a lone surrogate, as the JSON of a
    reply can carry one. *)
Definition garbled : state :=
  mkState
    (mkSession
       (Some [chat_entry (lit "user") (lit "hello");
              chat_entry (lit "assistant") [55357%N];
              chat_entry (lit "user") (lit "pardon?")])
       (Some None))
    [] (Chat.mkWorld [] []) [].

(** The blueprint of a folder with a file whose name is not UTF-8:
    Python holds the odd byte as a lone surrogate. *)
Definition odd_blueprint : blueprint :=
  [(lit "admin_tools/" ++ [56575%N] ++ lit ".txt", lit "hi")].

Definition odd : state :=
  mkState (mkSession (Some []) (Some (Some odd_blueprint)))
          [] (Chat.mkWorld [] []) [].

End PageSamples.

Unset Implicit Arguments.

(* ================================================================== *)
(** * Facts about text and its order *)
(* ================================================================== *)

Section LexFacts.
Variable A : Type.
Variable eqb ltb : A -> A -> bool.
Hypothesis eqb_eq : forall x y, eqb x y = true <-> x = y.
Hypothesis ltb_irrefl : forall x, ltb x x = false.
Hypothesis ltb_trans :
  forall x y z, ltb x y = true -> ltb y z = true -> ltb x z = true.
Hypothesis ltb_total :
  forall x y, x = y \/ ltb x y = true \/ ltb y x = true.

Lemma eqb_refl' : forall x, eqb x x = true.
Proof. intros x. apply eqb_eq. reflexivity. Qed.

Lemma lex_eqb_eq : forall a b, lex_eqb eqb a b = true <-> a = b.
Proof.
  induction a as [|x a IH]; intros [|y b]; simpl; split; intros H;
    try reflexivity; try discriminate.
  - apply andb_true_iff in H as [Hxy Hab].
    apply eqb_eq in Hxy. apply IH in Hab. subst. reflexivity.
  - injection H as -> ->. apply andb_true_iff. split.
    + apply eqb_refl'.
    + apply IH. reflexivity.
Qed.



End LexFacts.



Lemma str_eqb_eq : forall a b : str, str_eqb a b = true <-> a = b.
Proof. apply lex_eqb_eq. exact N.eqb_eq. Qed.

Lemma str_eqb_refl : forall a : str, str_eqb a a = true.
Proof. intros a. apply str_eqb_eq. reflexivity. Qed.

Lemma str_eqb_neq : forall a b : str, a <> b -> str_eqb a b = false.
Proof.
  intros a b H. destruct (str_eqb a b) eqn:E; [|reflexivity].
  apply str_eqb_eq in E. contradiction.
Qed.







Lemma startswith_spec :
  forall s prefix : str,
    startswith s prefix = true <-> exists rest, s = prefix ++ rest.
Proof.
  intros s prefix. revert s.
  induction prefix as [|p prefix IH]; intros s.
  - split; [intros _; exists s; reflexivity | destruct s; reflexivity].
  - destruct s as [|c s]; simpl.
    + split; [discriminate | intros (rest & H); discriminate H].
    + rewrite andb_true_iff, N.eqb_eq, IH. split.
      * intros (-> & rest & ->). exists rest. reflexivity.
      * intros (rest & H). injection H as -> ->.
        split; [reflexivity | exists rest; reflexivity].
Qed.

(** [contains] is Python's [in] on strings: the needle occurs somewhere
    in the text. *)
Lemma contains_spec :
  forall needle hay : str,
    contains needle hay = true <-> occurs_in needle hay.
Proof.
  intros needle hay. unfold occurs_in.
  induction hay as [|c hay IH].
  - destruct needle as [|x needle]; simpl; split.
    + intros _. exists [], []. reflexivity.
    + reflexivity.
    + discriminate.
    + intros (before & after & H).
      destruct before; discriminate H.
  - cbn [contains]. rewrite orb_true_iff, IH.
    rewrite (startswith_spec (c :: hay) needle). split.
    + intros [(rest & H)|(before & after & H)].
      * exists [], rest. exact H.
      * exists (c :: before), after. rewrite H. reflexivity.
    + intros (before & after & H). destruct before as [|b before].
      * left. exists after. exact H.
      * right. injection H as _ H. exists before, after. exact H.
Qed.

(** The decoder on a few byte sequences: two-byte and four-byte forms
    are read, overlong forms, surrogates and values beyond U+10FFFF are
    refused. *)
Example decode_two_bytes : Utf8.decode [195; 169]%N = Some [233%N].
Proof. reflexivity. Qed.

Example decode_four_bytes :
  Utf8.decode [240; 159; 152; 128]%N = Some [128512%N].
Proof. reflexivity. Qed.

Example decode_refuses_overlong : Utf8.decode [192; 128]%N = None.
Proof. reflexivity. Qed.

Example decode_refuses_surrogate : Utf8.decode [237; 160; 128]%N = None.
Proof. reflexivity. Qed.

Example decode_refuses_beyond_range :
  Utf8.decode [244; 144; 128; 128]%N = None.
Proof. reflexivity. Qed.

Example decode_refuses_truncated : Utf8.decode [226; 130]%N = None.
Proof. reflexivity. Qed.

Example universal_newlines_example :
  Utf8.universal_newlines
    (lit "a" ++ [13; 10]%N ++ lit "b" ++ [13]%N ++ lit "c")
  = lit "a" ++ [10%N] ++ lit "b" ++ [10%N] ++ lit "c".
Proof. reflexivity. Qed.

(* ================================================================== *)
(** * Properties of the model response generator *)
(* ================================================================== *)

Section ChatFacts.
Import Chat.

(** C9: called with an empty API key, [generate_response] raises the
    missing-credential error, whatever the messages and the model;
    [openai.api_key] is left as it was and nothing has been sent to the
    endpoint. *)
Theorem generate_response_empty_key :
  forall (api : endpoint) (model_name : str)
         (messages : list (Dict.dict str)) (w : world),
  exists e,
    generate_response api [] model_name messages w = (w, inl e)
    /\ MissingCredential e
    /\ e = Exn ValueError (lit "OpenAI API key is missing").
Proof.
  intros api model_name messages w.
  exists (Exn ValueError (lit "OpenAI API key is missing")).
  split; [reflexivity | split; [right; reflexivity | reflexivity]].
Qed.

(** With a key, exactly one request goes out, carrying that key. *)
Lemma generate_response_sends_once :
  forall (api : endpoint) (k : char) (key' model_name : str)
         (messages : list (Dict.dict str)) (w : world),
    sent (fst (generate_response api (k :: key') model_name messages w))
    = sent w ++ [ChatCompletionCreate (k :: key') model_name messages].
Proof.
  intros. unfold generate_response, bind, set_api_key, ChatCompletion_create.
  simpl. destruct (api _); reflexivity.
Qed.

Example generate_response_message_shape :
  generate_response Samples.chat_endpoint Samples.api_key Samples.model
                    Samples.conversation Samples.fresh_world
  = (mkWorld Samples.api_key
       [ChatCompletionCreate Samples.api_key Samples.model
                             Samples.conversation],
     inr (lit "hello")).
Proof. reflexivity. Qed.

Example generate_response_text_shape :
  snd (generate_response Samples.completion_endpoint Samples.api_key
                         Samples.model Samples.conversation
                         Samples.fresh_world)
  = inr (lit "hello").
Proof. reflexivity. Qed.

Example generate_response_nothing_usable :
  snd (generate_response Samples.no_endpoint Samples.api_key Samples.model
                         Samples.conversation Samples.fresh_world)
  = inr [].
Proof. reflexivity. Qed.
End ChatFacts.

(* ================================================================== *)
(** * Facts about [sorted] *)
(* ================================================================== *)


Section SortFacts.
Variable lower : str -> str.
Variable fl : flavour.

Let item : Type := (Path * node)%type.
Let key (a : item) : list str := sort_key lower fl (fst a).



Lemma insert_sorted_perm :
  forall x l, Permutation (insert_sorted lower fl x l) (x :: l).
Proof.
  intros x l. induction l as [|y l IH]; simpl.
  - apply Permutation_refl.
  - destruct (path_ltb lower fl (fst y) (fst x)).
    + eapply perm_trans; [apply perm_skip; exact IH | apply perm_swap].
    + apply Permutation_refl.
Qed.

Lemma sorted_perm : forall l, Permutation (sorted lower fl l) l.
Proof.
  induction l as [|x l IH]; simpl.
  - apply perm_nil.
  - eapply perm_trans; [apply insert_sorted_perm | apply perm_skip; exact IH].
Qed.





End SortFacts.

(* ================================================================== *)
(** * Facts about directory trees *)
(* ================================================================== *)

(** Induction on a tree, one directory entry at a time. *)
Lemma node_entries_ind :
  forall P : node -> Prop,
    (forall c u, P (File c u)) ->
    P (Dir []) ->
    (forall nm c es, P c -> P (Dir es) -> P (Dir ((nm, c) :: es))) ->
    forall n, P n.
Proof.
  intros P Hfile Hnil Hcons.
  fix IH 1. intros [c u|es].
  - apply Hfile.
  - induction es as [|[nm c] es IHes].
    + apply Hnil.
    + apply Hcons; [apply IH | apply IHes].
Qed.

Lemma below_cons :
  forall nm c es,
    below (Dir ((nm, c) :: es))
    = ([nm], c) :: map (fun rn => (nm :: fst rn, snd rn)) (below c)
        ++ below (Dir es).
Proof. reflexivity. Qed.

Lemma descendants_cons :
  forall p nm c es,
    descendants p (Dir ((nm, c) :: es))
    = (joinpath p nm, c) :: descendants (joinpath p nm) c
        ++ descendants p (Dir es).
Proof. reflexivity. Qed.

(** [descendants] lists the paths [below] lists, put under the folder. *)
Lemma descendants_below :
  forall n p,
    descendants p n = map (fun rn => (under p (fst rn), snd rn)) (below n).
Proof.
  induction n as [c u| |nm c es IHc IHes] using node_entries_ind; intros p.
  - reflexivity.
  - reflexivity.
  - rewrite descendants_cons, below_cons. simpl.
    f_equal. rewrite map_app, map_map. f_equal.
    + rewrite IHc. apply map_ext. intros [r x]. simpl.
      unfold under, joinpath. simpl. rewrite <- app_assoc. reflexivity.
    + apply IHes.
Qed.

Lemma below_nonempty :
  forall n r x, In (r, x) (below n) -> r <> [].
Proof.
  induction n as [c u| |nm c es IHc IHes] using node_entries_ind;
    intros r x Hin.
  - contradiction.
  - contradiction.
  - rewrite below_cons in Hin. destruct Hin as [Heq|Hin].
    + injection Heq as <- _. discriminate.
    + apply in_app_or in Hin. destruct Hin as [Hin|Hin].
      * apply in_map_iff in Hin. destruct Hin as ([r' x'] & Heq & _).
        injection Heq as <- _. discriminate.
      * eapply IHes. exact Hin.
Qed.

Section TreeFacts.
Variable lower : str -> str.
Variable fl : flavour.

Let nc : str -> str := normcase lower fl.

Lemma distinct_NoDup : forall l, distinct l = true -> NoDup l.
Proof.
  induction l as [|x l IH]; simpl; intros H; [constructor|].
  apply andb_true_iff in H as [Hx Hl].
  constructor; [|apply IH; exact Hl].
  intros Hin. apply negb_true_iff in Hx.
  assert (Hex : existsb (str_eqb x) l = true).
  { apply existsb_exists. exists x. split; [exact Hin | apply str_eqb_refl]. }
  rewrite Hex in Hx. discriminate Hx.
Qed.

Lemma well_formed_cons :
  forall nm c es,
    well_formed lower fl (Dir ((nm, c) :: es)) = true ->
    well_formed lower fl c = true
    /\ well_formed lower fl (Dir es) = true
    /\ valid_name fl nm = true
    /\ ~ In (nc nm) (map (fun e => nc (fst e)) es).
Proof.
  intros nm c es H. simpl in H.
  apply andb_true_iff in H as [H Hall].
  apply andb_true_iff in H as [Hd Hv].
  apply andb_true_iff in Hall as [Hc Hall].
  apply andb_true_iff in Hd as [Hnm Hd].
  apply andb_true_iff in Hv as [Hvn Hv].
  split; [exact Hc|]. split.
  - simpl. rewrite Hd, Hv, Hall. reflexivity.
  - split; [exact Hvn|].
    intros Hin. apply negb_true_iff in Hnm.
    assert (Hex : existsb (str_eqb (nc nm)) (map (fun e => nc (fst e)) es)
                  = true).
    { apply existsb_exists. exists (nc nm).
      split; [exact Hin | apply str_eqb_refl]. }
    unfold nc in Hex. simpl in Hnm. rewrite Hex in Hnm. discriminate Hnm.
Qed.

(** Every path below a well-formed tree is made of valid names. *)
Lemma below_valid :
  forall n,
    well_formed lower fl n = true ->
    forall r x, In (r, x) (below n) -> forallb (valid_name fl) r = true.
Proof.
  induction n as [c u| |nm c es IHc IHes] using node_entries_ind;
    intros Hwf r x Hin.
  - contradiction.
  - contradiction.
  - apply well_formed_cons in Hwf as (Hc & Hes & Hnm & _).
    rewrite below_cons in Hin. destruct Hin as [Heq|Hin].
    + injection Heq as <- _. simpl. rewrite Hnm. reflexivity.
    + apply in_app_or in Hin. destruct Hin as [Hin|Hin].
      * apply in_map_iff in Hin. destruct Hin as ([r' x'] & Heq & Hin).
        injection Heq as <- _. simpl. rewrite Hnm. simpl.
        eapply IHc; eassumption.
      * eapply IHes; eassumption.
Qed.


End TreeFacts.

(* ================================================================== *)
(** * Facts about keys *)
(* ================================================================== *)

Lemma join_cons :
  forall (sp x : str) (y : str) (rest : list str),
    join sp (x :: y :: rest) = x ++ sp ++ join sp (y :: rest).
Proof. reflexivity. Qed.

Lemma replace_char_app :
  forall old new a b,
    replace_char old new (a ++ b)
    = replace_char old new a ++ replace_char old new b.
Proof. intros. unfold replace_char. apply map_app. Qed.

Lemma replace_char_join :
  forall old new ps,
    replace_char old new (join [old] ps)
    = join [new] (map (replace_char old new) ps).
Proof.
  intros old new ps. induction ps as [|x ps IH]; [reflexivity|].
  destruct ps as [|y ps]; [reflexivity|].
  rewrite join_cons, !replace_char_app, IH. simpl.
  rewrite N.eqb_refl. reflexivity.
Qed.

Lemma replace_char_absent :
  forall old new s,
    existsb (N.eqb old) s = false -> replace_char old new s = s.
Proof.
  intros old new s. induction s as [|c s IH]; simpl; intros H; [reflexivity|].
  apply orb_false_iff in H as [Hc Hs].
  rewrite N.eqb_sym, Hc, (IH Hs). reflexivity.
Qed.




Lemma skipn_length_app :
  forall (A : Type) (a b : list A), skipn (length a) (a ++ b) = b.
Proof. intros A a b. induction a as [|x a IH]; simpl; auto. Qed.

Section KeyFacts.
Variable lower : str -> str.
Variable fl : flavour.

Let nc : str -> str := normcase lower fl.

Lemma is_prefix_app : forall a b, is_prefix a (a ++ b) = true.
Proof.
  induction a as [|x a IH]; intros b; simpl; [reflexivity|].
  rewrite str_eqb_refl. apply IH.
Qed.

(** A path below [folder] is the parent of [folder] followed by the
    components of its key. *)
Lemma parent_split :
  forall folder rel,
    parts folder ++ rel = parts (parent folder) ++ key_components folder rel.
Proof.
  intros folder rel. unfold key_components, parent, name. simpl.
  destruct (parts folder) as [|x l] eqn:E; [reflexivity|].
  rewrite (app_removelast_last (l := x :: l) []) at 1 by discriminate.
  rewrite <- app_assoc. reflexivity.
Qed.

(** [relative_to] never fails on what the traversal finds. *)
Lemma relative_to_under :
  forall folder rel,
    relative_to lower fl (under folder rel) (parent folder)
    = inr (mkPath [] (key_components folder rel)).
Proof.
  intros folder rel. unfold relative_to, under. simpl.
  rewrite str_eqb_refl, parent_split, map_app, is_prefix_app. simpl.
  rewrite skipn_length_app. reflexivity.
Qed.

Lemma key_of_under :
  forall folder rel,
    key_of fl folder (under folder rel)
    = as_posix fl (mkPath [] (key_components folder rel)).
Proof.
  intros folder rel. unfold key_of, under. simpl.
  rewrite parent_split, skipn_length_app. reflexivity.
Qed.

Lemma as_posix_relative :
  forall ps,
    ps <> [] ->
    as_posix fl (mkPath [] ps)
    = join [slash] (map (replace_char (sep fl) slash) ps).
Proof.
  intros ps Hne.
  destruct ps as [|x ps]; [contradiction Hne; reflexivity|].
  change (as_posix fl (mkPath [] (x :: ps)))
    with (replace_char (sep fl) slash (join [sep fl] (x :: ps))).
  apply replace_char_join.
Qed.

Lemma valid_name_sep :
  forall nm, valid_name fl nm = true -> existsb (N.eqb (sep fl)) nm = false.
Proof.
  intros nm H. unfold valid_name in H.
  apply andb_true_iff in H as [H _]. apply negb_true_iff in H. exact H.
Qed.


Lemma valid_names_unchanged :
  forall r,
    forallb (valid_name fl) r = true ->
    map (replace_char (sep fl) slash) r = r.
Proof.
  induction r as [|nm r IH]; simpl; intros H; [reflexivity|].
  apply andb_true_iff in H as [Hnm Hr].
  rewrite (replace_char_absent _ _ _ (valid_name_sep _ Hnm)), (IH Hr).
  reflexivity.
Qed.


(** The key of a path below [folder], spelled out: the components of the
    key joined by forward slashes, whatever the host separator. *)
Lemma key_of_valid :
  forall folder rel,
    rel <> [] -> forallb (valid_name fl) rel = true ->
    key_of fl folder (under folder rel)
    = match parts folder with
      | [] => join [slash] rel
      | _ :: _ =>
          replace_char (sep fl) slash (name folder)
            ++ slash :: join [slash] rel
      end.
Proof.
  intros folder rel Hne Hv.
  rewrite key_of_under. unfold key_components.
  destruct (parts folder) as [|x l] eqn:E.
  - rewrite as_posix_relative by exact Hne.
    rewrite (valid_names_unchanged _ Hv). reflexivity.
  - rewrite as_posix_relative by discriminate.
    simpl map. rewrite (valid_names_unchanged _ Hv).
    destruct rel as [|y rel]; [contradiction Hne; reflexivity|].
    reflexivity.
Qed.



End KeyFacts.

(* ================================================================== *)
(** * Facts about the builder's loop *)
(* ================================================================== *)

Section DictFacts.
Variable V : Type.

Lemma set_fresh :
  forall (k : str) (v : V) (d : Dict.dict V),
    ~ In k (Dict.keys d) -> Dict.set k v d = d ++ [(k, v)].
Proof.
  intros k v d. induction d as [|[k' v'] d IH]; simpl; intros Hfresh.
  - reflexivity.
  - rewrite str_eqb_neq by (intros ->; apply Hfresh; left; reflexivity).
    rewrite IH by (intros Hin; apply Hfresh; right; exact Hin).
    reflexivity.
Qed.

(** Assigning pairwise different new keys one after the other appends
    the entries in that order. *)
Lemma assign_distinct :
  forall (l : list (str * V)) (d : Dict.dict V),
    NoDup (Dict.keys (d ++ l)) ->
    fold_left (fun d kv => Dict.set (fst kv) (snd kv) d) l d = d ++ l.
Proof.
  unfold Dict.keys.
  induction l as [|[k v] l IH]; intros d Hnd; simpl.
  - rewrite app_nil_r. reflexivity.
  - assert (Hfresh : ~ In k (Dict.keys d)).
    { rewrite map_app in Hnd. simpl in Hnd.
      apply NoDup_remove_2 in Hnd. intros Hin. apply Hnd.
      apply in_or_app. left. exact Hin. }
    rewrite (set_fresh _ _ _ Hfresh).
    rewrite IH; rewrite <- app_assoc; [reflexivity | exact Hnd].
Qed.

Lemma of_pairs_distinct :
  forall l : list (str * V), NoDup (map fst l) -> Dict.of_pairs l = l.
Proof.
  intros l Hnd. unfold Dict.of_pairs. apply (assign_distinct l []). exact Hnd.
Qed.
End DictFacts.

Section DictMore.
Variable V : Type.

Lemma set_keys :
  forall (k : str) (v : V) (d : Dict.dict V),
    Dict.keys (Dict.set k v d)
    = if existsb (fun k' => str_eqb k' k) (Dict.keys d)
      then Dict.keys d else Dict.keys d ++ [k].
Proof.
  intros k v d. unfold Dict.keys.
  induction d as [|[k' v'] d IH]; [reflexivity|].
  simpl. destruct (str_eqb k' k) eqn:E; simpl; [reflexivity|].
  rewrite IH. destruct (existsb _ _); reflexivity.
Qed.

(** Assignment keeps the keys of a dict pairwise different. *)
Lemma set_keeps_distinct :
  forall (k : str) (v : V) (d : Dict.dict V),
    NoDup (Dict.keys d) -> NoDup (Dict.keys (Dict.set k v d)).
Proof.
  intros k v d Hnd. rewrite set_keys.
  destruct (existsb _ _) eqn:E; [exact Hnd|].
  apply NoDup_app; [exact Hnd | repeat constructor; intros [] |].
  intros a Ha [<-|[]].
  assert (Hex : existsb (fun k' => str_eqb k' k) (Dict.keys d) = true)
    by (apply existsb_exists; exists k; split;
        [exact Ha | apply str_eqb_refl]).
  rewrite Hex in E. discriminate E.
Qed.

(** An entry of a dict after an assignment is the assigned one or was
    there before. *)
Lemma set_entries :
  forall (k : str) (v : V) (d : Dict.dict V) (k0 : str) (v0 : V),
    In (k0, v0) (Dict.set k v d) -> (k0 = k /\ v0 = v) \/ In (k0, v0) d.
Proof.
  intros k v d k0 v0. induction d as [|[k' v'] d IH]; simpl.
  - intros [H|[]]. injection H as <- <-. left. split; reflexivity.
  - destruct (str_eqb k' k) eqn:E; simpl.
    + apply str_eqb_eq in E. subst k'.
      intros [H|H]; [injection H as <- <-; left; split; reflexivity|].
      right. right. exact H.
    + intros [H|H]; [right; left; exact H|].
      destruct (IH H) as [Heq|Hin]; [left; exact Heq | right; right; exact Hin].
Qed.

Lemma assign_all_keeps_distinct :
  forall (l : list (str * V)) (d : Dict.dict V),
    NoDup (Dict.keys d) ->
    NoDup (Dict.keys
             (fold_left (fun d kv => Dict.set (fst kv) (snd kv) d) l d)).
Proof.
  induction l as [|[k v] l IH]; intros d Hnd; simpl; [exact Hnd|].
  apply IH. apply set_keeps_distinct. exact Hnd.
Qed.

Lemma assign_all_entries :
  forall (l : list (str * V)) (d : Dict.dict V) (k0 : str) (v0 : V),
    In (k0, v0) (fold_left (fun d kv => Dict.set (fst kv) (snd kv) d) l d) ->
    In (k0, v0) l \/ In (k0, v0) d.
Proof.
  induction l as [|[k v] l IH]; intros d k0 v0 Hin; simpl in Hin.
  - right. exact Hin.
  - destruct (IH _ _ _ Hin) as [H|H]; [left; right; exact H|].
    apply set_entries in H. simpl in H.
    destruct H as [[-> ->]|H]; [left; left; reflexivity | right; exact H].
Qed.
End DictMore.

(* ================================================================== *)
(** * Facts about the traversal *)
(* ================================================================== *)

Lemma walk_cons :
  forall (fs : filesystem) room p nm c es,
    scandir_error fs p = None ->
    walk fs room p (Dir ((nm, c) :: es))
    = match
        match c with
        | File _ _ => inr []
        | Dir _ =>
            match room with
            | O => inl (Exn RecursionError
                          (lit "maximum recursion depth exceeded"))
            | S room' => walk fs room' (joinpath p nm) c
            end
        end
      with
      | inl e => inl e
      | inr found =>
          match walk fs room p (Dir es) with
          | inl e => inl e
          | inr rest => inr ((joinpath p nm, c) :: found ++ rest)
          end
      end.
Proof.
  intros fs room p nm c es Hscan. cbn [walk]. rewrite Hscan. reflexivity.
Qed.

Lemma height_cons :
  forall nm c es,
    height (Dir ((nm, c) :: es))
    = Nat.max (match c with File _ _ => 0 | Dir _ => S (height c) end)
              (height (Dir es)).
Proof. reflexivity. Qed.

Lemma under_joinpath :
  forall p nm rel, under (joinpath p nm) rel = under p (nm :: rel).
Proof.
  intros p nm rel. unfold under, joinpath. simpl.
  rewrite <- app_assoc. reflexivity.
Qed.

Lemma under_single :
  forall p nm, under p [nm] = joinpath p nm.
Proof. reflexivity. Qed.

(** Where every directory of the tree can be listed and the tree is not
    too deep, the traversal finds everything below the folder. *)
Lemma walk_undisturbed :
  forall (fs : filesystem) n room p,
    scandir_error fs p = None ->
    (forall rel x, In (rel, x) (below n) ->
                   scandir_error fs (under p rel) = None) ->
    height n <= room ->
    walk fs room p n = inr (descendants p n).
Proof.
  intros fs n.
  induction n as [c u| |nm c es IHc IHes] using node_entries_ind;
    intros room p Hscan Hbelow Hroom.
  - reflexivity.
  - cbn [walk]. rewrite Hscan. reflexivity.
  - rewrite walk_cons by exact Hscan. rewrite descendants_cons.
    rewrite height_cons in Hroom.
    assert (Hrest : walk fs room p (Dir es) = inr (descendants p (Dir es))).
    { apply IHes; [exact Hscan | | lia].
      intros rel x Hin. apply (Hbelow rel x).
      rewrite below_cons. right. apply in_or_app. right. exact Hin. }
    rewrite Hrest.
    destruct c as [content u|sub].
    + reflexivity.
    + destruct room as [|room']; [lia|].
      rewrite (IHc room' (joinpath p nm)).
      * reflexivity.
      * rewrite <- under_single. apply (Hbelow [nm] (Dir sub)).
        rewrite below_cons. left. reflexivity.
      * intros rel x Hin. rewrite under_joinpath. apply (Hbelow _ x).
        rewrite below_cons. right. apply in_or_app. left.
        apply in_map_iff. exists (rel, x). split; [reflexivity | exact Hin].
      * lia.
Qed.

(** Whatever the traversal finds lies below the folder. *)
Lemma walk_found :
  forall (fs : filesystem) n room p items,
    walk fs room p n = inr items -> incl items (descendants p n).
Proof.
  intros fs n.
  induction n as [c u| |nm c es IHc IHes] using node_entries_ind;
    intros room p items Hwalk.
  - injection Hwalk as <-. intros it [].
  - cbn [walk] in Hwalk.
    destruct (scandir_error fs p) as [e|].
    + destruct (is_permission_error e); [|discriminate Hwalk].
      injection Hwalk as <-. intros it [].
    + injection Hwalk as <-. intros it [].
  - destruct (scandir_error fs p) as [e|] eqn:Hscan.
    + cbn [walk] in Hwalk. rewrite Hscan in Hwalk.
      destruct (is_permission_error e); [|discriminate Hwalk].
      injection Hwalk as <-. intros it [].
    + rewrite walk_cons in Hwalk by exact Hscan.
      rewrite descendants_cons.
      assert (Hsub : forall found,
                 match c with
                 | File _ _ => inr []
                 | Dir _ =>
                     match room with
                     | O => inl (Exn RecursionError
                                   (lit "maximum recursion depth exceeded"))
                     | S room' => walk fs room' (joinpath p nm) c
                     end
                 end = inr found ->
                 incl found (descendants (joinpath p nm) c)).
      { intros found H. destruct c as [content u|sub].
        - injection H as <-. intros it [].
        - destruct room as [|room']; [discriminate H|].
          apply (IHc room' _ _ H). }
      destruct (match c with File _ _ => _ | Dir _ => _ end)
        as [e|found]; [discriminate Hwalk|].
      destruct (walk fs room p (Dir es)) as [e|rest] eqn:Hrest;
        [discriminate Hwalk|].
      injection Hwalk as <-.
      intros it [<-|Hin]; [left; reflexivity|]. right.
      apply in_app_or in Hin. apply in_or_app.
      destruct Hin as [Hin|Hin].
      * left. apply (Hsub found eq_refl). exact Hin.
      * right. apply (IHes room p rest Hrest). exact Hin.
Qed.

Section LoopFacts.
Variable lower : str -> str.
Variable fl : flavour.

(** The assignments of the loop: the entries the items contribute,
    assigned one after the other. *)
Lemma build_loop_step :
  forall (fs : filesystem) folder rel n items bp,
    stat_error fs (under folder rel) = None ->
    build_loop lower fl fs folder ((under folder rel, n) :: items) bp
    = build_loop lower fl fs folder items
        (fold_left (fun d kv => Dict.set (fst kv) (snd kv) d)
                   (entry_of fl folder (under folder rel, n)) bp).
Proof.
  intros fs folder rel n items bp Hstat.
  cbn [build_loop]. unfold is_file. rewrite Hstat.
  unfold entry_of. cbn [fst snd].
  destruct (regular n); [|reflexivity].
  rewrite relative_to_under, key_of_under.
  destruct (read_text n) as [e|text]; reflexivity.
Qed.


(** When the loop returns, no status query has raised and it has
    assigned the entries the items contribute; when it raises, it raises
    what a status query raised. *)
Lemma build_loop_outcome :
  forall (fs : filesystem) folder items bp,
    Forall (is_under folder) items ->
    match build_loop lower fl fs folder items bp with
    | inr out =>
        out = fold_left (fun d kv => Dict.set (fst kv) (snd kv) d)
                        (flat_map (entry_of fl folder) items) bp
        /\ Forall (fun it => stat_error fs (fst it) = None) items
    | inl e => exists it, In it items /\ stat_error fs (fst it) = Some e
    end.
Proof.
  intros fs folder items.
  induction items as [|[p n] items IH]; intros bp Hall.
  - split; [reflexivity | constructor].
  - inversion Hall as [|? ? (rel & Hp) Hall']; subst.
    cbn [fst] in Hp. subst p.
    destruct (stat_error fs (under folder rel)) as [e|] eqn:Hs.
    + cbn [build_loop]. unfold is_file. rewrite Hs.
      exists (under folder rel, n). split; [left; reflexivity | exact Hs].
    + rewrite build_loop_step by exact Hs.
      specialize (IH (fold_left (fun d kv => Dict.set (fst kv) (snd kv) d)
                                (entry_of fl folder (under folder rel, n)) bp)
                     Hall').
      destruct (build_loop lower fl fs folder items _) as [e|out].
      * destruct IH as (it & Hin & He). exists it.
        split; [right; exact Hin | exact He].
      * destruct IH as (IH & Hstat). split.
        -- cbn [flat_map]. rewrite fold_left_app. exact IH.
        -- constructor; [exact Hs | exact Hstat].
Qed.



Lemma descendants_under :
  forall folder n, Forall (is_under folder) (descendants folder n).
Proof.
  intros folder n. rewrite descendants_below.
  apply Forall_forall. intros it Hin.
  apply in_map_iff in Hin. destruct Hin as ([r x] & <- & _).
  exists r. reflexivity.
Qed.


(** On a directory the system lets the program examine throughout, the
    traversal finds the whole tree and the builder is the loop over it,
    sorted. *)
Lemma rglob_undisturbed :
  forall (fs : filesystem) folder es,
    fs folder = Some (Dir es) ->
    undisturbed fs folder (Dir es) ->
    rglob fs folder = inr (descendants folder (Dir es)).
Proof.
  intros fs folder es Hfs (Hstat & Hscan & Hbelow & Hroom).
  unfold rglob, is_dir, stat. rewrite Hstat, Hfs.
  apply walk_undisturbed; [exact Hscan | | exact Hroom].
  intros rel x Hin. apply (Hbelow rel x Hin).
Qed.




(** The guard asks nothing the traversal does not ask again: the builder
    is the loop over what the traversal finds, sorted. *)
Lemma build_as_loop :
  forall (fs : filesystem) folder,
    build_blueprint_from_folder lower fl fs folder
    = match rglob fs folder with
      | inl e => inl e
      | inr items => build_loop lower fl fs folder (sorted lower fl items) []
      end.
Proof.
  intros fs folder.
  unfold build_blueprint_from_folder, rglob, exists_, is_dir, stat.
  destruct (stat_error fs folder) as [e|]; [reflexivity|].
  destruct (fs folder) as [[c u|es]|]; reflexivity.
Qed.

(** What the traversal finds lies below the folder. *)
Lemma rglob_found :
  forall (fs : filesystem) folder items,
    rglob fs folder = inr items ->
    items = []
    \/ exists es, fs folder = Some (Dir es)
                  /\ incl items (descendants folder (Dir es)).
Proof.
  intros fs folder items. unfold rglob, is_dir, stat.
  destruct (stat_error fs folder) as [e|]; [discriminate|].
  destruct (fs folder) as [[c u|es]|].
  - intros H. injection H as <-. left. reflexivity.
  - intros H. right. exists es. split; [reflexivity|].
    apply (walk_found _ _ _ _ _ H).
  - intros H. injection H as <-. left. reflexivity.
Qed.

Lemma rglob_under :
  forall (fs : filesystem) folder items,
    rglob fs folder = inr items -> Forall (is_under folder) items.
Proof.
  intros fs folder items H.
  destruct (rglob_found fs folder items H) as [->|(es & _ & Hincl)].
  - constructor.
  - apply Forall_forall. intros it Hin.
    apply (proj1 (Forall_forall _ _) (descendants_under folder (Dir es))).
    apply Hincl. exact Hin.
Qed.

(** When the builder returns, the traversal has returned, no status
    query of the loop has raised, and the mapping is what the
    assignments of the loop give. *)
Lemma build_returns :
  forall (fs : filesystem) folder bp,
    build_blueprint_from_folder lower fl fs folder = inr bp ->
    exists items,
      rglob fs folder = inr items
      /\ Forall (fun it => stat_error fs (fst it) = None) items
      /\ bp = fold_left (fun d kv => Dict.set (fst kv) (snd kv) d)
                (flat_map (entry_of fl folder) (sorted lower fl items)) [].
Proof.
  intros fs folder bp Hrun. rewrite build_as_loop in Hrun.
  destruct (rglob fs folder) as [e|items] eqn:Hrg; [discriminate Hrun|].
  exists items. split; [reflexivity|].
  pose proof (build_loop_outcome fs folder (sorted lower fl items) []
                (Permutation_Forall (Permutation_sym (sorted_perm lower fl _))
                                    (rglob_under fs folder items Hrg)))
    as Hout.
  rewrite Hrun in Hout. destruct Hout as (-> & Hstat).
  split; [|reflexivity].
  apply (Permutation_Forall (sorted_perm lower fl _)). exact Hstat.
Qed.

Lemma build_result_distinct :
  forall (fs : filesystem) folder bp,
    build_blueprint_from_folder lower fl fs folder = inr bp ->
    NoDup (Dict.keys bp).
Proof.
  intros fs folder bp Hrun.
  destruct (build_returns fs folder bp Hrun) as (items & _ & _ & ->).
  apply assign_all_keeps_distinct. constructor.
Qed.

Lemma entry_listed :
  forall folder items k text,
    In (k, text) (flat_map (entry_of fl folder) items) <->
    exists p n, In (p, n) items /\ regular n = true
                /\ read_text n = inr text /\ k = key_of fl folder p.
Proof.
  intros folder items k text. rewrite in_flat_map. split.
  - intros ([p n] & Hin & He). exists p, n. unfold entry_of in He.
    simpl in He. destruct (regular n); [|contradiction].
    destruct (read_text n) as [e|t]; [contradiction|].
    destruct He as [He|[]]. injection He as <- <-. auto.
  - intros (p & n & Hin & Hf & Hr & ->). exists (p, n).
    split; [exact Hin|]. unfold entry_of. simpl. rewrite Hf, Hr.
    left. reflexivity.
Qed.

(** Where an entry of the mapping comes from. *)
Lemma build_entry_origin :
  forall (fs : filesystem) folder bp k text,
    build_blueprint_from_folder lower fl fs folder = inr bp ->
    In (k, text) bp ->
    exists items p n,
      rglob fs folder = inr items
      /\ In (p, n) items
      /\ is_file fs p n = inr true
      /\ read_text n = inr text
      /\ k = key_of fl folder p.
Proof.
  intros fs folder bp k text Hrun Hin.
  destruct (build_returns fs folder bp Hrun) as (items & Hrg & Hstat & ->).
  apply assign_all_entries in Hin. destruct Hin as [Hin|[]].
  apply entry_listed in Hin.
  destruct Hin as (p & n & Hp & Hf & Hr & Hk).
  apply (Permutation_in _ (sorted_perm lower fl _)) in Hp.
  exists items, p, n. split; [exact Hrg|]. split; [exact Hp|].
  split; [|auto].
  unfold is_file.
  pose proof (proj1 (Forall_forall _ _) Hstat (p, n) Hp) as Hs.
  cbn [fst] in Hs. rewrite Hs, Hf. reflexivity.
Qed.

(** What the traversal raises is what a listing raised, unless it is a
    [PermissionError], or the error of a tree that is too deep. *)
Lemma under_nil : forall p : Path, under p [] = p.
Proof. intros [a ps]. unfold under. simpl. rewrite app_nil_r. reflexivity. Qed.

Lemma walk_raises :
  forall (fs : filesystem) n room p e,
    walk fs room p n = inl e ->
    (exists rel, scandir_error fs (under p rel) = Some e
                 /\ is_permission_error e = false)
    \/ e = Exn RecursionError (lit "maximum recursion depth exceeded").
Proof.
  intros fs n.
  induction n as [c u| |nm c es IHc IHes] using node_entries_ind;
    intros room p e Hwalk.
  - discriminate Hwalk.
  - cbn [walk] in Hwalk.
    destruct (scandir_error fs p) as [e'|] eqn:Hscan; [|discriminate Hwalk].
    destruct (is_permission_error e') eqn:Hperm; [discriminate Hwalk|].
    injection Hwalk as <-. left. exists []. rewrite under_nil.
    split; assumption.
  - destruct (scandir_error fs p) as [e'|] eqn:Hscan.
    + cbn [walk] in Hwalk. rewrite Hscan in Hwalk.
      destruct (is_permission_error e') eqn:Hperm; [discriminate Hwalk|].
      injection Hwalk as <-. left. exists []. rewrite under_nil.
      split; assumption.
    + rewrite walk_cons in Hwalk by exact Hscan.
      destruct c as [content u|sub].
      * destruct (walk fs room p (Dir es)) as [e'|rest] eqn:Hrest;
          [|discriminate Hwalk].
        injection Hwalk as <-. apply (IHes room p e' Hrest).
      * destruct room as [|room'].
        -- injection Hwalk as <-. right. reflexivity.
        -- destruct (walk fs room' (joinpath p nm) (Dir sub))
             as [e'|found] eqn:Hsub.
           ++ injection Hwalk as <-.
              destruct (IHc room' _ e' Hsub) as [(rel & H)|H];
                [|right; exact H].
              left. exists (nm :: rel). rewrite <- under_joinpath. exact H.
           ++ destruct (walk fs (S room') p (Dir es)) as [e'|rest] eqn:Hrest;
                [|discriminate Hwalk].
              injection Hwalk as <-. apply (IHes (S room') p e' Hrest).
Qed.

(** What the builder raises, the system raised, at the folder or below
    it. *)
Lemma build_raises :
  forall (fs : filesystem) folder e,
    build_blueprint_from_folder lower fl fs folder = inl e ->
    (exists rel, stat_error fs (under folder rel) = Some e)
    \/ (exists rel, scandir_error fs (under folder rel) = Some e
                    /\ is_permission_error e = false)
    \/ e = Exn RecursionError (lit "maximum recursion depth exceeded").
Proof.
  intros fs folder e Hrun. rewrite build_as_loop in Hrun.
  destruct (rglob fs folder) as [e'|items] eqn:Hrg.
  - injection Hrun as <-. unfold rglob, is_dir, stat in Hrg.
    destruct (stat_error fs folder) as [e''|] eqn:Hstat.
    + injection Hrg as <-. left. exists []. rewrite under_nil. exact Hstat.
    + destruct (fs folder) as [[c u|es]|]; try discriminate Hrg.
      right. apply (walk_raises _ _ _ _ _ Hrg).
  - pose proof (Permutation_Forall
                  (Permutation_sym (sorted_perm lower fl _))
                  (rglob_under fs folder items Hrg)) as Hunder.
    pose proof (build_loop_outcome fs folder (sorted lower fl items) []
                  Hunder) as Hout.
    rewrite Hrun in Hout. destruct Hout as (it & Hit & He).
    destruct (proj1 (Forall_forall _ _) Hunder it Hit) as (rel & Hrel).
    left. exists rel. rewrite <- Hrel. exact He.
Qed.
End LoopFacts.

(* ================================================================== *)
(** * Properties of the blueprint builder *)
(* ================================================================== *)

Section BuilderFacts.
Variable lower : str -> str.
Variable fl : flavour.

(** C6, as the code has it: for a path that does not exist or is not a
    directory, the builder returns the empty mapping when the system
    answers the status query of the guard, and nothing of the tree is
    listed or read; when the query raises instead -- an [OSError] that
    pathlib does not take for "not there": permission denied on a
    directory of the path, a name that is too long -- that error is
    raised to the caller. *)
Theorem build_missing_or_not_directory :
  forall (fs : filesystem) (folder : Path),
    fs folder = None \/ (exists content u, fs folder = Some (File content u)) ->
    build_blueprint_from_folder lower fl fs folder
    = match stat_error fs folder with
      | None => inr []
      | Some e => inl e
      end.
Proof.
  intros fs folder H.
  unfold build_blueprint_from_folder, exists_, is_dir, stat.
  destruct (stat_error fs folder) as [e|]; [reflexivity|].
  destruct H as [H|(content & u & H)]; rewrite H; reflexivity.
Qed.

Lemma descendants_rel :
  forall folder es it,
    In it (descendants folder (Dir es)) ->
    exists rel, In (rel, snd it) (below (Dir es))
                /\ fst it = under folder rel.
Proof.
  intros folder es it Hin.
  rewrite descendants_below in Hin.
  apply in_map_iff in Hin. destruct Hin as ([r x] & <- & Hin).
  exists r. split; [exact Hin | reflexivity].
Qed.













End BuilderFacts.

Section BuilderCases.
Import Samples.


Lemma build_missing_here :
  build_blueprint_from_folder ascii_lower Posix
    (mount root_dir scenario_tree) here = inr [].
Proof.
  apply (build_missing_or_not_directory ascii_lower Posix
           (mount root_dir scenario_tree) here).
  left. reflexivity.
Defined.

(** A folder that is not there, in a directory that may not be
    searched: the status query of the guard raises, and the builder
    raises with it instead of returning the empty mapping. *)
Lemma build_raises_on_unsearchable_path :
  mount_unsearchable root_dir scenario_tree private_folder private_folder
  = None
  /\ build_blueprint_from_folder ascii_lower Posix
       (mount_unsearchable root_dir scenario_tree private_folder)
       private_folder
     = inl permission_denied
  /\ build_blueprint_from_folder ascii_lower Posix
       (mount_unsearchable root_dir scenario_tree private_folder)
       private_folder
     <> inr [].
Proof.
  split; [reflexivity|]. split; [reflexivity|]. discriminate.
Qed.









(** Given a regular file instead of a directory, the builder returns the
    empty mapping. *)
Example build_on_regular_file :
  build_blueprint_from_folder ascii_lower Posix
    (mount root_dir (File (list_byte_of_string "hi") None)) root_dir
  = inr [].
Proof. reflexivity. Qed.

(** On a Windows host the keys still use forward slashes. *)
Example build_scenario_windows_keys :
  build_blueprint_from_folder ascii_lower Windows
    (mount (mkPath (lit "C:\") [lit "work"; lit "root"]) scenario_tree)
    (mkPath (lit "C:\") [lit "work"; lit "root"])
  = inr [(lit "root/a.txt", lit "hi")].
Proof. vm_compute. reflexivity. Qed.

(** A tree deeper than the traversal can descend makes it raise. *)
Example build_too_deep :
  build_blueprint_from_folder ascii_lower Posix
    (mkFs (fun p => if path_eqb p root_dir then Some scenario_tree else None)
          (fun _ => None) (fun _ => None) 0)
    root_dir
  = inl (Exn RecursionError (lit "maximum recursion depth exceeded")).
Proof. vm_compute. reflexivity. Qed.
End BuilderCases.

(* ================================================================== *)
(** * Properties of the serialisation *)
(* ================================================================== *)

Section JsonFacts.
Import Json.

Lemma escape_char_plain :
  forall c : char,
    (32 <= c)%N -> c <> quote -> c <> bslash -> escape_char c = [c].
Proof.
  intros c Hge Hq Hb. unfold escape_char.
  rewrite (proj2 (N.eqb_neq c quote) Hq), (proj2 (N.eqb_neq c bslash) Hb).
  rewrite !(proj2 (N.eqb_neq c _)) by (intros ->; vm_compute in Hge; auto).
  rewrite (proj2 (N.ltb_ge c 32) Hge). reflexivity.
Qed.

Lemma control_char_cases :
  forall c : char, (c < 32)%N -> exists n : nat, n < 32 /\ c = N.of_nat n.
Proof.
  intros c Hc. exists (N.to_nat c). split; [lia | symmetry; apply N2Nat.id].
Qed.

(** Scanning undoes escaping: the scanner reads an escaped string back,
    up to the closing quote. *)
Lemma scanstring_escaped :
  forall (s rest : str),
    scanstring (flat_map escape_char s ++ quote :: rest) = Some (s, rest).
Proof.
  induction s as [|c s IH]; intros rest.
  - reflexivity.
  - change (flat_map escape_char (c :: s))
      with (escape_char c ++ flat_map escape_char s).
    rewrite <- app_assoc.
    destruct (N.ltb_spec c 32) as [Hlt|Hge].
    + destruct (control_char_cases c Hlt) as (n & Hn & ->).
      do 32 (destruct n as [|n];
             [cbn; rewrite IH; reflexivity|]).
      exfalso. lia.
    + destruct (N.eq_dec c quote) as [->|Hq];
        [cbn; rewrite IH; reflexivity|].
      destruct (N.eq_dec c bslash) as [->|Hb];
        [cbn; rewrite IH; reflexivity|].
      rewrite (escape_char_plain c Hge Hq Hb).
      change ([c] ++ flat_map escape_char s ++ quote :: rest)
        with (c :: (flat_map escape_char s ++ quote :: rest)).
      cbn [scanstring].
      rewrite (proj2 (N.eqb_neq c quote) Hq), (proj2 (N.eqb_neq c bslash) Hb).
      rewrite (proj2 (N.ltb_ge c 32) Hge), IH. reflexivity.
Qed.

(** One round of the object loop, once the key and its value are read. *)
Lemma object_loop_item :
  forall (scan : str -> option (json * str)) (fuel : nat)
         (s s1 s2 s3 : str) (k : str) (value : json)
         (pairs : list (str * json)),
    scanstring s = Some (k, s1) ->
    skip_ws s1 = 58%N :: s2 ->
    scan (skip_ws s2) = Some (value, s3) ->
    object_loop scan (S fuel) s pairs
    = match skip_ws s3 with
      | nextchar :: s4 =>
          if (nextchar =? 125)%N then Some (pairs ++ [(k, value)], s4)
          else if (nextchar =? 44)%N then
            match skip_ws s4 with
            | q :: s5 =>
                if (q =? quote)%N
                then object_loop scan fuel s5 (pairs ++ [(k, value)])
                else None
            | [] => None
            end
          else None
      | [] => None
      end.
Proof.
  intros scan fuel s s1 s2 s3 k value pairs Hkey Hcolon Hvalue.
  cbn [object_loop]. rewrite Hkey, Hcolon. rewrite N.eqb_refl, Hvalue.
  reflexivity.
Qed.

Lemma items_cons_shape :
  forall (k v : str) (items : list (str * str)) (tail : str),
    iterencode_items (item_separator ++ newline_indent 1) false
                     ((k, v) :: items) ++ tail
    = 44%N :: 10%N :: 32%N :: 32%N :: quote
        :: flat_map escape_char k
        ++ quote :: 58%N :: 32%N :: quote
        :: flat_map escape_char v
        ++ quote :: (iterencode_items (item_separator ++ newline_indent 1)
                                      false items ++ tail).
Proof.
  intros k v items tail.
  cbn [iterencode_items]. unfold encode_basestring.
  change (item_separator ++ newline_indent 1) with [44%N; 10%N; 32%N; 32%N].
  change key_separator with [58%N; 32%N].
  cbn [app]. repeat (rewrite <- app_assoc; cbn [app]). reflexivity.
Qed.

(** One round of the object loop on an encoded key and string value. *)
Lemma object_loop_string_item :
  forall (f fuel : nat) (k v tail : str) (pairs : list (str * json)),
    object_loop (scan_once (S f)) (S fuel)
      (flat_map escape_char k
         ++ quote :: 58%N :: 32%N :: quote
         :: flat_map escape_char v ++ quote :: tail)
      pairs
    = match skip_ws tail with
      | nextchar :: s4 =>
          if (nextchar =? 125)%N then Some (pairs ++ [(k, JStr v)], s4)
          else if (nextchar =? 44)%N then
            match skip_ws s4 with
            | q :: s5 =>
                if (q =? quote)%N
                then object_loop (scan_once (S f)) fuel s5
                                 (pairs ++ [(k, JStr v)])
                else None
            | [] => None
            end
          else None
      | [] => None
      end.
Proof.
  intros f fuel k v tail pairs.
  apply (object_loop_item (scan_once (S f)) fuel _
           (58%N :: 32%N :: quote :: flat_map escape_char v ++ quote :: tail)
           (32%N :: quote :: flat_map escape_char v ++ quote :: tail)
           tail k (JStr v) pairs).
  - apply scanstring_escaped.
  - reflexivity.
  - cbn. rewrite scanstring_escaped. reflexivity.
Qed.

(** The object loop reads the items back, one per round. *)
Lemma object_loop_items :
  forall (items : list (str * str)) (k v : str) (pairs : list (str * json))
         (fuel f : nat) (final : str),
    length items < fuel ->
    object_loop (scan_once (S f)) fuel
      (flat_map escape_char k
         ++ quote :: 58%N :: 32%N :: quote
         :: flat_map escape_char v
         ++ quote :: (iterencode_items (item_separator ++ newline_indent 1)
                        false items
                        ++ 10%N :: 125%N :: final))
      pairs
    = Some (pairs ++ (k, JStr v)
              :: map (fun kv => (fst kv, JStr (snd kv))) items,
            final).
Proof.
  induction items as [|[k2 v2] items IH];
    intros k v pairs fuel f final Hfuel;
    (destruct fuel as [|fuel]; [inversion Hfuel|]);
    rewrite object_loop_string_item.
  - reflexivity.
  - rewrite items_cons_shape.
    change (skip_ws (44%N :: 10%N :: 32%N :: 32%N :: quote :: ?x))
      with (44%N :: 10%N :: 32%N :: 32%N :: quote :: x).
    cbv beta iota.
    change ((44 =? 125)%N) with false. change ((44 =? 44)%N) with true.
    cbv beta iota.
    change (skip_ws (10%N :: 32%N :: 32%N :: quote :: ?x))
      with (quote :: x).
    cbv beta iota. rewrite N.eqb_refl.
    rewrite IH by (simpl in Hfuel; lia).
    rewrite <- app_assoc. reflexivity.
Qed.

Lemma dumps_cons_shape :
  forall (k v : str) (items : list (str * str)),
    dumps ((k, v) :: items)
    = 123%N :: 10%N :: 32%N :: 32%N :: quote
        :: flat_map escape_char k
        ++ quote :: 58%N :: 32%N :: quote
        :: flat_map escape_char v
        ++ quote :: (iterencode_items (item_separator ++ newline_indent 1)
                       false items
                       ++ [10%N; 125%N]).
Proof.
  intros k v items. unfold dumps, iterencode_dict.
  cbn [iterencode_items]. unfold encode_basestring.
  change (lit "{") with [123%N]. change (lit "}") with [125%N].
  change (newline_indent 0) with [10%N].
  change (newline_indent 1) with [10%N; 32%N; 32%N] at 1.
  change key_separator with [58%N; 32%N].
  cbn [app]. repeat (rewrite <- app_assoc; cbn [app]). reflexivity.
Qed.

Lemma scan_once_object :
  forall (n : nat) (x : str),
    scan_once (S n) (123%N :: 10%N :: 32%N :: 32%N :: quote :: x)
    = match object_loop (scan_once n) n x [] with
      | Some (pairs, r) => Some (JObj (Dict.of_pairs pairs), r)
      | None => None
      end.
Proof. reflexivity. Qed.

Lemma items_length :
  forall (sp : str) (first : bool) (items : list (str * str)),
    length items <= length (iterencode_items sp first items).
Proof.
  intros sp first items. revert first.
  induction items as [|[k v] items IH]; intros first; [apply Nat.le_refl|].
  cbn [iterencode_items]. unfold encode_basestring.
  rewrite !length_app. cbn [length]. specialize (IH false). lia.
Qed.

(** Parsing the serialisation of a blueprint gives the blueprint back. *)
Lemma loads_dumps :
  forall bp : blueprint,
    NoDup (Dict.keys bp) -> loads (dumps bp) = Some (of_blueprint bp).
Proof.
  intros [|[k v] items] Hnd; [reflexivity|].
  unfold loads. rewrite dumps_cons_shape.
  match goal with
  | |- context [scan_once _ (skip_ws (123%N :: ?r))] =>
      change (skip_ws (123%N :: r)) with (123%N :: r);
      change (length (123%N :: r)) with (S (length r));
      set (n := length r)
  end.
  assert (Hlen : length items < S n).
  { subst n. repeat (rewrite length_app || cbn [length]).
    pose proof (items_length (item_separator ++ newline_indent 1) false items).
    lia. }
  rewrite scan_once_object.
  change [10%N; 125%N] with (10%N :: 125%N :: @nil char).
  rewrite object_loop_items by exact Hlen.
  cbn [app skip_ws].
  rewrite of_pairs_distinct; [reflexivity|].
  change ((k, JStr v) :: map (fun kv => (fst kv, JStr (snd kv))) items)
    with (map (fun kv : str * str => (fst kv, JStr (snd kv)))
              ((k, v) :: items)).
  rewrite map_map. exact Hnd.
Qed.

Lemma join_concat :
  forall (sp x : str) (l : list str),
    join sp (x :: l) = x ++ concat (map (app sp) l).
Proof.
  intros sp x l. revert x. induction l as [|y l IH]; intros x.
  - simpl. rewrite app_nil_r. reflexivity.
  - rewrite join_cons, IH. simpl. rewrite <- app_assoc. reflexivity.
Qed.

Lemma items_lines :
  forall items : list (str * str),
    iterencode_items (item_separator ++ newline_indent 1) false items
    = concat (map (app [44%N; 10%N]) (map item_line items)).
Proof.
  induction items as [|[k v] items IH]; [reflexivity|].
  cbn [iterencode_items map concat]. rewrite IH.
  unfold item_line. cbn [fst snd].
  change (item_separator ++ newline_indent 1)
    with ([44%N; 10%N] ++ indent_unit).
  change key_separator with (lit ": ").
  repeat rewrite <- app_assoc. reflexivity.
Qed.

(** The layout of the serialisation: an object, one item per line, each
    indented by two spaces, a comma after every item but the last. *)
Lemma dumps_layout :
  forall bp : blueprint,
    bp <> [] ->
    dumps bp
    = lit "{" ++ 10%N :: join [44%N; 10%N] (map item_line bp)
        ++ 10%N :: lit "}".
Proof.
  intros [|[k v] items] Hne; [contradiction Hne; reflexivity|].
  unfold dumps, iterencode_dict. cbn [iterencode_items map].
  rewrite join_concat, items_lines.
  unfold item_line. cbn [fst snd].
  change (newline_indent 1) with (10%N :: indent_unit).
  change (newline_indent 0) with [10%N].
  change key_separator with (lit ": ").
  change (lit "{") with [123%N].
  cbn [app]. repeat rewrite <- app_assoc. reflexivity.
Qed.

(** A character beyond ASCII is written as it is. *)
Lemma escape_char_non_ascii :
  forall c : char, non_ascii c = true -> escape_char c = [c].
Proof.
  intros c Hc. unfold non_ascii in Hc. apply N.leb_le in Hc.
  apply escape_char_plain.
  - lia.
  - intros ->. vm_compute in Hc. apply Hc. reflexivity.
  - intros ->. vm_compute in Hc. apply Hc. reflexivity.
Qed.

Lemma escape_char_keeps_non_ascii :
  forall c : char,
    filter non_ascii (escape_char c) = filter non_ascii [c].
Proof.
  intros c.
  destruct (N.ltb_spec c 32) as [Hlt|Hge].
  - destruct (control_char_cases c Hlt) as (n & Hn & ->).
    do 32 (destruct n as [|n]; [reflexivity|]).
    exfalso. lia.
  - destruct (N.eq_dec c quote) as [->|Hq]; [reflexivity|].
    destruct (N.eq_dec c bslash) as [->|Hb]; [reflexivity|].
    rewrite (escape_char_plain c Hge Hq Hb). reflexivity.
Qed.

Lemma encode_keeps_non_ascii :
  forall s : str,
    filter non_ascii (encode_basestring s) = filter non_ascii s.
Proof.
  intros s. unfold encode_basestring.
  change (quote :: flat_map escape_char s ++ [quote])
    with ([quote] ++ flat_map escape_char s ++ [quote]).
  rewrite !filter_app.
  change (filter non_ascii [quote]) with (@nil char).
  rewrite app_nil_r. cbn [app].
  induction s as [|c s IH]; [reflexivity|].
  cbn [flat_map]. rewrite filter_app, escape_char_keeps_non_ascii, IH.
  cbn [filter]. destruct (non_ascii c); reflexivity.
Qed.

Lemma items_keep_non_ascii :
  forall (sp : str) (items : list (str * str)) (first : bool),
    filter non_ascii sp = [] ->
    filter non_ascii (iterencode_items sp first items)
    = flat_map (fun kv => filter non_ascii (fst kv)
                            ++ filter non_ascii (snd kv)) items.
Proof.
  intros sp items first Hsp. revert first.
  induction items as [|[k v] items IH]; intros first; [reflexivity|].
  cbn [iterencode_items flat_map fst snd].
  rewrite !filter_app, !encode_keeps_non_ascii, IH.
  replace (filter non_ascii (if first then [] else sp)) with (@nil char)
    by (destruct first; [reflexivity | symmetry; exact Hsp]).
  change (filter non_ascii key_separator) with (@nil char).
  cbn [app]. rewrite <- app_assoc. reflexivity.
Qed.

(** The characters beyond ASCII of the serialisation are those of the
    keys and values, in order: none is turned into an escape. *)
Lemma dumps_keeps_non_ascii :
  forall bp : blueprint,
    filter non_ascii (dumps bp)
    = flat_map (fun kv => filter non_ascii (fst kv)
                            ++ filter non_ascii (snd kv)) bp.
Proof.
  intros [|kv items]; [reflexivity|].
  unfold dumps, iterencode_dict.
  rewrite !filter_app, items_keep_non_ascii by reflexivity.
  change (filter non_ascii (lit "{")) with (@nil char).
  change (filter non_ascii (newline_indent 1)) with (@nil char).
  change (filter non_ascii (newline_indent 0)) with (@nil char).
  change (filter non_ascii (lit "}")) with (@nil char).
  cbn [app]. rewrite app_nil_r. reflexivity.
Qed.

(** C7: for a blueprint mapping (its keys are pairwise different),
    parsing the publisher's serialisation gives the mapping back, with
    the keys in the same order.  The serialisation is a JSON object: the
    empty object for the empty mapping, otherwise an opening brace, one
    item per line -- two spaces, the quoted key, a colon and a space,
    the quoted value -- with a comma after every item but the last, and
    the closing brace on a line of its own; characters beyond ASCII are
    written as they are, and those of the output are exactly those of
    the keys and values. *)
Theorem serialisation_roundtrip :
  forall bp : blueprint,
    NoDup (Dict.keys bp) ->
    loads (dumps bp) = Some (of_blueprint bp)
    /\ (bp = [] -> dumps bp = lit "{}")
    /\ (bp <> [] ->
        dumps bp
        = lit "{" ++ 10%N
            :: join [44%N; 10%N]
                 (map (fun kv =>
                         lit "  " ++ quote :: flat_map escape_char (fst kv)
                           ++ quote :: lit ": "
                           ++ quote :: flat_map escape_char (snd kv)
                           ++ [quote]) bp)
            ++ 10%N :: lit "}")
    /\ (forall c, non_ascii c = true -> escape_char c = [c])
    /\ filter non_ascii (dumps bp)
       = flat_map (fun kv => filter non_ascii (fst kv)
                               ++ filter non_ascii (snd kv)) bp.
Proof.
  intros bp Hnd.
  split; [apply loads_dumps; exact Hnd|].
  split; [intros ->; reflexivity|].
  split.
  { intros Hne. rewrite (dumps_layout bp Hne).
    assert (Hlines :
              map item_line bp
              = map (fun kv =>
                       lit "  " ++ quote :: flat_map escape_char (fst kv)
                         ++ quote :: lit ": "
                         ++ quote :: flat_map escape_char (snd kv)
                         ++ [quote]) bp);
      [|rewrite Hlines; reflexivity].
    apply map_ext. intros [k v].
    unfold item_line, encode_basestring. cbn [fst snd].
    change (lit "  ") with [32%N; 32%N]. cbn [app].
    rewrite <- !app_assoc. reflexivity. }
  split; [exact escape_char_non_ascii | apply dumps_keeps_non_ascii].
Qed.

Lemma small_blueprint_keys_distinct :
  NoDup (Dict.keys Samples.small_blueprint).
Proof.
  constructor.
  - intros [H|[]]. vm_compute in H. discriminate H.
  - constructor; [intros [] | constructor].
Defined.

Lemma serialisation_roundtrip_small :
  loads (dumps Samples.small_blueprint)
  = Some (of_blueprint Samples.small_blueprint)
  /\ (Samples.small_blueprint = [] -> dumps Samples.small_blueprint = lit "{}")
  /\ (Samples.small_blueprint <> [] ->
      dumps Samples.small_blueprint
      = lit "{" ++ 10%N
          :: join [44%N; 10%N]
               (map (fun kv =>
                       lit "  " ++ quote :: flat_map escape_char (fst kv)
                         ++ quote :: lit ": "
                         ++ quote :: flat_map escape_char (snd kv)
                         ++ [quote]) Samples.small_blueprint)
          ++ 10%N :: lit "}")
  /\ (forall c, non_ascii c = true -> escape_char c = [c])
  /\ filter non_ascii (dumps Samples.small_blueprint)
     = flat_map (fun kv => filter non_ascii (fst kv)
                             ++ filter non_ascii (snd kv))
                Samples.small_blueprint.
Proof.
  apply (serialisation_roundtrip Samples.small_blueprint).
  exact small_blueprint_keys_distinct.
Defined.

Example dumps_small_blueprint :
  dumps Samples.small_blueprint
  = lit "{" ++ [10%N]
      ++ lit "  " ++ [quote] ++ lit "root/a.txt" ++ [quote] ++ lit ": "
      ++ [quote] ++ lit "hi" ++ [quote] ++ lit "," ++ [10%N]
      ++ lit "  " ++ [quote] ++ lit "root/sub/c.txt" ++ [quote] ++ lit ": "
      ++ [quote; 233%N; bslash; 110%N; quote] ++ [10%N]
      ++ lit "}".
Proof. reflexivity. Qed.
End JsonFacts.

(* ================================================================== *)
(** * Properties of the remote publisher *)
(* ================================================================== *)

Section PublisherFacts.
Import Github.
Variable lower : str -> str.
Variable svc : service.

Lemma truthy_nonempty : forall s : str, s <> [] -> truthy s = true.
Proof. intros [|c s] H; [contradiction H; reflexivity | reflexivity]. Qed.

(** What [deploy_to_github] does once both guards are passed and the
    repository is obtained. *)
Lemma deploy_after_guards :
  forall token repo bp msg br log r,
    token <> [] -> repo <> [] ->
    answer_get_repo svc (log ++ [GetRepo token repo]) = inr r ->
    deploy_to_github lower svc token repo bp msg br log
    = try_except
        (bind (get_contents svc r target_path br)
              (fun existing =>
                 update_file svc r (cf_path existing) msg (Json.dumps bp)
                             (cf_sha existing) br))
        (fun e =>
           if looks_not_found lower (exn_str e)
           then create_file svc r target_path msg (Json.dumps bp) br
           else raise e)
        (log ++ [GetRepo token repo]).
Proof.
  intros token repo bp msg br log r Ht Hr Hrepo.
  unfold deploy_to_github.
  rewrite (truthy_nonempty _ Ht), (truthy_nonempty _ Hr). simpl.
  unfold bind at 1. unfold get_repo, send. simpl. rewrite Hrepo.
  reflexivity.
Qed.

(** The test of the [except] clause holds exactly for a text that reads
    as a missing file. *)
Lemma looks_not_found_spec :
  forall text : str,
    looks_not_found lower text = true <-> reads_not_found lower text.
Proof.
  intros text. unfold looks_not_found, reads_not_found.
  rewrite orb_true_iff, !contains_spec. reflexivity.
Qed.

Lemma looks_not_found_false :
  forall text : str,
    looks_not_found lower text = false <-> ~ reads_not_found lower text.
Proof.
  intros text. rewrite <- looks_not_found_spec.
  destruct (looks_not_found lower text); split; intros H;
    try reflexivity; try discriminate.
  contradiction H. reflexivity.
Qed.

(** C2: when the fetch of the target file fails with an error whose
    text contains "404" or, in lower case, "not found", the publisher
    sends exactly one create-file request carrying the serialised
    blueprint and no update-file request; when the text contains
    neither, the same error comes back to the caller and neither
    request is sent. *)
Theorem publish_fetch_failure :
  forall token repo bp msg br log r e,
    token <> [] -> repo <> [] ->
    answer_get_repo svc (log ++ [GetRepo token repo]) = inr r ->
    answer_get_contents svc
      ((log ++ [GetRepo token repo])
         ++ [GetContents (full_name r) target_path br]) = inl e ->
    exists calls outcome,
      deploy_to_github lower svc token repo bp msg br log
      = (log ++ calls, outcome)
      /\ count is_fetch calls = 1
      /\ count is_update calls = 0
      /\ (reads_not_found lower (exn_str e) ->
          calls = [GetRepo token repo;
                   GetContents (full_name r) target_path br;
                   CreateFile (full_name r) target_path msg
                              (Json.dumps bp) br]
          /\ count is_create calls = 1
          /\ outcome = answer_create_file svc (log ++ calls))
      /\ (~ reads_not_found lower (exn_str e) ->
          calls = [GetRepo token repo;
                   GetContents (full_name r) target_path br]
          /\ count is_create calls = 0
          /\ outcome = inl e).
Proof.
  intros token repo bp msg br log r e Ht Hr Hrepo Hfetch.
  rewrite (deploy_after_guards _ _ bp msg br log _ Ht Hr Hrepo).
  unfold try_except, bind, get_contents, send. simpl.
  rewrite Hfetch.
  destruct (looks_not_found lower (exn_str e)) eqn:Hnf.
  - apply looks_not_found_spec in Hnf.
    exists [GetRepo token repo; GetContents (full_name r) target_path br;
            CreateFile (full_name r) target_path msg (Json.dumps bp) br].
    eexists. unfold create_file, send. simpl.
    repeat rewrite <- app_assoc. simpl.
    split; [reflexivity|].
    split; [reflexivity|]. split; [reflexivity|].
    split; [intros _; repeat split | intros Hno; contradiction].
  - apply looks_not_found_false in Hnf.
    exists [GetRepo token repo; GetContents (full_name r) target_path br].
    eexists. unfold raise.
    repeat rewrite <- app_assoc. simpl.
    split; [reflexivity|].
    split; [reflexivity|]. split; [reflexivity|].
    split; [intros Hyes; contradiction | intros _; repeat split].
Qed.

(** X26: what the publisher does when the fetch of the target file
    succeeds: it sends exactly one fetch and exactly one update-file request,
    which carries the fetched path and hash.  If the update goes
    through, or fails with an error whose text contains neither "404"
    nor, in lower case, "not found", no create-file request is sent and
    the caller gets the update's outcome unchanged.  An update failure
    whose text does contain one of the two markers falls into the
    [except] clause meant for a failed fetch: one create-file request
    follows and its outcome is the caller's. *)
Lemma publish_existing_target :
  forall token repo bp msg br log r existing,
    token <> [] -> repo <> [] ->
    answer_get_repo svc (log ++ [GetRepo token repo]) = inr r ->
    answer_get_contents svc
      ((log ++ [GetRepo token repo])
         ++ [GetContents (full_name r) target_path br]) = inr existing ->
    let update := UpdateFile (full_name r) (cf_path existing) msg
                             (Json.dumps bp) (cf_sha existing) br in
    let create := CreateFile (full_name r) target_path msg
                             (Json.dumps bp) br in
    let upto_update := [GetRepo token repo;
                        GetContents (full_name r) target_path br;
                        update] in
    exists calls outcome,
      deploy_to_github lower svc token repo bp msg br log
      = (log ++ calls, outcome)
      /\ count is_fetch calls = 1
      /\ filter is_update calls = [update]
      /\ (forall u, answer_update_file svc (log ++ upto_update) = inr u ->
          calls = upto_update /\ count is_create calls = 0
          /\ outcome = inr u)
      /\ (forall e, answer_update_file svc (log ++ upto_update) = inl e ->
          ~ reads_not_found lower (exn_str e) ->
          calls = upto_update /\ count is_create calls = 0
          /\ outcome = inl e)
      /\ (forall e, answer_update_file svc (log ++ upto_update) = inl e ->
          reads_not_found lower (exn_str e) ->
          calls = upto_update ++ [create] /\ count is_create calls = 1
          /\ outcome = answer_create_file svc (log ++ calls)).
Proof.
  intros token repo bp msg br log r existing Ht Hr Hrepo Hfetch
         update create upto_update.
  rewrite (deploy_after_guards _ _ bp msg br log _ Ht Hr Hrepo).
  unfold try_except, bind, get_contents, update_file, send. simpl.
  rewrite Hfetch.
  assert (Hlog : ((log ++ [GetRepo token repo])
                    ++ [GetContents (full_name r) target_path br])
                   ++ [update] = log ++ upto_update)
    by (unfold upto_update; repeat rewrite <- app_assoc; reflexivity).
  fold update. rewrite Hlog.
  destruct (answer_update_file svc (log ++ upto_update)) as [e|u] eqn:Hup.
  - destruct (looks_not_found lower (exn_str e)) eqn:Hnf.
    + exists (upto_update ++ [create]),
        (answer_create_file svc (log ++ upto_update ++ [create])).
      unfold create_file, send. fold create.
      rewrite <- app_assoc.
      split; [reflexivity|].
      split; [reflexivity|]. split; [reflexivity|].
      split; [intros u Hu; discriminate Hu|].
      split; intros e' He' Hnf'; injection He' as <-.
      * apply looks_not_found_spec in Hnf. contradiction.
      * repeat split.
    + exists upto_update, (inl e). unfold raise.
      split; [reflexivity|].
      split; [reflexivity|]. split; [reflexivity|].
      split; [intros u Hu; discriminate Hu|].
      split; intros e' He' Hnf'; injection He' as <-.
      * repeat split.
      * apply looks_not_found_false in Hnf. contradiction.
  - exists upto_update, (inr u).
    split; [reflexivity|].
    split; [reflexivity|]. split; [reflexivity|].
    split; [intros u' Hu; injection Hu as <-; repeat split|].
    split; intros e' He'; discriminate He'.
Qed.

(** C3, as the code has it: with an empty token the publisher raises
    the missing-credential error; with an empty repository identifier
    and a token that is present it raises the missing-target error; in
    both cases nothing has been sent to the remote service.  (The token
    is checked first, so with both empty the error is the
    missing-credential one.) *)
Theorem publish_preconditions :
  forall token repo bp msg br log,
    token = [] \/ repo = [] ->
    exists e,
      deploy_to_github lower svc token repo bp msg br log = (log, inl e)
      /\ (token = [] ->
          MissingCredential e
          /\ e = Exn ValueError (lit "GitHub token is missing"))
      /\ (token <> [] ->
          MissingTarget e
          /\ e = Exn ValueError (lit "Repo name is missing")).
Proof.
  intros token repo bp msg br log H.
  destruct token as [|c token].
  - exists (Exn ValueError (lit "GitHub token is missing")).
    split; [reflexivity|]. split.
    + intros _. split; [left; reflexivity | reflexivity].
    + intros Hne. contradiction Hne. reflexivity.
  - destruct H as [H|H]; [discriminate H|]. subst repo.
    exists (Exn ValueError (lit "Repo name is missing")).
    split; [reflexivity|]. split.
    + intros Hc. discriminate Hc.
    + intros _. split; reflexivity.
Qed.
End PublisherFacts.

Section PublisherCases.
Import Github Samples.

Lemma publish_fetch_failure_absent :
  exists calls outcome,
    deploy_to_github ascii_lower svc_absent token repo_name small_blueprint
                     message branch []
    = ([] ++ calls, outcome)
    /\ count is_fetch calls = 1
    /\ count is_update calls = 0
    /\ (reads_not_found ascii_lower (lit "404 Not Found") ->
        calls = [GetRepo token repo_name;
                 GetContents (lit "owner/repo") target_path branch;
                 CreateFile (lit "owner/repo") target_path message
                            (Json.dumps small_blueprint) branch]
        /\ count is_create calls = 1
        /\ outcome = answer_create_file svc_absent ([] ++ calls))
    /\ (~ reads_not_found ascii_lower (lit "404 Not Found") ->
        calls = [GetRepo token repo_name;
                 GetContents (lit "owner/repo") target_path branch]
        /\ count is_create calls = 0
        /\ outcome = inl (Exn RemoteException (lit "404 Not Found"))).
Proof.
  apply (@publish_fetch_failure ascii_lower svc_absent token repo_name
           small_blueprint message branch []
           (mkRepository (lit "owner/repo"))
           (Exn RemoteException (lit "404 Not Found")));
    [discriminate | discriminate | reflexivity | reflexivity].
Defined.

Lemma publish_existing_target_present :
  let update := UpdateFile (lit "owner/repo") target_path message
                           (Json.dumps small_blueprint)
                           (lit "9b2e1c404e7b") branch in
  deploy_to_github ascii_lower svc_present token repo_name small_blueprint
                   message branch []
  = ([GetRepo token repo_name;
      GetContents (lit "owner/repo") target_path branch;
      update], inr tt).
Proof.
  intros update.
  destruct (@publish_existing_target ascii_lower svc_present token repo_name
              small_blueprint message branch []
              (mkRepository (lit "owner/repo")) stored)
    as (calls & outcome & Hrun & _ & _ & Hok & _);
    [discriminate | discriminate | reflexivity | reflexivity |].
  destruct (Hok tt eq_refl) as (Hcalls & _ & Hout).
  rewrite Hrun, Hcalls, Hout. reflexivity.
Defined.

(** C1: a stale update is not surfaced but turned into a create, by a
    slip of the [except] clause.  The fetch succeeds and the update is
    refused as stale, with status 409; the text of the refusal quotes
    the hash ["9b2e1c404e7b"], which happens to contain "404".  The
    clause, whose comment reads "if file not found or other 404-style
    error, try to create it", cannot tell which call raised and takes
    the refusal for a missing file: one fetch and one update are sent
    as intended, but a create-file request follows and the caller sees
    no error, where the same refusal without "404" in its text is
    raised to the caller (see the example of the refused update
    below). *)
Lemma publish_stale_update_creates :
  let run := deploy_to_github ascii_lower svc_stale token repo_name
                              small_blueprint message branch [] in
  answer_get_contents svc_stale
    [GetRepo token repo_name;
     GetContents (lit "owner/repo") target_path branch] = inr stored
  /\ (exists e, answer_update_file svc_stale (firstn 3 (fst run)) = inl e)
  /\ count is_fetch (fst run) = 1
  /\ count is_update (fst run) = 1
  /\ count is_create (fst run) = 1
  /\ snd run = inr tt
  /\ ~ (count is_create (fst run) = 0 /\ exists e, snd run = inl e).
Proof.
  vm_compute.
  repeat split; try reflexivity.
  - eexists; reflexivity.
  - intros [H _]; discriminate H.
Qed.

Lemma publish_preconditions_no_repo :
  exists e,
    deploy_to_github ascii_lower svc_present token [] small_blueprint
                     message branch [] = ([], inl e)
    /\ (token = [] ->
        MissingCredential e
        /\ e = Exn ValueError (lit "GitHub token is missing"))
    /\ (token <> [] ->
        MissingTarget e
        /\ e = Exn ValueError (lit "Repo name is missing")).
Proof.
  apply (@publish_preconditions ascii_lower svc_present token []
           small_blueprint message branch []).
  right. reflexivity.
Defined.

(** With neither a token nor a repository identifier the error is the
    missing-credential one, not the missing-target one. *)
Lemma publish_both_empty_not_missing_target :
  exists e,
    deploy_to_github ascii_lower svc_present [] [] small_blueprint
                     message branch [] = ([], inl e)
    /\ ~ MissingTarget e.
Proof.
  exists (Exn ValueError (lit "GitHub token is missing")).
  split; [reflexivity|].
  unfold MissingTarget. intros H. discriminate H.
Qed.

(** An outage during the fetch comes back to the caller as it is. *)
Example publish_outage_reraised :
  deploy_to_github ascii_lower svc_outage token repo_name small_blueprint
                   message branch []
  = ([GetRepo token repo_name;
      GetContents (lit "owner/repo") target_path branch],
     inl (Exn RemoteException (lit "500 Internal Server Error"))).
Proof. vm_compute. reflexivity. Qed.

(** A refused update whose text holds neither marker comes back to the
    caller as it is. *)
Example publish_conflict_surfaced :
  deploy_to_github ascii_lower svc_conflict token repo_name small_blueprint
                   message branch []
  = ([GetRepo token repo_name;
      GetContents (lit "owner/repo") target_path branch;
      UpdateFile (lit "owner/repo") target_path message
                 (Json.dumps small_blueprint) (lit "9b2e1c404e7b") branch],
     inl (Exn RemoteException (lit "409 Conflict"))).
Proof. vm_compute. reflexivity. Qed.
End PublisherCases.

(* ================================================================== *)
(** * Further properties of the helpers *)
(* ================================================================== *)

Section GeneratorMore.
Import Chat.

Lemma generate_response_with_key :
  forall (api : endpoint) (api_key model_name : str)
         (messages : list (Dict.dict str)) (w : world),
    api_key <> [] ->
    generate_response api api_key model_name messages w
    = (mkWorld api_key
         (sent w ++ [ChatCompletionCreate api_key model_name messages]),
       match api (sent w
                    ++ [ChatCompletionCreate api_key model_name messages])
       with
       | inl e => inl e
       | inr resp => inr (or_empty (extract_content resp))
       end).
Proof.
  intros api api_key model_name messages w Hkey.
  destruct api_key as [|c api_key]; [contradiction Hkey; reflexivity|].
  unfold generate_response, Effects.bind, set_api_key, ChatCompletion_create.
  cbn [truthy negb openai_api_key sent].
  destruct (api _); reflexivity.
Qed.

(** X1: with a key, [generate_response] stores the key in [openai.api_key]
    and sends exactly one request, which carries that key, the model and
    the messages; an exception of the endpoint comes back unchanged, and
    an answer is turned into the extracted text. *)
Theorem generate_response_one_request :
  forall (api : endpoint) (api_key model_name : str)
         (messages : list (Dict.dict str)) (w : world),
    api_key <> [] ->
    let request := ChatCompletionCreate api_key model_name messages in
    exists out,
      generate_response api api_key model_name messages w
      = (mkWorld api_key (sent w ++ [request]), out)
      /\ (forall e, api (sent w ++ [request]) = inl e -> out = inl e)
      /\ (forall resp, api (sent w ++ [request]) = inr resp ->
          out = inr (or_empty (extract_content resp))).
Proof.
  intros api api_key model_name messages w Hkey request.
  rewrite (generate_response_with_key api api_key model_name messages w Hkey).
  fold request.
  destruct (api (sent w ++ [request])) as [e|resp] eqn:Hapi.
  - exists (inl e). split; [reflexivity|]. split.
    + intros e' H. injection H as <-. reflexivity.
    + intros resp H. discriminate H.
  - exists (inr (or_empty (extract_content resp))).
    split; [reflexivity|]. split.
    + intros e H. discriminate H.
    + intros resp' H. injection H as <-. reflexivity.
Qed.

Lemma generate_response_one_request_chat :
  let request := ChatCompletionCreate Samples.api_key Samples.model
                                      Samples.conversation in
  exists out,
    generate_response Samples.chat_endpoint Samples.api_key Samples.model
                      Samples.conversation Samples.fresh_world
    = (mkWorld Samples.api_key (sent Samples.fresh_world ++ [request]), out)
    /\ (forall e,
           Samples.chat_endpoint (sent Samples.fresh_world ++ [request])
           = inl e -> out = inl e)
    /\ (forall resp,
           Samples.chat_endpoint (sent Samples.fresh_world ++ [request])
           = inr resp -> out = inr (or_empty (extract_content resp))).
Proof.
  apply (generate_response_one_request Samples.chat_endpoint Samples.api_key
           Samples.model Samples.conversation Samples.fresh_world).
  discriminate.
Defined.
End GeneratorMore.

Section PublisherMore.
Import Github.
Variable lower : str -> str.
Variable svc : service.

(** X2: the repository is obtained outside the [try]: when [get_repo]
    fails, its exception comes back unchanged and nothing else is sent,
    also when its text reads as a missing file. *)
Theorem publish_repo_failure :
  forall token repo bp msg br log e,
    token <> [] -> repo <> [] ->
    answer_get_repo svc (log ++ [GetRepo token repo]) = inl e ->
    deploy_to_github lower svc token repo bp msg br log
    = (log ++ [GetRepo token repo], inl e).
Proof.
  intros token repo bp msg br log e Ht Hr Hrepo.
  unfold deploy_to_github.
  rewrite (truthy_nonempty _ Ht), (truthy_nonempty _ Hr). simpl.
  unfold bind at 1. unfold get_repo, send. simpl. rewrite Hrepo.
  reflexivity.
Qed.

Ltac publisher_cases :=
  repeat match goal with
         | |- context [match ?x with inl _ => _ | inr _ => _ end] =>
             destruct x eqn:?
         | |- context [if ?b then _ else _] => destruct b eqn:?
         end.

(** X3: whatever the service answers, the requests one call of the
    publisher sends, after what was sent before, are one of six
    sequences: none at all (a guard failed); [get_repo] alone (it
    failed); [get_repo] and the fetch; these and a create; these and an
    update; or these, an update and a create.  [get_repo] carries the
    caller's token and repository name; the others go to the repository
    [get_repo] returned, the fetch and the create for the target path,
    the update for the path and hash that were fetched, each with the
    caller's branch, and the two writes with the caller's commit
    message and the serialised blueprint. *)
Theorem publish_requests :
  forall token repo bp msg br log,
    exists calls,
      fst (deploy_to_github lower svc token repo bp msg br log)
      = log ++ calls
      /\ (calls = []
          \/ calls = [GetRepo token repo]
          \/ exists r,
               answer_get_repo svc (log ++ [GetRepo token repo]) = inr r
               /\ let fetch := GetContents (full_name r) target_path br in
                  let create :=
                    CreateFile (full_name r) target_path msg
                               (Json.dumps bp) br in
                  calls = [GetRepo token repo; fetch]
                  \/ calls = [GetRepo token repo; fetch; create]
                  \/ exists existing,
                       answer_get_contents svc
                         (log ++ [GetRepo token repo; fetch])
                       = inr existing
                       /\ let update :=
                            UpdateFile (full_name r) (cf_path existing) msg
                                       (Json.dumps bp) (cf_sha existing) br in
                          calls = [GetRepo token repo; fetch; update]
                          \/ calls
                             = [GetRepo token repo; fetch; update; create]).
Proof.
  intros token repo bp msg br log.
  unfold deploy_to_github, bind, try_except, get_repo, get_contents,
    update_file, create_file, send, raise.
  destruct token as [|t token];
    [exists []; cbn; rewrite app_nil_r; split; [reflexivity | left; reflexivity]|].
  destruct repo as [|r0 repo];
    [exists []; cbn; rewrite app_nil_r; split; [reflexivity | left; reflexivity]|].
  cbn [truthy negb client_token].
  destruct (answer_get_repo svc (log ++ [GetRepo (t :: token) (r0 :: repo)]))
    as [e|r] eqn:Hrepo.
  { eexists. split; [reflexivity|]. right. left. reflexivity. }
  destruct (answer_get_contents svc
              ((log ++ [GetRepo (t :: token) (r0 :: repo)])
                 ++ [GetContents (full_name r) target_path br]))
    as [e|existing] eqn:Hfetch.
  - cbn [exn_str].
    destruct (looks_not_found lower (exn_str e)); cbn [fst];
      rewrite <- ?app_assoc; cbn [app];
      (eexists; split; [reflexivity|]); right; right;
      exists r; (split; [reflexivity|]); cbv zeta.
    + right. left. reflexivity.
    + left. reflexivity.
  - rewrite <- app_assoc in Hfetch. cbn [app] in Hfetch.
    destruct (answer_update_file svc _) as [e|u] eqn:Hupdate.
    + destruct (looks_not_found lower (exn_str e)); cbn [fst];
        rewrite <- ?app_assoc; cbn [app];
        (eexists; split; [reflexivity|]); right; right;
        exists r; (split; [reflexivity|]); cbv zeta;
        right; right; exists existing; (split; [exact Hfetch|]).
      * right. reflexivity.
      * left. reflexivity.
    + cbn [fst]. rewrite <- ?app_assoc. cbn [app].
      eexists. split; [reflexivity|]. right. right.
      exists r. split; [reflexivity|]. cbv zeta.
      right. right. exists existing. split; [exact Hfetch|].
      left. reflexivity.
Qed.

(** X4: when the publisher returns without an exception, the last request it
    sent was an update or a create of the serialised blueprint, and the
    service accepted it. *)
Theorem publish_success_means_written :
  forall token repo bp msg br log log' u,
    deploy_to_github lower svc token repo bp msg br log = (log', inr u) ->
    exists before c,
      log' = before ++ [c]
      /\ publisher_request token repo bp msg br c
      /\ ((is_update c = true /\ answer_update_file svc log' = inr u)
          \/ (is_create c = true /\ answer_create_file svc log' = inr u)).
Proof.
  intros token repo bp msg br log log' u.
  unfold deploy_to_github, bind, try_except, get_repo, get_contents,
    update_file, create_file, send, raise.
  destruct token as [|t token]; [discriminate|].
  destruct repo as [|r repo]; [discriminate|].
  cbn [truthy negb full_name cf_path cf_sha client_token exn_str].
  publisher_cases; intros H; try discriminate H;
    injection H as <- <-;
    eexists; eexists; (split; [reflexivity|]);
    (split; [cbn; auto|]); cbn [is_update is_create]; auto.
Qed.
End PublisherMore.

Section PublisherMoreCases.
Import Github Samples.

Lemma publish_repo_failure_no_repo :
  deploy_to_github ascii_lower MoreSamples.svc_no_repo token repo_name
                   small_blueprint message branch []
  = ([] ++ [GetRepo token repo_name],
     inl (Exn RemoteException (lit "404 Not Found"))).
Proof.
  apply (publish_repo_failure ascii_lower MoreSamples.svc_no_repo token
           repo_name small_blueprint message branch []
           (Exn RemoteException (lit "404 Not Found")));
    [discriminate | discriminate | reflexivity].
Defined.

Lemma publish_success_means_written_present :
  exists before c,
    [GetRepo token repo_name;
     GetContents (lit "owner/repo") target_path branch;
     UpdateFile (lit "owner/repo") target_path message
                (Json.dumps small_blueprint) (lit "9b2e1c404e7b") branch]
    = before ++ [c]
    /\ publisher_request token repo_name small_blueprint message branch c
    /\ ((is_update c = true
         /\ answer_update_file svc_present
              [GetRepo token repo_name;
               GetContents (lit "owner/repo") target_path branch;
               UpdateFile (lit "owner/repo") target_path message
                          (Json.dumps small_blueprint)
                          (lit "9b2e1c404e7b") branch] = inr tt)
        \/ (is_create c = true
            /\ answer_create_file svc_present
                 [GetRepo token repo_name;
                  GetContents (lit "owner/repo") target_path branch;
                  UpdateFile (lit "owner/repo") target_path message
                             (Json.dumps small_blueprint)
                             (lit "9b2e1c404e7b") branch] = inr tt)).
Proof.
  apply (publish_success_means_written ascii_lower svc_present token
           repo_name small_blueprint message branch []).
  vm_compute. reflexivity.
Defined.
End PublisherMoreCases.

Section BuilderMore.
Variable lower : str -> str.
Variable fl : flavour.

(** X5: the builder raises nothing of its own.  An exception that
    leaves it is one the system raised at the folder or at a path below
    it: for a status query (of the folder in the guard, of a listed
    path in [is_file]), or for the listing of a directory, unless that
    is a [PermissionError], which the traversal swallows; or it is the
    [RecursionError] of a tree too deep to traverse.  So [relative_to]
    does not fail on what the traversal lists, and what [read_text]
    raises does not leave the builder.  When the builder returns, the
    keys of the mapping are pairwise different. *)
Theorem build_failures :
  forall (fs : filesystem) (folder : Path),
    match build_blueprint_from_folder lower fl fs folder with
    | inr bp => NoDup (Dict.keys bp)
    | inl e =>
        (exists rel, stat_error fs (under folder rel) = Some e)
        \/ (exists rel, scandir_error fs (under folder rel) = Some e
                        /\ is_permission_error e = false)
        \/ e = Exn RecursionError (lit "maximum recursion depth exceeded")
    end.
Proof.
  intros fs folder.
  destruct (build_blueprint_from_folder lower fl fs folder) as [e|bp] eqn:Hrun.
  - apply (build_raises lower fl fs folder e Hrun).
  - apply (build_result_distinct lower fl fs folder bp Hrun).
Qed.

(** X6: nothing gets into the mapping but the text of regular files of the
    tree: every entry is the key of a path the traversal has listed,
    which [is_file] found to be a regular file, with the text
    [read_text] gave for it.  Directories and files that cannot be
    read or decoded never contribute, also in a tree whose names
    collide. *)
Theorem build_entries_are_files :
  forall (fs : filesystem) (folder : Path) (bp : blueprint) (k text : str),
    build_blueprint_from_folder lower fl fs folder = inr bp ->
    In (k, text) bp ->
    exists items p n,
      rglob fs folder = inr items
      /\ In (p, n) items
      /\ is_file fs p n = inr true
      /\ read_text n = inr text
      /\ k = key_of fl folder p.
Proof. exact (build_entry_origin lower fl). Qed.

Lemma universal_newlines_no_cr :
  forall s : str, ~ In 13%N (Utf8.universal_newlines s).
Proof.
  assert (H : forall n (s : str), length s <= n ->
                                  ~ In 13%N (Utf8.universal_newlines s)).
  { induction n as [|n IH]; intros [|c s] Hlen; simpl in *;
      try (intros []); try lia.
    destruct (N.eqb_spec c 13) as [->|Hc].
    - intros [Hin|Hin]; [discriminate Hin|].
      destruct s as [|c' s]; [contradiction|].
      destruct (c' =? 10)%N.
      + apply (IH s); [simpl in Hlen; lia | exact Hin].
      + apply (IH (c' :: s)); [simpl in *; lia | exact Hin].
    - intros [Hin|Hin]; [apply Hc; exact Hin|].
      apply (IH s); [lia | exact Hin]. }
  intros s. apply (H (length s)). apply Nat.le_refl.
Qed.

(** X7: the text stored for a file has its line ends normalised: no value of
    the mapping holds a carriage return. *)
Theorem build_values_have_no_carriage_return :
  forall (fs : filesystem) (folder : Path) (bp : blueprint) (k text : str),
    build_blueprint_from_folder lower fl fs folder = inr bp ->
    In (k, text) bp ->
    ~ In 13%N text.
Proof.
  intros fs folder bp k text Hrun Hin.
  destruct (build_entry_origin lower fl fs folder bp k text Hrun Hin)
    as (items & p & n & _ & _ & _ & Hread & _).
  destruct n as [content [e|]|es]; simpl in Hread; try discriminate Hread.
  destruct (Utf8.decode _) as [s|]; [|discriminate Hread].
  injection Hread as <-. apply universal_newlines_no_cr.
Qed.

(** X8: whatever the builder returns goes through the publisher's
    serialisation unharmed: parsing the serialised mapping gives it
    back. *)
Theorem build_then_serialise :
  forall (fs : filesystem) (folder : Path) (bp : blueprint),
    build_blueprint_from_folder lower fl fs folder = inr bp ->
    Json.loads (Json.dumps bp) = Some (Json.of_blueprint bp).
Proof.
  intros fs folder bp Hrun.
  apply loads_dumps.
  apply (build_result_distinct lower fl fs folder bp Hrun).
Qed.
End BuilderMore.

Section BuilderMoreCases.
Import Samples.

Lemma build_entries_are_files_scenario :
  exists items p n,
    rglob (mount root_dir scenario_tree) root_dir = inr items
    /\ In (p, n) items
    /\ is_file (mount root_dir scenario_tree) p n = inr true
    /\ read_text n = inr (lit "hi")
    /\ lit "root/a.txt" = key_of Posix root_dir p.
Proof.
  apply (build_entries_are_files ascii_lower Posix
           (mount root_dir scenario_tree) root_dir
           [(lit "root/a.txt", lit "hi")] (lit "root/a.txt") (lit "hi")).
  - vm_compute. reflexivity.
  - left. reflexivity.
Defined.

(** A file with Windows line ends is stored with plain newlines. *)
Lemma build_values_have_no_carriage_return_crlf :
  build_blueprint_from_folder ascii_lower Posix
    (mount root_dir MoreSamples.crlf_tree) root_dir
  = inr [(lit "root/notes.txt", [97%N; 10%N; 98%N])]
  /\ ~ In 13%N [97%N; 10%N; 98%N].
Proof.
  split; [vm_compute; reflexivity|].
  apply (build_values_have_no_carriage_return ascii_lower Posix
           (mount root_dir MoreSamples.crlf_tree) root_dir
           [(lit "root/notes.txt", [97%N; 10%N; 98%N])]
           (lit "root/notes.txt") [97%N; 10%N; 98%N]).
  - vm_compute. reflexivity.
  - left. reflexivity.
Defined.

Lemma build_then_serialise_scenario :
  Json.loads (Json.dumps [(lit "root/a.txt", lit "hi")])
  = Some (Json.of_blueprint [(lit "root/a.txt", lit "hi")]).
Proof.
  apply (build_then_serialise ascii_lower Posix
           (mount root_dir scenario_tree) root_dir
           [(lit "root/a.txt", lit "hi")]).
  vm_compute. reflexivity.
Defined.
End BuilderMoreCases.

(* ================================================================== *)
(** * Properties of the page *)
(* ================================================================== *)

Section StripFacts.
Import App.

Lemma lstrip_nil : forall s : str, lstrip s = [] <-> blank s.
Proof.
  unfold blank. induction s as [|c s IH]; simpl.
  - split; reflexivity.
  - destruct (isspace c); simpl; [exact IH|].
    split; discriminate.
Qed.

Lemma lstrip_blank : forall s : str, blank (lstrip s) -> blank s.
Proof.
  unfold blank. induction s as [|c s IH]; simpl; [auto|].
  destruct (isspace c) eqn:E; simpl; [exact IH|].
  rewrite E. simpl. auto.
Qed.

Lemma blank_rev : forall s : str, blank (rev s) <-> blank s.
Proof.
  intros s. unfold blank. rewrite !forallb_forall.
  split; intros H c Hc; apply H; [apply in_rev in Hc | apply in_rev];
    rewrite ?rev_involutive in *; exact Hc.
Qed.

(** Stripping leaves nothing exactly when the text is blank. *)
Lemma strip_nil : forall s : str, strip s = [] <-> blank s.
Proof.
  intros s. unfold strip, rstrip. split.
  - intros H. apply (f_equal (@rev char)) in H.
    rewrite rev_involutive in H. simpl in H.
    apply lstrip_nil in H. apply (proj1 (blank_rev _)) in H.
    apply lstrip_blank. exact H.
  - intros H. apply lstrip_nil in H. rewrite H. reflexivity.
Qed.

(** The test that guards sending: the message is empty or blank. *)
Lemma send_guard :
  forall s : str,
    negb (truthy s) || negb (truthy (strip s)) = true <-> blank s.
Proof.
  intros s. rewrite orb_true_iff, <- strip_nil. split.
  - intros [H|H].
    + destruct s; [reflexivity | discriminate H].
    + destruct (strip s); [reflexivity | discriminate H].
  - intros H. right. rewrite H. reflexivity.
Qed.

Lemma send_guard_false :
  forall s : str,
    negb (truthy s) || negb (truthy (strip s)) = false <-> ~ blank s.
Proof.
  intros s. rewrite <- send_guard.
  destruct (negb (truthy s) || negb (truthy (strip s))); split; intros H;
    try reflexivity; try discriminate.
  contradiction H. reflexivity.
Qed.
End StripFacts.


Section PagePhases.
Import App.
Variable lower : str -> str.
Variable fl : flavour.
Variable fs : filesystem.
Variable api : Chat.endpoint.
Variable svc : Github.service.
Variable script_file : Path.
Variable inp : inputs.

(** An element Streamlit accepts is put on the screen. *)
Lemma emit_put : forall e : element, renders e = true -> emit e = put e.
Proof. intros e H. unfold emit. rewrite H. reflexivity. Qed.

Lemma emit_refused :
  forall (e : element) (w : state),
    renders e = false -> emit e w = (w, inl (Raised unicode_encode_error)).
Proof. intros e w H. unfold emit. rewrite H. reflexivity. Qed.

Ltac emits :=
  repeat match goal with
         | |- context [emit ?e] => rewrite (emit_put e (eq_refl true))
         end.

Lemma bind_put :
  forall (A : Type) (e : element) (k : AppM A) (w : state),
    bind (put e) (fun _ => k) w
    = k (mkState (session w) (screen w ++ [e]) (openai w) (github w)).
Proof. reflexivity. Qed.

Lemma encodable_app :
  forall a b : str, encodable (a ++ b) = encodable a && encodable b.
Proof. intros a b. apply forallb_app. Qed.

Lemma encodable_digits :
  forall u : Decimal.uint, encodable (uint_digits u) = true.
Proof. induction u; simpl; auto. Qed.

Lemma renders_transcript_line :
  forall m : entry,
    renders (transcript_line m)
    = encodable (get_default m (lit "content") []).
Proof.
  intros m. unfold transcript_line.
  destruct (str_eqb _ _); cbn [renders texts forallb];
    rewrite encodable_app, andb_true_r; reflexivity.
Qed.

Lemma renders_failed_request :
  forall e : exn,
    renders (Error (lit "OpenAI request failed: " ++ exn_str e))
    = encodable (exn_str e).
Proof.
  intros e. cbn [renders texts forallb].
  rewrite encodable_app, andb_true_r. reflexivity.
Qed.

Lemma renders_build_report :
  forall n : nat,
    renders (Success (lit "Blueprint built with " ++ decimal n
                        ++ lit " file(s)")) = true.
Proof.
  intros n. cbn [renders texts forallb].
  rewrite !encodable_app. unfold decimal. rewrite encodable_digits.
  reflexivity.
Qed.

Lemma renders_download :
  forall data : str,
    renders (DownloadButton (lit "Download JSON") data
                            (lit "admin_tools_blueprint.json")
                            (lit "application/json"))
    = encodable data.
Proof.
  intros data. cbn [renders texts forallb].
  change (encodable (lit "Download JSON")) with true.
  change (encodable (lit "admin_tools_blueprint.json")) with true.
  change (encodable (lit "application/json")) with true.
  cbn [andb]. rewrite !andb_true_r. reflexivity.
Qed.

Lemma show_message_line :
  forall (m : entry) (w : state),
    showable m ->
    show_message m w
    = (mkState (session w) (screen w ++ [transcript_line m])
               (openai w) (github w), inr tt).
Proof.
  intros m w Hm. unfold showable in Hm.
  rewrite <- renders_transcript_line in Hm.
  unfold show_message. unfold transcript_line in *.
  destruct (str_eqb _ _); rewrite (emit_put _ Hm); reflexivity.
Qed.

(** The transcript: one line per entry of the history, in order. *)
Lemma show_history :
  forall (h : list entry) (w : state),
    Forall showable h ->
    for_each h show_message w
    = (mkState (session w) (screen w ++ map transcript_line h)
               (openai w) (github w), inr tt).
Proof.
  induction h as [|m h IH]; intros w Hh.
  - simpl. rewrite app_nil_r. destruct w. reflexivity.
  - inversion Hh as [|? ? Hm Hh']; subst.
    cbn [for_each]. unfold bind. rewrite (show_message_line _ _ Hm).
    rewrite (IH _ Hh').
    cbn [session screen openai github map].
    rewrite <- app_assoc. reflexivity.
Qed.

Lemma getitem_ok :
  forall (m : entry) (key : str) (w : state),
    Dict.get key m <> None ->
    getitem m key w = (w, inr (get_default m key [])).
Proof.
  intros m key w H. unfold getitem, get_default.
  destruct (Dict.get key m); [reflexivity | contradiction H; reflexivity].
Qed.

(** Preparing the messages never fails on a history whose entries can
    be read. *)
Lemma messages_of_history :
  forall (h : list entry) (w : state),
    Forall entry_ok h ->
    comprehension h
      (fun m =>
         bind (getitem m (lit "role"))
              (fun role =>
                 bind (getitem m (lit "content"))
                      (fun content => ret (chat_entry role content)))) w
    = (w, inr (map as_message h)).
Proof.
  induction h as [|m h IH]; intros w Hok; [reflexivity|].
  inversion Hok as [|? ? [Hrole Hcontent] Hok']; subst.
  cbn [comprehension]. unfold bind at 1. unfold bind at 1.
  rewrite (getitem_ok _ _ _ Hrole). unfold bind at 1.
  rewrite (getitem_ok _ _ _ Hcontent). unfold ret at 1.
  unfold bind at 1. rewrite (IH w Hok'). reflexivity.
Qed.

Lemma chat_entry_ok : forall role content, entry_ok (chat_entry role content).
Proof. intros role content. split; discriminate. Qed.

(** What sending does, once the message and the key are there. *)
Lemma on_send_request :
  forall (h : list entry) (b : option blueprint) (scr : list element)
         (o : Chat.world) (g : list Github.call),
    ~ blank (user_input inp) -> openai_key inp <> [] ->
    Forall entry_ok h ->
    let asked := h ++ [chat_entry (lit "user") (user_input inp)] in
    let request := Chat.ChatCompletionCreate (openai_key inp) (model inp)
                                             (map as_message asked) in
    let o' := Chat.mkWorld (openai_key inp) (Chat.sent o ++ [request]) in
    on_send api inp (mkState (mkSession (Some h) (Some b)) scr o g)
    = match api (Chat.sent o ++ [request]) with
      | inl e =>
          if encodable (exn_str e)
          then (mkState (mkSession (Some asked) (Some b))
                        (scr ++ [Spinner (lit "Generating response...");
                                 Error (lit "OpenAI request failed: "
                                          ++ exn_str e)])
                        o' g, inr tt)
          else (mkState (mkSession (Some asked) (Some b))
                        (scr ++ [Spinner (lit "Generating response...")])
                        o' g, inl (Raised unicode_encode_error))
      | inr resp =>
          (mkState
             (mkSession
                (Some (asked
                         ++ [chat_entry (lit "assistant")
                               (Chat.or_empty (Chat.extract_content resp))]))
                (Some b))
             (scr ++ [Spinner (lit "Generating response...")]) o' g, inr tt)
      end.
Proof.
  intros h b scr o g Hblank Hkey Hok asked request o'.
  unfold on_send.
  rewrite (proj2 (send_guard_false _) Hblank).
  rewrite (truthy_nonempty _ Hkey). cbn [negb].
  unfold bind at 1. unfold append_history at 1, bind at 1.
  cbn [read_history assign_history session ss_history ss_blueprint
       screen openai github].
  fold asked. unfold bind at 1.
  cbn [read_history session ss_history]. unfold bind at 1.
  rewrite messages_of_history
    by (apply Forall_app; split;
        [exact Hok | constructor; [apply chat_entry_ok | constructor]]).
  emits.
  unfold try_except, bind, put, call_openai, append_history, bind.
  cbn [session screen openai github ss_history ss_blueprint].
  rewrite (generate_response_with_key api (openai_key inp) (model inp)
             (map as_message asked) o Hkey).
  fold request. fold o'.
  destruct (api (Chat.sent o ++ [request])) as [e|resp] eqn:Hapi.
  - cbn [failure_str]. unfold emit. rewrite renders_failed_request.
    destruct (encodable (exn_str e)).
    + unfold put.
      cbn [read_history assign_history session ss_history ss_blueprint
           screen openai github].
      rewrite <- app_assoc. reflexivity.
    + reflexivity.
  - cbn [read_history assign_history session ss_history ss_blueprint
         screen openai github].
    reflexivity.
Qed.

Lemma on_send_blank :
  forall (w : state),
    blank (user_input inp) ->
    on_send api inp w
    = (mkState (session w)
               (screen w ++ [Warning
                               (lit "Please enter a message before sending")])
               (openai w) (github w), inr tt).
Proof.
  intros w Hblank. unfold on_send.
  rewrite (proj2 (send_guard _) Hblank). reflexivity.
Qed.

Lemma on_send_without_key :
  forall (w : state),
    ~ blank (user_input inp) -> openai_key inp = [] ->
    on_send api inp w
    = (mkState (session w)
               (screen w ++ [Error
                               (lit "OpenAI API key is required in the sidebar")])
               (openai w) (github w), inr tt).
Proof.
  intros w Hblank Hkey. unfold on_send.
  rewrite (proj2 (send_guard_false _) Hblank), Hkey. reflexivity.
Qed.

(** The chat column up to the send button: the transcript of the
    history as the run found it. *)
Lemma chat_column_shown :
  forall (h : list entry) (b : option blueprint) (scr : list element)
         (o : Chat.world) (g : list Github.call),
    Forall showable h ->
    chat_column api inp (mkState (mkSession (Some h) (Some b)) scr o g)
    = (if send inp then on_send api inp else ret tt)
        (mkState (mkSession (Some h) (Some b))
                 (scr ++ Header (lit "Chat") :: map transcript_line h
                      ++ [TextArea (lit "Message"); Button (lit "Send")])
                 o g).
Proof.
  intros h b scr o g Hh. unfold chat_column. emits.
  rewrite bind_put. unfold bind at 1.
  cbn [read_history session ss_history screen openai github].
  unfold bind at 1. rewrite (show_history _ _ Hh).
  cbn [session screen openai github].
  rewrite !bind_put. cbn [session screen openai github].
  repeat rewrite <- app_assoc. reflexivity.
Qed.

Lemma on_build_effect :
  forall (w : state) (bp : blueprint),
    build_blueprint_from_folder lower fl fs (admin_folder script_file)
    = inr bp ->
    on_build lower fl fs script_file w
    = (mkState (mkSession (ss_history (session w)) (Some (Some bp)))
               (screen w ++ build_report bp) (openai w) (github w), inr tt).
Proof.
  intros w bp Hbuild. unfold on_build, bind, of_result.
  rewrite Hbuild. unfold ret at 1, build_report.
  rewrite (emit_put _ (renders_build_report (length bp))).
  destruct bp as [|kv bp]; emits;
    unfold put, ret, assign_blueprint;
    cbn [session screen openai github ss_history ss_blueprint app];
    rewrite <- ?app_assoc; reflexivity.
Qed.

(** When the builder raises, the block of the build button raises with
    it and changes nothing. *)
Lemma on_build_raises :
  forall (w : state) (e : exn),
    build_blueprint_from_folder lower fl fs (admin_folder script_file)
    = inl e ->
    on_build lower fl fs script_file w = (w, inl (Raised e)).
Proof.
  intros w e Hbuild. unfold on_build, bind, of_result.
  rewrite Hbuild. reflexivity.
Qed.

Lemma preview_shown :
  forall (hs : option (list entry)) (held : option blueprint)
         (scr : list element) (o : Chat.world) (g : list Github.call),
    preview_blueprint (mkState (mkSession hs (Some held)) scr o g)
    = (mkState (mkSession hs (Some held)) (scr ++ preview_of held) o g,
       inr tt).
Proof.
  intros hs held scr o g. unfold preview_blueprint, bind at 1.
  cbn [read_blueprint session ss_blueprint].
  destruct held as [bp|].
  - emits. rewrite bind_put. unfold try_except, preview_of.
    cbv zeta. unfold emit at 1. cbn [renders texts forallb].
    rewrite andb_true_r.
    destruct (encodable (firstn 1000 (dumps_compact bp)));
      unfold put; cbn [session screen openai github];
      rewrite <- app_assoc; reflexivity.
  - unfold ret, preview_of. rewrite app_nil_r. reflexivity.
Qed.

(** The deployment column up to the deploy button. *)
Lemma deployment_column_shown :
  forall (hs : option (list entry)) (held : option blueprint)
         (scr : list element) (o : Chat.world) (g : list Github.call)
         (bp : blueprint),
    (build_clicked inp = true ->
     build_blueprint_from_folder lower fl fs (admin_folder script_file)
     = inr bp) ->
    let held' := if build_clicked inp then Some bp else held in
    deployment_column lower fl fs svc script_file inp
      (mkState (mkSession hs (Some held)) scr o g)
    = (if deploy_clicked inp then on_deploy lower svc inp else ret tt)
        (mkState (mkSession hs (Some held'))
           (scr ++ Header (lit "Deployment")
                :: Button (lit "Build JSON blueprint from admin_tools/")
                :: (if build_clicked inp then build_report bp else [])
                ++ preview_of held'
                ++ [Markdown (lit "---");
                    Button (lit "Deploy blueprint to GitHub")])
           o g).
Proof.
  intros hs held scr o g bp Hbuild held'. unfold deployment_column.
  emits. rewrite !bind_put. unfold bind at 1.
  cbn [session screen openai github]. subst held'.
  destruct (build_clicked inp).
  - rewrite (on_build_effect _ bp (Hbuild eq_refl)).
    cbn [session screen openai github ss_history].
    unfold bind at 1. rewrite preview_shown.
    rewrite !bind_put. cbn [session screen openai github].
    repeat (rewrite <- app_assoc; cbn [app]). reflexivity.
  - unfold ret at 1. unfold bind at 1. rewrite preview_shown.
    rewrite !bind_put. cbn [session screen openai github].
    repeat (rewrite <- app_assoc; cbn [app]). reflexivity.
Qed.

(** The deployment column when the builder raises: the run ends there,
    with the session and the outside world as they were. *)
Lemma deployment_column_raises :
  forall (w : state) (e : exn),
    build_clicked inp = true ->
    build_blueprint_from_folder lower fl fs (admin_folder script_file)
    = inl e ->
    deployment_column lower fl fs svc script_file inp w
    = (mkState (session w)
               (screen w
                  ++ [Header (lit "Deployment");
                      Button (lit "Build JSON blueprint from admin_tools/")])
               (openai w) (github w),
       inl (Raised e)).
Proof.
  intros w e Hclick Hbuild. unfold deployment_column.
  emits. rewrite !bind_put. rewrite Hclick. unfold bind at 1.
  rewrite (on_build_raises _ e Hbuild).
  cbn [session screen openai github].
  rewrite <- app_assoc. reflexivity.
Qed.

Lemma on_deploy_refused :
  forall (w : state),
    github_token inp = [] \/ repo_name inp = [] ->
    on_deploy lower svc inp w
    = (mkState (session w)
               (screen w
                  ++ [Error
                        (lit "Provide GitHub token and repo name in the sidebar")])
               (openai w) (github w), inr tt).
Proof.
  intros w H. unfold on_deploy.
  destruct H as [H|H]; rewrite H; cbn [truthy negb orb];
    rewrite ?orb_true_r; reflexivity.
Qed.

Lemma on_deploy_nothing_built :
  forall (hs : option (list entry)) (scr : list element) (o : Chat.world)
         (g : list Github.call),
    github_token inp <> [] -> repo_name inp <> [] ->
    on_deploy lower svc inp (mkState (mkSession hs (Some None)) scr o g)
    = (mkState (mkSession hs (Some None))
               (scr ++ [Error (lit "Build a blueprint first")]) o g, inr tt).
Proof.
  intros hs scr o g Ht Hr. unfold on_deploy.
  rewrite (truthy_nonempty _ Ht), (truthy_nonempty _ Hr). reflexivity.
Qed.

(** What deploying does, once token, repository and blueprint are
    there: the publisher runs on the blueprint the session holds, and
    its outcome is put on the screen. *)
Lemma on_deploy_publishes :
  forall (hs : option (list entry)) (bp : blueprint) (scr : list element)
         (o : Chat.world) (g : list Github.call),
    github_token inp <> [] -> repo_name inp <> [] ->
    let published :=
      Github.deploy_to_github lower svc (github_token inp) (repo_name inp) bp
        (lit "Automated admin_tools blueprint update") (branch inp) g in
    on_deploy lower svc inp (mkState (mkSession hs (Some (Some bp))) scr o g)
    = match snd published with
      | inr _ =>
          (mkState (mkSession hs (Some (Some bp)))
                   (scr ++ [Spinner (lit "Deploying to GitHub...");
                            Success
                              (lit "Deployed blueprint to GitHub successfully")])
                   o (fst published), inr tt)
      | inl e =>
          if encodable (exn_str e)
          then (mkState (mkSession hs (Some (Some bp)))
                        (scr ++ [Spinner (lit "Deploying to GitHub...");
                                 ExceptionBox (Raised e)])
                        o (fst published), inr tt)
          else (mkState (mkSession hs (Some (Some bp)))
                        (scr ++ [Spinner (lit "Deploying to GitHub...")])
                        o (fst published),
                inl (Raised unicode_encode_error))
      end.
Proof.
  intros hs bp scr o g Ht Hr published. unfold on_deploy.
  rewrite (truthy_nonempty _ Ht), (truthy_nonempty _ Hr).
  cbn [negb orb]. unfold bind at 1.
  cbn [read_blueprint session ss_blueprint].
  emits.
  unfold try_except, bind, put, call_github.
  cbn [session screen openai github]. fold published.
  destruct published as [g' [e|u]]; cbn [fst snd session screen openai github].
  - unfold emit. cbn [renders texts forallb failure_str].
    rewrite andb_true_r.
    destruct (encodable (exn_str e)); [|reflexivity].
    unfold put. cbn [session screen openai github].
    rewrite <- app_assoc. reflexivity.
  - rewrite <- app_assoc. reflexivity.
Qed.

Lemma on_download_effect :
  forall (hs : option (list entry)) (held : option blueprint)
         (scr : list element) (o : Chat.world) (g : list Github.call),
    (forall bp, held = Some bp -> encodable (Json.dumps bp) = true) ->
    on_download (mkState (mkSession hs (Some held)) scr o g)
    = (mkState (mkSession hs (Some held)) (scr ++ [download_offer held]) o g,
       inr tt).
Proof.
  intros hs held scr o g Henc. unfold on_download, bind.
  cbn [read_blueprint session ss_blueprint].
  destruct held as [bp|]; [|reflexivity].
  cbv zeta.
  rewrite (emit_put _ (eq_trans (renders_download (Json.dumps bp))
                                (Henc bp eq_refl))).
  reflexivity.
Qed.

(** Offered a text that cannot be encoded, the download button
    raises. *)
Lemma on_download_raises :
  forall (hs : option (list entry)) (bp : blueprint)
         (scr : list element) (o : Chat.world) (g : list Github.call),
    encodable (Json.dumps bp) = false ->
    on_download (mkState (mkSession hs (Some (Some bp))) scr o g)
    = (mkState (mkSession hs (Some (Some bp))) scr o g,
       inl (Raised unicode_encode_error)).
Proof.
  intros hs bp scr o g Henc. unfold on_download, bind.
  cbn [read_blueprint session ss_blueprint]. cbv zeta.
  apply emit_refused. rewrite renders_download. exact Henc.
Qed.

(** The utility controls. *)
Lemma utility_controls_effect :
  forall (hs : option (list entry)) (held : option blueprint)
         (scr : list element) (o : Chat.world) (g : list Github.call),
    (download_clicked inp = true ->
     forall bp, held = Some bp -> encodable (Json.dumps bp) = true) ->
    utility_controls inp (mkState (mkSession hs (Some held)) scr o g)
    = (mkState
         (mkSession (if clear_clicked inp then Some [] else hs) (Some held))
         (scr ++ Markdown (lit "---") :: Columns [1; 1]
              :: Button (lit "Clear chat")
              :: (if clear_clicked inp
                  then [Success (lit "Chat history cleared")] else [])
              ++ Button (lit "Download blueprint")
              :: (if download_clicked inp
                  then [download_offer held] else []))
         o g, inr tt).
Proof.
  intros hs held scr o g Henc. unfold utility_controls, on_clear.
  emits. rewrite !bind_put. cbn [session screen openai github].
  unfold bind at 1.
  destruct (clear_clicked inp).
  - unfold bind at 1, assign_history at 1.
    cbn [session screen openai github ss_history ss_blueprint].
    unfold put at 1.
    cbn [session screen openai github ss_history ss_blueprint].
    rewrite !bind_put.
    cbn [session screen openai github ss_history ss_blueprint].
    destruct (download_clicked inp).
    + rewrite (on_download_effect _ _ _ _ _ (Henc eq_refl)).
      repeat (rewrite <- app_assoc; cbn [app]). reflexivity.
    + unfold ret. repeat (rewrite <- app_assoc; cbn [app]). reflexivity.
  - unfold ret at 1. rewrite !bind_put.
    cbn [session screen openai github ss_history ss_blueprint].
    destruct (download_clicked inp).
    + rewrite (on_download_effect _ _ _ _ _ (Henc eq_refl)).
      repeat (rewrite <- app_assoc; cbn [app]). reflexivity.
    + unfold ret. repeat (rewrite <- app_assoc; cbn [app]). reflexivity.
Qed.

(** A run is the three columns, started on the defaults of the session
    with the top of the page on the screen. *)
Lemma run_phases :
  forall (w : state),
    run lower fl fs api svc script_file inp w
    = bind (chat_column api inp)
        (fun _ =>
           bind (deployment_column lower fl fs svc script_file inp)
                (fun _ => utility_controls inp))
        (mkState (mkSession (Some (history_of (session w)))
                            (Some (held_blueprint (session w))))
                 page_top (openai w) (github w)).
Proof.
  intros [[hs held] scr o g]. unfold run, script, sidebar.
  cbn [session openai github]. emits.
  rewrite bind_put. cbn [session screen openai github app].
  unfold bind at 1.
  assert (Hdefaults :
            session_defaults
              (mkState (mkSession hs held)
                       [PageConfig (lit "Aphex Architect") (lit "wide")] o g)
            = (mkState (mkSession (Some (history_of (mkSession hs held)))
                                  (Some (held_blueprint (mkSession hs held))))
                       [PageConfig (lit "Aphex Architect") (lit "wide")] o g,
               inr tt)).
  { unfold session_defaults, bind, history_of, held_blueprint.
    destruct hs, held; reflexivity. }
  rewrite Hdefaults. unfold bind at 1.
  rewrite !bind_put. cbn [session screen openai github app].
  unfold bind at 1. cbn [put session screen openai github app].
  rewrite !bind_put. cbn [session screen openai github app].
  reflexivity.
Qed.

Lemma blank_dec :
  forall s : str,
    (forallb isspace s = true /\ blank s)
    \/ (forallb isspace s = false /\ ~ blank s).
Proof.
  intros s. unfold blank. destruct (forallb isspace s); [left | right];
    split; auto; discriminate.
Qed.

(** The chat column, whatever was entered, when nothing cuts it
    short. *)
Lemma chat_column_result :
  forall (h : list entry) (b : option blueprint) (scr : list element)
         (o : Chat.world) (g : list Github.call),
    (send inp = true -> ~ blank (user_input inp) -> openai_key inp <> [] ->
     Forall entry_ok h) ->
    chat_steady api inp (mkState (mkSession (Some h) (Some b)) scr o g) ->
    exists h' o' shown,
      chat_column api inp (mkState (mkSession (Some h) (Some b)) scr o g)
      = (mkState (mkSession (Some h') (Some b))
                 (scr ++ Header (lit "Chat") :: map transcript_line h
                      ++ [TextArea (lit "Message"); Button (lit "Send")]
                      ++ shown)
                 o' g, inr tt)
      /\ send_outcome api inp h o h' o' shown
      /\ (Forall entry_ok h -> Forall entry_ok h').
Proof.
  intros h b scr o g Hread (Hshow & Herr).
  cbn [history_of session ss_history openai] in Hshow, Herr.
  rewrite (chat_column_shown _ _ _ _ _ Hshow). unfold send_outcome.
  destruct (send inp).
  - destruct (blank_dec (user_input inp)) as [[Hb Hblank]|[Hb Hblank]];
      rewrite Hb.
    + rewrite (on_send_blank _ Hblank).
      cbn [session screen openai github].
      exists h, o. eexists.
      split; [|split; [repeat split | exact (fun H => H)]].
      repeat (rewrite <- app_assoc; cbn [app]). reflexivity.
    + destruct (openai_key inp) as [|c key] eqn:Hkey.
      * rewrite (on_send_without_key _ Hblank Hkey).
        cbn [session screen openai github].
        exists h, o. eexists.
        split; [|split; [repeat split | exact (fun H => H)]].
        repeat (rewrite <- app_assoc; cbn [app]). reflexivity.
      * assert (Hkey' : openai_key inp <> []) by (rewrite Hkey; discriminate).
        assert (Hok : Forall entry_ok h)
          by (apply Hread; [reflexivity | exact Hblank | discriminate]).
        rewrite (on_send_request _ _ _ _ _ Hblank Hkey' Hok).
        specialize (Herr eq_refl Hblank ltac:(discriminate)).
        rewrite Hkey in *.
        cbv zeta.
        assert (Hasked :
                  Forall entry_ok
                         (h ++ [chat_entry (lit "user") (user_input inp)]))
          by (apply Forall_app; split;
              [exact Hok | constructor; [apply chat_entry_ok | constructor]]).
        destruct (api _) as [e|resp].
        -- rewrite (Herr e eq_refl).
           exists (h ++ [chat_entry (lit "user") (user_input inp)]).
           eexists. eexists.
           split; [|split; [split; [reflexivity | split; reflexivity]
                           | intros _; exact Hasked]].
           rewrite <- !app_assoc. cbn [app]. rewrite <- !app_assoc.
           reflexivity.
        -- exists ((h ++ [chat_entry (lit "user") (user_input inp)])
                     ++ [chat_entry (lit "assistant")
                           (Chat.or_empty (Chat.extract_content resp))]).
           eexists. eexists.
           split; [|split; [split; [reflexivity | split; reflexivity]|]].
           ++ rewrite <- (app_assoc scr). cbn [app].
              rewrite <- (app_assoc (map transcript_line h)). reflexivity.
           ++ intros _. apply Forall_app; split;
                [exact Hasked | constructor; [apply chat_entry_ok
                                             | constructor]].
  - unfold ret. exists h, o, [].
    split; [rewrite app_nil_r; reflexivity|].
    split; [repeat split | exact (fun H => H)].
Qed.

(** The deploy button, whatever was entered, when the error of a
    deployment that fails can be shown. *)
Lemma deploy_result :
  forall (hs : option (list entry)) (held : option blueprint)
         (scr : list element) (o : Chat.world) (g : list Github.call),
    (deploy_clicked inp = true ->
     github_token inp <> [] -> repo_name inp <> [] ->
     forall bp e,
       held = Some bp ->
       snd (Github.deploy_to_github lower svc (github_token inp)
              (repo_name inp) bp
              (lit "Automated admin_tools blueprint update") (branch inp) g)
       = inl e ->
       encodable (exn_str e) = true) ->
    exists g' shown,
      (if deploy_clicked inp then on_deploy lower svc inp else ret tt)
        (mkState (mkSession hs (Some held)) scr o g)
      = (mkState (mkSession hs (Some held)) (scr ++ shown) o g', inr tt)
      /\ deploy_outcome lower svc inp held g g' shown.
Proof.
  intros hs held scr o g Henc. unfold deploy_outcome.
  destruct (deploy_clicked inp).
  - destruct (github_token inp) as [|t token] eqn:Ht.
    + rewrite (on_deploy_refused _ (or_introl Ht)).
      eexists; eexists; split; [reflexivity | split; reflexivity].
    + destruct (repo_name inp) as [|r repo] eqn:Hr.
      * rewrite (on_deploy_refused _ (or_intror Hr)).
        eexists; eexists; split; [reflexivity | split; reflexivity].
      * assert (Ht' : github_token inp <> []) by (rewrite Ht; discriminate).
        assert (Hr' : repo_name inp <> []) by (rewrite Hr; discriminate).
        destruct held as [bp|].
        -- rewrite (on_deploy_publishes _ _ _ _ _ Ht' Hr').
           specialize (Henc eq_refl ltac:(discriminate) ltac:(discriminate)
                            bp).
           rewrite Ht, Hr in *. cbv zeta.
           destruct (snd (Github.deploy_to_github lower svc (t :: token)
                            (r :: repo) bp
                            (lit "Automated admin_tools blueprint update")
                            (branch inp) g)) as [e|u] eqn:Hpub.
           ++ rewrite (Henc e eq_refl eq_refl).
              eexists; eexists; split; [reflexivity | split; reflexivity].
           ++ eexists; eexists; split; [reflexivity | split; reflexivity].
        -- rewrite (on_deploy_nothing_built _ _ _ _ Ht' Hr').
           eexists; eexists; split; [reflexivity | split; reflexivity].
  - unfold ret. exists g, []. rewrite app_nil_r.
    split; [reflexivity | split; reflexivity].
Qed.

(** What one run comes to when nothing cuts it short: it returns without
    an exception, and its final state is made of what the three columns
    did. *)
Lemma run_result :
  forall (w : state),
    (send inp = true -> ~ blank (user_input inp) -> openai_key inp <> [] ->
     Forall entry_ok (history_of (session w))) ->
    steady lower fl fs api svc script_file inp w ->
    exists bp h1 o1 sent_shown g1 deploy_shown,
      (build_clicked inp = true ->
       build_blueprint_from_folder lower fl fs (admin_folder script_file)
       = inr bp)
      /\ send_outcome api inp (history_of (session w)) (openai w)
                      h1 o1 sent_shown
      /\ (Forall entry_ok (history_of (session w)) -> Forall entry_ok h1)
      /\ deploy_outcome lower svc inp
           (if build_clicked inp then Some bp
            else held_blueprint (session w))
           (github w) g1 deploy_shown
      /\ run lower fl fs api svc script_file inp w
         = (mkState
              (mkSession (if clear_clicked inp then Some [] else Some h1)
                 (Some (if build_clicked inp then Some bp
                        else held_blueprint (session w))))
              ((((page_top
                    ++ Header (lit "Chat")
                    :: map transcript_line (history_of (session w))
                    ++ [TextArea (lit "Message"); Button (lit "Send")]
                    ++ sent_shown)
                   ++ Header (lit "Deployment")
                   :: Button (lit "Build JSON blueprint from admin_tools/")
                   :: (if build_clicked inp then build_report bp else [])
                   ++ preview_of (if build_clicked inp then Some bp
                                  else held_blueprint (session w))
                   ++ [Markdown (lit "---");
                       Button (lit "Deploy blueprint to GitHub")])
                  ++ deploy_shown)
                 ++ Markdown (lit "---") :: Columns [1; 1]
                 :: Button (lit "Clear chat")
                 :: (if clear_clicked inp
                     then [Success (lit "Chat history cleared")] else [])
                 ++ Button (lit "Download blueprint")
                 :: (if download_clicked inp
                     then [download_offer
                             (if build_clicked inp then Some bp
                              else held_blueprint (session w))]
                     else []))
              o1 g1, inr tt).
Proof.
  intros w Hok (Hchat_steady & Hbuilds & Hdeploys & Hdownloads).
  assert (Hbp : exists bp,
             build_clicked inp = true ->
             build_blueprint_from_folder lower fl fs (admin_folder script_file)
             = inr bp).
  { destruct (build_clicked inp).
    - destruct (Hbuilds eq_refl) as (bp & H). exists bp. intros _. exact H.
    - exists []. discriminate. }
  destruct Hbp as (bp & Hbuild).
  assert (Hheld : forall bp',
             (if build_clicked inp then Some bp
              else held_blueprint (session w)) = Some bp' ->
             if build_clicked inp
             then build_blueprint_from_folder lower fl fs
                    (admin_folder script_file) = inr bp'
             else held_blueprint (session w) = Some bp').
  { intros bp' H. destruct (build_clicked inp).
    - injection H as <-. apply Hbuild. reflexivity.
    - exact H. }
  destruct (chat_column_result (history_of (session w))
              (held_blueprint (session w)) page_top (openai w) (github w)
              Hok Hchat_steady)
    as (h1 & o1 & sent_shown & Hchat & Hsend & Hok1).
  destruct (deploy_result (Some h1)
              (if build_clicked inp then Some bp
               else held_blueprint (session w))
              ((page_top
                  ++ Header (lit "Chat")
                  :: map transcript_line (history_of (session w))
                  ++ [TextArea (lit "Message"); Button (lit "Send")]
                  ++ sent_shown)
                 ++ Header (lit "Deployment")
                 :: Button (lit "Build JSON blueprint from admin_tools/")
                 :: (if build_clicked inp then build_report bp else [])
                 ++ preview_of (if build_clicked inp then Some bp
                                else held_blueprint (session w))
                 ++ [Markdown (lit "---");
                     Button (lit "Deploy blueprint to GitHub")])
              o1 (github w))
    as (g1 & deploy_shown & Hdeploy & Hout).
  { intros Hd Ht Hr bp' e Hbp' He.
    apply (Hdeploys Hd Ht Hr bp' e (Hheld bp' Hbp') He). }
  exists bp, h1, o1, sent_shown, g1, deploy_shown.
  split; [exact Hbuild|]. split; [exact Hsend|].
  split; [exact Hok1|]. split; [exact Hout|].
  rewrite run_phases. unfold bind at 1. rewrite Hchat.
  unfold bind at 1.
  rewrite (deployment_column_shown _ _ _ _ _ bp Hbuild).
  cbv zeta. rewrite Hdeploy.
  rewrite utility_controls_effect.
  - destruct (clear_clicked inp); reflexivity.
  - intros Hd bp' Hbp'. apply (Hdownloads Hd bp' (Hheld bp' Hbp')).
Qed.

(** ** What a run leaves behind, however it ends *)

Lemma show_history_shape :
  forall (h : list entry) (w : state),
    exists scr' r,
      for_each h show_message w
      = (mkState (session w) scr' (openai w) (github w), r)
      /\ ~ lookup_failure r.
Proof.
  induction h as [|m h IH]; intros w.
  - exists (screen w), (inr tt). destruct w. split; [reflexivity | intros []].
  - cbn [for_each]. unfold bind.
    assert (Hm : show_message m w
                 = emit (transcript_line m) w).
    { unfold show_message, transcript_line. destruct (str_eqb _ _);
        reflexivity. }
    rewrite Hm. unfold emit.
    destruct (renders (transcript_line m)).
    + unfold put.
      destruct (IH (mkState (session w) (screen w ++ [transcript_line m])
                            (openai w) (github w)))
        as (scr' & r & Heq & Hr).
      rewrite Heq. cbn [session screen openai github].
      exists scr', r. split; [reflexivity | exact Hr].
    + exists (screen w), (inl (Raised unicode_encode_error)).
      destruct w. split; [reflexivity | intros []].
Qed.

(** The chat column leaves the blueprint and what was sent to GitHub
    alone and fails in no look-up; unless a message is sent, it leaves
    the history and the model's world alone as well. *)
Lemma chat_column_shape :
  forall (h : list entry) (b : option blueprint) (scr : list element)
         (o : Chat.world) (g : list Github.call),
    (send inp = true -> ~ blank (user_input inp) -> openai_key inp <> [] ->
     Forall entry_ok h) ->
    exists h' scr' o' r,
      chat_column api inp (mkState (mkSession (Some h) (Some b)) scr o g)
      = (mkState (mkSession (Some h') (Some b)) scr' o' g, r)
      /\ ~ lookup_failure r
      /\ (Forall entry_ok h -> Forall entry_ok h')
      /\ (send inp = false \/ blank (user_input inp) \/ openai_key inp = [] ->
          h' = h /\ o' = o).
Proof.
  intros h b scr o g Hread. unfold chat_column. emits.
  rewrite bind_put. unfold bind at 1.
  cbn [read_history session ss_history screen openai github].
  unfold bind at 1.
  destruct (show_history_shape h
              (mkState (mkSession (Some h) (Some b))
                       (scr ++ [Header (lit "Chat")]) o g))
    as (scr1 & r1 & Heq & Hr1).
  rewrite Heq. cbn [session screen openai github].
  destruct r1 as [f|[]].
  { exists h, scr1, o, (inl f).
    split; [reflexivity|]. split; [exact Hr1|].
    split; [exact (fun H => H) | intros _; split; reflexivity]. }
  rewrite !bind_put. cbn [session screen openai github].
  destruct (send inp).
  - destruct (blank_dec (user_input inp)) as [[Hb Hblank]|[Hb Hblank]].
    + rewrite (on_send_blank _ Hblank). cbn [session screen openai github].
      eexists h, _, o, (inr tt).
      split; [reflexivity|]. split; [intros []|].
      split; [exact (fun H => H) | intros _; split; reflexivity].
    + destruct (openai_key inp) as [|c key] eqn:Hkey.
      * rewrite (on_send_without_key _ Hblank Hkey).
        cbn [session screen openai github].
        eexists h, _, o, (inr tt).
        split; [reflexivity|]. split; [intros []|].
        split; [exact (fun H => H) | intros _; split; reflexivity].
      * assert (Hkey' : openai_key inp <> []) by (rewrite Hkey; discriminate).
        assert (Hok : Forall entry_ok h)
          by (apply Hread; [reflexivity | exact Hblank | discriminate]).
        rewrite (on_send_request _ _ _ _ _ Hblank Hkey' Hok).
        cbv zeta.
        assert (Hasked :
                  Forall entry_ok
                         (h ++ [chat_entry (lit "user") (user_input inp)]))
          by (apply Forall_app; split;
              [exact Hok | constructor; [apply chat_entry_ok | constructor]]).
        destruct (api _) as [e|resp].
        -- destruct (encodable (exn_str e)).
           ++ eexists _, _, _, (inr tt).
              split; [reflexivity|]. split; [intros []|].
              split; [intros _; exact Hasked|].
              intros [H|[H|H]]; [discriminate H | contradiction
                                 | discriminate H].
           ++ eexists _, _, _, (inl (Raised unicode_encode_error)).
              split; [reflexivity|]. split; [intros []|].
              split; [intros _; exact Hasked|].
              intros [H|[H|H]]; [discriminate H | contradiction
                                 | discriminate H].
        -- eexists _, _, _, (inr tt).
           split; [reflexivity|]. split; [intros []|].
           split.
           ++ intros _. apply Forall_app; split;
                [exact Hasked | constructor; [apply chat_entry_ok
                                             | constructor]].
           ++ intros [H|[H|H]]; [discriminate H | contradiction
                                 | discriminate H].
  - unfold ret. eexists h, _, o, (inr tt).
    split; [reflexivity|]. split; [intros []|].
    split; [exact (fun H => H) | intros _; split; reflexivity].
Qed.

(** The deploy button leaves everything but the screen and what was
    sent to GitHub alone, and fails in no look-up; it sends nothing
    unless token, repository and blueprint are there. *)
Lemma deploy_shape :
  forall (hs : option (list entry)) (held : option blueprint)
         (scr : list element) (o : Chat.world) (g : list Github.call),
    exists scr' g' r,
      (if deploy_clicked inp then on_deploy lower svc inp else ret tt)
        (mkState (mkSession hs (Some held)) scr o g)
      = (mkState (mkSession hs (Some held)) scr' o g', r)
      /\ ~ lookup_failure r
      /\ (deploy_clicked inp = false \/ github_token inp = []
          \/ repo_name inp = [] \/ held = None -> g' = g).
Proof.
  intros hs held scr o g.
  destruct (deploy_clicked inp).
  - destruct (github_token inp) as [|t token] eqn:Ht.
    + rewrite (on_deploy_refused _ (or_introl Ht)).
      eexists _, g, (inr tt). split; [reflexivity|].
      split; [intros [] | reflexivity].
    + destruct (repo_name inp) as [|r0 repo] eqn:Hr.
      * rewrite (on_deploy_refused _ (or_intror Hr)).
        eexists _, g, (inr tt). split; [reflexivity|].
        split; [intros [] | reflexivity].
      * assert (Ht' : github_token inp <> []) by (rewrite Ht; discriminate).
        assert (Hr' : repo_name inp <> []) by (rewrite Hr; discriminate).
        destruct held as [bp|].
        -- rewrite (on_deploy_publishes _ _ _ _ _ Ht' Hr'). cbv zeta.
           destruct (snd (Github.deploy_to_github _ _ _ _ _ _ _ _))
             as [e|u];
             [destruct (encodable (exn_str e))|];
             (eexists _, _, _; split; [reflexivity|];
              split; [intros []|]);
             intros [H|[H|[H|H]]]; discriminate H.
        -- rewrite (on_deploy_nothing_built _ _ _ _ Ht' Hr').
           eexists _, g, (inr tt). split; [reflexivity|].
           split; [intros [] | reflexivity].
  - unfold ret. exists scr, g, (inr tt). split; [reflexivity|].
    split; [intros [] | reflexivity].
Qed.

(** The deployment column leaves the history and the model's world
    alone and fails in no look-up; the blueprint it leaves is the one
    it found or the one the builder returned. *)
Lemma deployment_column_shape :
  forall (hs : option (list entry)) (held : option blueprint)
         (scr : list element) (o : Chat.world) (g : list Github.call),
    exists held' scr' g' r,
      deployment_column lower fl fs svc script_file inp
        (mkState (mkSession hs (Some held)) scr o g)
      = (mkState (mkSession hs (Some held')) scr' o g', r)
      /\ ~ lookup_failure r
      /\ (build_clicked inp = false -> held' = held)
      /\ (held' = held
          \/ exists bp,
               build_blueprint_from_folder lower fl fs
                 (admin_folder script_file) = inr bp
               /\ held' = Some bp)
      /\ (deploy_clicked inp = false \/ github_token inp = []
          \/ repo_name inp = [] \/ held' = None -> g' = g).
Proof.
  intros hs held scr o g.
  destruct (build_clicked inp) eqn:Hclick.
  - destruct (build_blueprint_from_folder lower fl fs
                (admin_folder script_file)) as [e|bp] eqn:Hbuild.
    + rewrite (deployment_column_raises _ e Hclick Hbuild).
      cbn [session screen openai github].
      eexists held, _, g, (inl (Raised e)).
      split; [reflexivity|]. split; [intros []|].
      split; [reflexivity|]. split; [left; reflexivity | reflexivity].
    + rewrite (deployment_column_shown _ _ _ _ _ bp (fun _ => Hbuild)).
      cbv zeta. rewrite Hclick.
      destruct (deploy_shape hs (Some bp)
                  (scr ++ Header (lit "Deployment")
                       :: Button (lit "Build JSON blueprint from admin_tools/")
                       :: build_report bp
                       ++ preview_of (Some bp)
                       ++ [Markdown (lit "---");
                           Button (lit "Deploy blueprint to GitHub")])
                  o g) as (scr' & g' & r & Heq & Hr & Hg).
      rewrite Heq. exists (Some bp), scr', g', r.
      split; [reflexivity|]. split; [exact Hr|].
      split; [discriminate|].
      split; [right; exists bp; split; reflexivity | exact Hg].
  - rewrite (deployment_column_shown _ _ _ _ _ []
               ltac:(rewrite Hclick; discriminate)).
    cbv zeta. rewrite Hclick.
    destruct (deploy_shape hs held
                (scr ++ Header (lit "Deployment")
                     :: Button (lit "Build JSON blueprint from admin_tools/")
                     :: []
                     ++ preview_of held
                     ++ [Markdown (lit "---");
                         Button (lit "Deploy blueprint to GitHub")])
                o g) as (scr' & g' & r & Heq & Hr & Hg).
    rewrite Heq. exists held, scr', g', r.
    split; [reflexivity|]. split; [exact Hr|].
    split; [reflexivity|]. split; [left; reflexivity | exact Hg].
Qed.

(** The utility controls leave the blueprint and the outside world
    alone and fail in no look-up; the history they leave is the one
    they found or the empty one. *)
Lemma utility_controls_shape :
  forall (hs : option (list entry)) (held : option blueprint)
         (scr : list element) (o : Chat.world) (g : list Github.call),
    exists hs' scr' r,
      utility_controls inp (mkState (mkSession hs (Some held)) scr o g)
      = (mkState (mkSession hs' (Some held)) scr' o g, r)
      /\ ~ lookup_failure r
      /\ (hs' = hs \/ (clear_clicked inp = true /\ hs' = Some [])).
Proof.
  intros hs held scr o g.
  destruct (download_clicked inp) eqn:Hd.
  - destruct held as [bp|].
    + destruct (encodable (Json.dumps bp)) eqn:Henc.
      * rewrite utility_controls_effect
          by (intros _ bp' H; injection H as <-; exact Henc).
        eexists _, _, (inr tt). split; [reflexivity|].
        split; [intros []|].
        destruct (clear_clicked inp); [right; split | left]; reflexivity.
      * unfold utility_controls, on_clear. emits.
        rewrite !bind_put. cbn [session screen openai github].
        unfold bind at 1. rewrite Hd.
        destruct (clear_clicked inp).
        -- unfold bind at 1, assign_history at 1.
           cbn [session screen openai github ss_history ss_blueprint].
           unfold put at 1.
           cbn [session screen openai github ss_history ss_blueprint].
           rewrite !bind_put.
           cbn [session screen openai github ss_history ss_blueprint].
           rewrite (on_download_raises _ _ _ _ _ Henc).
           eexists _, _, _. split; [reflexivity|].
           split; [intros [] | right; split; reflexivity].
        -- unfold ret at 1. rewrite !bind_put.
           cbn [session screen openai github ss_history ss_blueprint].
           rewrite (on_download_raises _ _ _ _ _ Henc).
           eexists _, _, _. split; [reflexivity|].
           split; [intros [] | left; reflexivity].
    + rewrite utility_controls_effect by (intros _ bp' H; discriminate H).
      eexists _, _, (inr tt). split; [reflexivity|].
      split; [intros []|].
      destruct (clear_clicked inp); [right; split | left]; reflexivity.
  - rewrite utility_controls_effect by (rewrite Hd; discriminate).
    eexists _, _, (inr tt). split; [reflexivity|].
    split; [intros []|].
    destruct (clear_clicked inp); [right; split | left]; reflexivity.
Qed.

(** What a run leaves behind, however it ends: the session is
    initialised; the run has failed in no look-up; the history can
    still be read; the blueprint is the one the run found or the one
    the builder returned, and it is the one it found unless Build was
    clicked; nothing has gone to the model unless a message was sent,
    and nothing to GitHub unless there was something to deploy. *)
Lemma run_shape :
  forall (w : state),
    (send inp = true -> ~ blank (user_input inp) -> openai_key inp <> [] ->
     Forall entry_ok (history_of (session w))) ->
    exists h' held' scr' o' g' r,
      run lower fl fs api svc script_file inp w
      = (mkState (mkSession (Some h') (Some held')) scr' o' g', r)
      /\ ~ lookup_failure r
      /\ (Forall entry_ok (history_of (session w)) -> Forall entry_ok h')
      /\ (send inp = false \/ blank (user_input inp) \/ openai_key inp = [] ->
          o' = openai w
          /\ (h' = history_of (session w)
              \/ (clear_clicked inp = true /\ h' = [])))
      /\ (build_clicked inp = false -> held' = held_blueprint (session w))
      /\ (held' = held_blueprint (session w)
          \/ exists bp,
               build_blueprint_from_folder lower fl fs
                 (admin_folder script_file) = inr bp
               /\ held' = Some bp)
      /\ (deploy_clicked inp = false \/ github_token inp = []
          \/ repo_name inp = []
          \/ (build_clicked inp = false
              /\ held_blueprint (session w) = None) ->
          g' = github w).
Proof.
  intros w Hread. rewrite run_phases.
  destruct (chat_column_shape (history_of (session w))
              (held_blueprint (session w)) page_top (openai w) (github w)
              Hread)
    as (h1 & scr1 & o1 & r1 & Hchat & Hr1 & Hok1 & Hquiet1).
  unfold bind at 1. rewrite Hchat.
  destruct r1 as [f|[]].
  { exists h1, (held_blueprint (session w)), scr1, o1, (github w), (inl f).
    split; [reflexivity|]. split; [exact Hr1|]. split; [exact Hok1|].
    split; [intros H; destruct (Hquiet1 H) as (-> & ->);
            split; [reflexivity | left; reflexivity]|].
    split; [reflexivity|]. split; [left; reflexivity | reflexivity]. }
  destruct (deployment_column_shape (Some h1) (held_blueprint (session w))
              scr1 o1 (github w))
    as (held2 & scr2 & g2 & r2 & Hdep & Hr2 & Hsame2 & Hfrom2 & Hquiet2).
  unfold bind at 1. rewrite Hdep.
  assert (Hg : deploy_clicked inp = false \/ github_token inp = []
               \/ repo_name inp = []
               \/ (build_clicked inp = false
                   /\ held_blueprint (session w) = None) ->
               g2 = github w).
  { intros [H|[H|[H|[Hb H]]]]; apply Hquiet2; auto.
    right. right. right. rewrite (Hsame2 Hb). exact H. }
  destruct r2 as [f|[]].
  { exists h1, held2, scr2, o1, g2, (inl f).
    split; [reflexivity|]. split; [exact Hr2|]. split; [exact Hok1|].
    split; [intros H; destruct (Hquiet1 H) as (-> & ->);
            split; [reflexivity | left; reflexivity]|].
    split; [exact Hsame2|]. split; [exact Hfrom2 | exact Hg]. }
  destruct (utility_controls_shape (Some h1) held2 scr2 o1 g2)
    as (hs3 & scr3 & r3 & Hut & Hr3 & Hhs3).
  rewrite Hut.
  assert (Hh3 : exists h3, hs3 = Some h3
                           /\ (Forall entry_ok (history_of (session w)) ->
                               Forall entry_ok h3)
                           /\ (h3 = h1
                               \/ (clear_clicked inp = true /\ h3 = []))).
  { destruct Hhs3 as [->|(Hc & ->)].
    - exists h1. split; [reflexivity|].
      split; [exact Hok1 | left; reflexivity].
    - exists []. split; [reflexivity|].
      split; [intros _; constructor | right; split; [exact Hc|reflexivity]]. }
  destruct Hh3 as (h3 & -> & Hok3 & Hfrom3).
  exists h3, held2, scr3, o1, g2, r3.
  split; [reflexivity|]. split; [exact Hr3|]. split; [exact Hok3|].
  split; [intros H; destruct (Hquiet1 H) as (Hh1 & ->);
          split; [reflexivity|]; rewrite <- Hh1; exact Hfrom3|].
  split; [exact Hsame2|]. split; [exact Hfrom2 | exact Hg].
Qed.
(** ** Where a run is cut short *)

Lemma show_message_refused :
  forall (m : entry) (w : state),
    encodable (get_default m (lit "content") []) = false ->
    show_message m w = (w, inl (Raised unicode_encode_error)).
Proof.
  intros m w Hm. rewrite <- renders_transcript_line in Hm.
  unfold show_message. unfold transcript_line in Hm.
  destruct (str_eqb _ _); rewrite (emit_refused _ _ Hm); reflexivity.
Qed.

(** The transcript stops at the first entry that cannot be shown. *)
Lemma show_history_stops :
  forall (h1 : list entry) (m : entry) (h2 : list entry) (w : state),
    Forall showable h1 ->
    encodable (get_default m (lit "content") []) = false ->
    for_each (h1 ++ m :: h2) show_message w
    = (mkState (session w) (screen w ++ map transcript_line h1)
               (openai w) (github w),
       inl (Raised unicode_encode_error)).
Proof.
  induction h1 as [|m1 h1 IH]; intros m h2 w Hh Hm.
  - cbn [app for_each map]. unfold bind.
    rewrite (show_message_refused _ _ Hm). rewrite app_nil_r.
    destruct w. reflexivity.
  - inversion Hh as [|? ? Hm1 Hh']; subst.
    cbn [app for_each]. unfold bind. rewrite (show_message_line _ _ Hm1).
    rewrite (IH m h2 _ Hh' Hm).
    cbn [session screen openai github map].
    rewrite <- app_assoc. reflexivity.
Qed.

Lemma chat_column_stops :
  forall (h1 : list entry) (m : entry) (h2 : list entry)
         (b : option blueprint) (scr : list element)
         (o : Chat.world) (g : list Github.call),
    Forall showable h1 ->
    encodable (get_default m (lit "content") []) = false ->
    chat_column api inp
      (mkState (mkSession (Some (h1 ++ m :: h2)) (Some b)) scr o g)
    = (mkState (mkSession (Some (h1 ++ m :: h2)) (Some b))
               (scr ++ Header (lit "Chat") :: map transcript_line h1) o g,
       inl (Raised unicode_encode_error)).
Proof.
  intros h1 m h2 b scr o g Hh Hm. unfold chat_column. emits.
  rewrite bind_put. unfold bind at 1.
  cbn [read_history session ss_history screen openai github].
  unfold bind at 1. rewrite (show_history_stops _ _ _ _ Hh Hm).
  cbn [session screen openai github].
  rewrite <- app_assoc. reflexivity.
Qed.

(** The download button with a text that cannot be encoded: the run
    stops there, after Clear has done its work. *)
Lemma utility_controls_raises :
  forall (hs : option (list entry)) (bp : blueprint)
         (scr : list element) (o : Chat.world) (g : list Github.call),
    download_clicked inp = true ->
    encodable (Json.dumps bp) = false ->
    utility_controls inp (mkState (mkSession hs (Some (Some bp))) scr o g)
    = (mkState
         (mkSession (if clear_clicked inp then Some [] else hs)
                    (Some (Some bp)))
         (scr ++ Markdown (lit "---") :: Columns [1; 1]
              :: Button (lit "Clear chat")
              :: (if clear_clicked inp
                  then [Success (lit "Chat history cleared")] else [])
              ++ [Button (lit "Download blueprint")])
         o g, inl (Raised unicode_encode_error)).
Proof.
  intros hs bp scr o g Hd Henc.
  unfold utility_controls, on_clear. emits.
  rewrite !bind_put. cbn [session screen openai github].
  unfold bind at 1. rewrite Hd.
  destruct (clear_clicked inp).
  - unfold bind at 1, assign_history at 1.
    cbn [session screen openai github ss_history ss_blueprint].
    unfold put at 1.
    cbn [session screen openai github ss_history ss_blueprint].
    rewrite !bind_put.
    cbn [session screen openai github ss_history ss_blueprint].
    rewrite (on_download_raises _ _ _ _ _ Henc).
    repeat rewrite <- app_assoc. reflexivity.
  - unfold ret at 1. rewrite !bind_put.
    cbn [session screen openai github ss_history ss_blueprint].
    rewrite (on_download_raises _ _ _ _ _ Henc).
    repeat rewrite <- app_assoc. reflexivity.
Qed.

End PagePhases.


(* ------------------------------------------------------------------ *)
(** ** What a run of the page does *)

Section PageRuns.
Import App.

Ltac on_screen :=
  lazymatch goal with
  | |- In _ (_ ++ _) =>
      apply in_or_app; first [left; on_screen | right; on_screen]
  | |- In _ (_ :: _) => first [left; reflexivity | right; on_screen]
  end.

Ltac screen_cases H :=
  lazymatch type of H with
  | In _ (_ ++ _) =>
      apply in_app_or in H; destruct H as [H|H];
      [screen_cases H | screen_cases H]
  | In _ (_ :: _) =>
      destruct H as [H|H]; [try discriminate H | screen_cases H]
  | In _ [] => destruct H
  | In _ (if ?b then _ else _) => destruct b; screen_cases H
  | In _ (match ?x with _ => _ end) => destruct x; screen_cases H
  | _ => idtac
  end.

(** The send block when it does send. *)
Lemma send_outcome_sent :
  forall (api : Chat.endpoint) (inp : inputs) (h h' : list entry)
         (o o' : Chat.world) (shown : list element),
    send inp = true -> ~ blank (user_input inp) -> openai_key inp <> [] ->
    send_outcome api inp h o h' o' shown ->
    let asked := h ++ [chat_entry (lit "user") (user_input inp)] in
    let request :=
      Chat.ChatCompletionCreate (openai_key inp) (model inp)
                                (map as_message asked) in
    o' = Chat.mkWorld (openai_key inp) (Chat.sent o ++ [request])
    /\ match api (Chat.sent o ++ [request]) with
       | inl e =>
           h' = asked
           /\ shown
              = [Spinner (lit "Generating response...");
                 Error (lit "OpenAI request failed: " ++ exn_str e)]
       | inr resp =>
           h' = asked
                  ++ [chat_entry (lit "assistant")
                        (Chat.or_empty (Chat.extract_content resp))]
           /\ shown = [Spinner (lit "Generating response...")]
       end.
Proof.
  intros api inp h h' o o' shown Hs Hb Hk Hout.
  unfold send_outcome in Hout. rewrite Hs in Hout.
  destruct (blank_dec (user_input inp)) as [[_ Hblank]|[Hf _]];
    [contradiction|].
  rewrite Hf in Hout.
  destruct (openai_key inp) as [|c key]; [contradiction Hk; reflexivity|].
  exact Hout.
Qed.

(** The send block when it does not send. *)
Lemma send_outcome_quiet :
  forall (api : Chat.endpoint) (inp : inputs) (h h' : list entry)
         (o o' : Chat.world) (shown : list element),
    send inp = false \/ blank (user_input inp) \/ openai_key inp = [] ->
    send_outcome api inp h o h' o' shown ->
    h' = h /\ o' = o
    /\ (send inp = true -> blank (user_input inp) ->
        shown = [Warning (lit "Please enter a message before sending")])
    /\ (send inp = true -> ~ blank (user_input inp) ->
        shown = [Error (lit "OpenAI API key is required in the sidebar")]).
Proof.
  intros api inp h h' o o' shown Hquiet Hsend.
  unfold send_outcome in Hsend.
  destruct (send inp).
  - destruct (blank_dec (user_input inp)) as [[Hb Hblank]|[Hb Hblank]];
      rewrite Hb in Hsend.
    + destruct Hsend as (-> & -> & ->).
      split; [reflexivity|]. split; [reflexivity|]. split.
      * reflexivity.
      * intros _ H. contradiction.
    + destruct (openai_key inp) as [|c key] eqn:Hkey.
      * destruct Hsend as (-> & -> & ->).
        split; [reflexivity|]. split; [reflexivity|]. split.
        -- intros _ H. contradiction.
        -- reflexivity.
      * destruct Hquiet as [H|[H|H]];
          [discriminate H | contradiction | discriminate H].
  - destruct Hsend as (-> & -> & ->).
    split; [reflexivity|]. split; [reflexivity|].
    split; intros H; discriminate H.
Qed.

(** Neither the send block nor the deploy block writes markdown or the
    warning of the build block. *)
Lemma send_outcome_no_markdown :
  forall (api : Chat.endpoint) (inp : inputs) (h h' : list entry)
         (o o' : Chat.world) (shown : list element) (t : str),
    send_outcome api inp h o h' o' shown -> ~ In (Markdown t) shown.
Proof.
  intros api inp h h' o o' shown t Hout Hin.
  unfold send_outcome in Hout.
  destruct (send inp).
  - destruct (forallb isspace (user_input inp)).
    + destruct Hout as (_ & _ & ->). screen_cases Hin.
    + destruct (openai_key inp).
      * destruct Hout as (_ & _ & ->). screen_cases Hin.
      * destruct Hout as (_ & Hout).
        destruct (api _); destruct Hout as (_ & ->); screen_cases Hin.
  - destruct Hout as (_ & _ & ->). screen_cases Hin.
Qed.

Lemma send_outcome_no_build_warning :
  forall (api : Chat.endpoint) (inp : inputs) (h h' : list entry)
         (o o' : Chat.world) (shown : list element),
    send_outcome api inp h o h' o' shown ->
    ~ In (Warning
            (lit "No files found under admin_tools/. The blueprint will be empty"))
         shown.
Proof.
  intros api inp h h' o o' shown Hout Hin.
  unfold send_outcome in Hout.
  destruct (send inp).
  - destruct (forallb isspace (user_input inp)).
    + destruct Hout as (_ & _ & ->). screen_cases Hin.
    + destruct (openai_key inp).
      * destruct Hout as (_ & _ & ->). screen_cases Hin.
      * destruct Hout as (_ & Hout).
        destruct (api _); destruct Hout as (_ & ->); screen_cases Hin.
  - destruct Hout as (_ & _ & ->). screen_cases Hin.
Qed.

Lemma deploy_outcome_no_markdown :
  forall (lower : str -> str) (svc : Github.service) (inp : inputs)
         (held : option blueprint) (g g' : list Github.call)
         (shown : list element) (t : str),
    deploy_outcome lower svc inp held g g' shown -> ~ In (Markdown t) shown.
Proof.
  intros lower svc inp held g g' shown t Hout Hin.
  unfold deploy_outcome in Hout.
  destruct (deploy_clicked inp).
  - destruct (github_token inp); [|destruct (repo_name inp);
                                   [|destruct held]];
      destruct Hout as (_ & ->); screen_cases Hin.
    destruct (snd _); discriminate Hin.
  - destruct Hout as (_ & ->). screen_cases Hin.
Qed.

Lemma deploy_outcome_no_warning :
  forall (lower : str -> str) (svc : Github.service) (inp : inputs)
         (held : option blueprint) (g g' : list Github.call)
         (shown : list element) (t : str),
    deploy_outcome lower svc inp held g g' shown -> ~ In (Warning t) shown.
Proof.
  intros lower svc inp held g g' shown t Hout Hin.
  unfold deploy_outcome in Hout.
  destruct (deploy_clicked inp).
  - destruct (github_token inp); [|destruct (repo_name inp);
                                   [|destruct held]];
      destruct Hout as (_ & ->); screen_cases Hin.
    destruct (snd _); discriminate Hin.
  - destruct Hout as (_ & ->). screen_cases Hin.
Qed.

(** The preview writes one line of markdown, the caption, and no
    warning. *)
Lemma preview_markdown :
  forall (held : option blueprint) (t : str),
    In (Markdown t) (preview_of held) ->
    t = lit "Blueprint preview (first 1k chars of JSON)".
Proof.
  intros [bp|] t Hin; [|destruct Hin].
  unfold preview_of in Hin.
  destruct Hin as [Hin|[Hin|[]]].
  - injection Hin as <-. reflexivity.
  - destruct (encodable _); discriminate Hin.
Qed.

Lemma preview_no_warning :
  forall (held : option blueprint) (t : str),
    ~ In (Warning t) (preview_of held).
Proof.
  intros [bp|] t Hin; [|destruct Hin].
  unfold preview_of in Hin.
  destruct Hin as [Hin|[Hin|[]]].
  - discriminate Hin.
  - destruct (encodable _); discriminate Hin.
Qed.

(** The deploy block when it has nothing to publish. *)
Lemma deploy_outcome_quiet :
  forall (lower : str -> str) (svc : Github.service) (inp : inputs)
         (held : option blueprint) (g g' : list Github.call)
         (shown : list element),
    deploy_clicked inp = false \/ github_token inp = []
    \/ repo_name inp = [] \/ held = None ->
    deploy_outcome lower svc inp held g g' shown -> g' = g.
Proof.
  intros lower svc inp held g g' shown Hq Hout.
  unfold deploy_outcome in Hout.
  destruct (deploy_clicked inp).
  - destruct (github_token inp) as [|t token];
      [destruct Hout as (-> & _); reflexivity|].
    destruct (repo_name inp) as [|r repo];
      [destruct Hout as (-> & _); reflexivity|].
    destruct held as [bp|]; [|destruct Hout as (-> & _); reflexivity].
    destruct Hq as [H|[H|[H|H]]]; discriminate H.
  - destruct Hout as (-> & _). reflexivity.
Qed.

(** The deploy block when it publishes. *)
Lemma deploy_outcome_published :
  forall (lower : str -> str) (svc : Github.service) (inp : inputs)
         (bp : blueprint) (g g' : list Github.call) (shown : list element),
    deploy_clicked inp = true -> github_token inp <> [] ->
    repo_name inp <> [] ->
    deploy_outcome lower svc inp (Some bp) g g' shown ->
    let published :=
      Github.deploy_to_github lower svc (github_token inp) (repo_name inp)
        bp (lit "Automated admin_tools blueprint update") (branch inp) g in
    g' = fst published
    /\ shown
       = [Spinner (lit "Deploying to GitHub...");
          match snd published with
          | inr _ => Success (lit "Deployed blueprint to GitHub successfully")
          | inl e => ExceptionBox (Raised e)
          end].
Proof.
  intros lower svc inp bp g g' shown Hd Ht Hr Hout.
  unfold deploy_outcome in Hout. rewrite Hd in Hout.
  destruct (github_token inp) as [|t token]; [contradiction Ht; reflexivity|].
  destruct (repo_name inp) as [|r repo]; [contradiction Hr; reflexivity|].
  exact Hout.
Qed.

(** The blueprint a run works with once the build block is behind it. *)
Lemma held_after_build :
  forall (lower : str -> str) (fl : flavour) (fs : filesystem)
         (script_file : Path) (inp : inputs) (w : state)
         (bp bp' : blueprint),
    (build_clicked inp = true ->
     build_blueprint_from_folder lower fl fs (admin_folder script_file)
     = inr bp') ->
    (if build_clicked inp
     then build_blueprint_from_folder lower fl fs (admin_folder script_file)
          = inr bp
     else held_blueprint (session w) = Some bp) ->
    (if build_clicked inp then Some bp' else held_blueprint (session w))
    = Some bp.
Proof.
  intros lower fl fs script_file inp w bp bp' Hbuild Hheld.
  destruct (build_clicked inp).
  - rewrite (Hbuild eq_refl) in Hheld. injection Hheld as ->. reflexivity.
  - exact Hheld.
Qed.

(** A run keeps the session in good order, and fails in no look-up,
    however it ends. *)
Lemma session_after_run :
  forall (lower : str -> str) (fl : flavour) (fs : filesystem)
         (api : Chat.endpoint) (svc : Github.service) (script_file : Path)
         (inp : inputs) (w : state),
    session_ok (session w) ->
    ~ lookup_failure (snd (run lower fl fs api svc script_file inp w))
    /\ session_ok (session (fst (run lower fl fs api svc script_file inp w)))
    /\ ss_history (session (fst (run lower fl fs api svc script_file inp w)))
       <> None
    /\ ss_blueprint
         (session (fst (run lower fl fs api svc script_file inp w)))
       <> None.
Proof.
  intros lower fl fs api svc script_file inp w [Hok Hheld].
  destruct (run_shape lower fl fs api svc script_file inp w
              (fun _ _ _ => Hok))
    as (h' & held' & scr' & o' & g' & r & Hrun & Hr & Hok' & _ & _
        & Hfrom & _).
  rewrite Hrun. cbn [fst snd session ss_history ss_blueprint].
  split; [exact Hr|]. split; [|split; discriminate].
  unfold session_ok, history_of, held_blueprint.
  cbn [ss_history ss_blueprint]. split; [exact (Hok' Hok)|].
  destruct Hfrom as [->|(bp & Hbuild & ->)].
  - exact Hheld.
  - exact (build_result_distinct _ _ _ _ _ Hbuild).
Qed.

Lemma reachable_session_ok :
  forall w : state, reachable w -> session_ok (session w).
Proof.
  intros w H. induction H as [|lower fl fs api svc script_file inp w H IH].
  - split; [constructor | exact I].
  - apply (session_after_run lower fl fs api svc script_file inp w IH).
Qed.

(** X9: in whatever state earlier runs have left a session, and however
    they ended, a run of the page fails in no look-up: neither
    [st.session_state.history] and [st.session_state.blueprint] nor
    [m['role']] and [m['content']] raise, whatever the user entered and
    however the file system, the model and GitHub behaved.  After the
    run the session holds a history and a blueprint slot; and when
    nothing cuts the run short (every text to be shown can be encoded,
    and the builder returns if Build is clicked), the run ends
    normally. *)
Theorem page_lookups_never_fail :
  forall (w : state),
    reachable w ->
    forall (lower : str -> str) (fl : flavour) (fs : filesystem)
           (api : Chat.endpoint) (svc : Github.service) (script_file : Path)
           (inp : inputs),
      ~ lookup_failure (snd (run lower fl fs api svc script_file inp w))
      /\ ss_history
           (session (fst (run lower fl fs api svc script_file inp w)))
         <> None
      /\ ss_blueprint
           (session (fst (run lower fl fs api svc script_file inp w)))
         <> None
      /\ (steady lower fl fs api svc script_file inp w ->
          snd (run lower fl fs api svc script_file inp w) = inr tt).
Proof.
  intros w H lower fl fs api svc script_file inp.
  pose proof (reachable_session_ok w H) as Hok.
  destruct (session_after_run lower fl fs api svc script_file inp w Hok)
    as (Hret & _ & Hh & Hb).
  split; [exact Hret|]. split; [exact Hh|]. split; [exact Hb|].
  intros Hsteady.
  destruct (run_result lower fl fs api svc script_file inp w
              (fun _ _ _ => proj1 Hok) Hsteady)
    as (bp & h1 & o1 & sent_shown & g1 & deploy_shown
        & _ & _ & _ & _ & Hrun).
  rewrite Hrun. reflexivity.
Qed.

Variable lower : str -> str.
Variable fl : flavour.
Variable fs : filesystem.
Variable api : Chat.endpoint.
Variable svc : Github.service.
Variable script_file : Path.
Variable inp : inputs.

(** X10: unless Send is clicked with a message that is not blank and
    with an API key, the run sends nothing to the model and leaves the
    history as it was (Clear apart), however it ends: the
    [ValueError] of [generate_response] is never reached from the page.
    When nothing cuts the run short, it ends normally, and a blank
    message has got the warning, a missing key the error. *)
Theorem page_sends_nothing_without_message_and_key :
  forall (w : state),
    send inp = false \/ blank (user_input inp) \/ openai_key inp = [] ->
    let r := run lower fl fs api svc script_file inp w in
    openai (fst r) = openai w
    /\ (history_of (session (fst r)) = history_of (session w)
        \/ (clear_clicked inp = true /\ history_of (session (fst r)) = []))
    /\ (steady lower fl fs api svc script_file inp w ->
        snd r = inr tt
        /\ openai (fst r) = openai w
        /\ ss_history (session (fst r))
           = Some (if clear_clicked inp then [] else history_of (session w))
        /\ (send inp = true -> blank (user_input inp) ->
            In (Warning (lit "Please enter a message before sending"))
               (screen (fst r)))
        /\ (send inp = true -> ~ blank (user_input inp) ->
            In (Error (lit "OpenAI API key is required in the sidebar"))
               (screen (fst r)))).
Proof.
  intros w Hquiet r.
  assert (Hread : send inp = true -> ~ blank (user_input inp) ->
                  openai_key inp <> [] ->
                  Forall entry_ok (history_of (session w))).
  { intros Hs Hb Hk. destruct Hquiet as [H|[H|H]].
    - rewrite H in Hs. discriminate Hs.
    - contradiction.
    - contradiction. }
  destruct (run_shape lower fl fs api svc script_file inp w Hread)
    as (h' & held' & scr' & o' & g' & r' & Hshape & _ & _ & Hsame & _).
  destruct (Hsame Hquiet) as (Ho & Hh).
  assert (Hopenai : openai (fst r) = openai w).
  { subst r. rewrite Hshape. exact Ho. }
  split; [exact Hopenai|]. split.
  { subst r. rewrite Hshape. unfold history_of at 1 3.
    cbn [fst session ss_history]. exact Hh. }
  intros Hsteady.
  destruct (run_result lower fl fs api svc script_file inp w Hread Hsteady)
    as (bp & h1 & o1 & sent_shown & g1 & deploy_shown
        & Hbuild & Hsend & Hok1 & Hdeploy & Hrun).
  split; [subst r; rewrite Hrun; reflexivity|].
  split; [exact Hopenai|].
  subst r. rewrite Hrun. cbn [fst snd session screen openai ss_history].
  destruct (send_outcome_quiet _ _ _ _ _ _ _ Hquiet Hsend)
    as (-> & -> & Hwarn & Herr).
  split.
  - destruct (clear_clicked inp); reflexivity.
  - split.
    + intros Hs Hb. rewrite (Hwarn Hs Hb). on_screen.
    + intros Hs Hb. rewrite (Herr Hs Hb). on_screen.
Qed.

(** X11: when Send is clicked with a message and a key, the model
    answers and nothing cuts the run short, the run sends one request,
    which carries the key, the chosen model and the whole history
    followed by the new message, and the history grows by the message
    and the answer (unless Clear was clicked as well, which empties it
    after the request has gone out). *)
Theorem page_send_records_exchange :
  forall (w : state) (resp : option Chat.response),
    send inp = true -> ~ blank (user_input inp) -> openai_key inp <> [] ->
    Forall entry_ok (history_of (session w)) ->
    steady lower fl fs api svc script_file inp w ->
    let asked :=
      history_of (session w) ++ [chat_entry (lit "user") (user_input inp)] in
    let request :=
      Chat.ChatCompletionCreate (openai_key inp) (model inp)
                                (map as_message asked) in
    api (Chat.sent (openai w) ++ [request]) = inr resp ->
    let r := run lower fl fs api svc script_file inp w in
    snd r = inr tt
    /\ openai (fst r)
       = Chat.mkWorld (openai_key inp) (Chat.sent (openai w) ++ [request])
    /\ ss_history (session (fst r))
       = Some (if clear_clicked inp then []
               else asked
                      ++ [chat_entry (lit "assistant")
                            (Chat.or_empty (Chat.extract_content resp))]).
Proof.
  intros w resp Hs Hb Hk Hok Hsteady asked request Hapi r.
  destruct (run_result lower fl fs api svc script_file inp w
              (fun _ _ _ => Hok) Hsteady)
    as (bp & h1 & o1 & sent_shown & g1 & deploy_shown
        & Hbuild & Hsend & Hok1 & Hdeploy & Hrun).
  subst r. rewrite Hrun. cbn [fst snd session screen openai ss_history].
  destruct (send_outcome_sent _ _ _ _ _ _ _ Hs Hb Hk Hsend) as (-> & Hcase).
  fold asked request in Hcase. rewrite Hapi in Hcase.
  destruct Hcase as (-> & _).
  split; [reflexivity|]. split; [reflexivity|].
  destruct (clear_clicked inp); reflexivity.
Qed.

(** X12: when the request to the model fails and nothing else cuts the
    run short (the text of the exception can be shown), the exception
    is caught: the run ends normally, the error is shown with the text
    of the exception, and the history keeps the message that was asked,
    with no answer after it. *)
Theorem page_send_failure_keeps_question :
  forall (w : state) (e : exn),
    send inp = true -> ~ blank (user_input inp) -> openai_key inp <> [] ->
    Forall entry_ok (history_of (session w)) ->
    steady lower fl fs api svc script_file inp w ->
    let asked :=
      history_of (session w) ++ [chat_entry (lit "user") (user_input inp)] in
    let request :=
      Chat.ChatCompletionCreate (openai_key inp) (model inp)
                                (map as_message asked) in
    api (Chat.sent (openai w) ++ [request]) = inl e ->
    let r := run lower fl fs api svc script_file inp w in
    snd r = inr tt
    /\ ss_history (session (fst r))
       = Some (if clear_clicked inp then [] else asked)
    /\ In (Error (lit "OpenAI request failed: " ++ exn_str e))
          (screen (fst r)).
Proof.
  intros w e Hs Hb Hk Hok Hsteady asked request Hapi r.
  destruct (run_result lower fl fs api svc script_file inp w
              (fun _ _ _ => Hok) Hsteady)
    as (bp & h1 & o1 & sent_shown & g1 & deploy_shown
        & Hbuild & Hsend & Hok1 & Hdeploy & Hrun).
  subst r. rewrite Hrun. cbn [fst snd session screen openai ss_history].
  destruct (send_outcome_sent _ _ _ _ _ _ _ Hs Hb Hk Hsend) as (-> & Hcase).
  fold asked request in Hcase. rewrite Hapi in Hcase.
  destruct Hcase as (-> & ->).
  split; [reflexivity|]. split.
  - destruct (clear_clicked inp); reflexivity.
  - on_screen.
Qed.

(** X13: when nothing cuts the run short, the transcript it shows is
    the history as it was when the run started, one line per entry and
    in order; what is sent and answered in this run is stored but not
    shown before the next run: below the Send button, the only markdown
    is the rule and the caption of the preview. *)
Theorem page_transcript_is_history_at_start :
  forall (w : state),
    Forall entry_ok (history_of (session w)) ->
    steady lower fl fs api svc script_file inp w ->
    exists rest,
      screen (fst (run lower fl fs api svc script_file inp w))
      = page_top
          ++ Header (lit "Chat")
          :: map transcript_line (history_of (session w))
          ++ TextArea (lit "Message") :: Button (lit "Send") :: rest
      /\ forall t : str,
          In (Markdown t) rest ->
          t = lit "---"
          \/ t = lit "Blueprint preview (first 1k chars of JSON)".
Proof.
  intros w Hok Hsteady.
  destruct (run_result lower fl fs api svc script_file inp w
              (fun _ _ _ => Hok) Hsteady)
    as (bp & h1 & o1 & sent_shown & g1 & deploy_shown
        & Hbuild & Hsend & Hok1 & Hdeploy & Hrun).
  rewrite Hrun. cbn [fst screen].
  eexists. split.
  - rewrite <- !app_assoc. cbn [app]. rewrite <- !app_assoc. cbn [app].
    reflexivity.
  - intros t Hin. unfold build_report, download_offer in Hin.
    apply in_app_or in Hin. destruct Hin as [Hin|Hin].
    + contradiction (send_outcome_no_markdown _ _ _ _ _ _ _ t Hsend Hin).
    + destruct Hin as [Hin|Hin]; [discriminate Hin|].
      destruct Hin as [Hin|Hin]; [discriminate Hin|].
      apply in_app_or in Hin. destruct Hin as [Hin|Hin].
      { destruct (build_clicked inp); [|destruct Hin].
        apply in_app_or in Hin. destruct Hin as [Hin|Hin].
        - destruct bp; screen_cases Hin.
        - screen_cases Hin. }
      apply in_app_or in Hin. destruct Hin as [Hin|Hin].
      { right. exact (preview_markdown _ _ Hin). }
      destruct Hin as [Hin|Hin]; [injection Hin as <-; left; reflexivity|].
      destruct Hin as [Hin|Hin]; [discriminate Hin|].
      apply in_app_or in Hin. destruct Hin as [Hin|Hin].
      { contradiction (deploy_outcome_no_markdown _ _ _ _ _ _ _ t Hdeploy
                                                   Hin). }
      destruct Hin as [Hin|Hin]; [injection Hin as <-; left; reflexivity|].
      destruct Hin as [Hin|Hin]; [discriminate Hin|].
      destruct Hin as [Hin|Hin]; [discriminate Hin|].
      apply in_app_or in Hin. destruct Hin as [Hin|Hin].
      { destruct (clear_clicked inp); screen_cases Hin. }
      destruct Hin as [Hin|Hin]; [discriminate Hin|].
      destruct (download_clicked inp); [|destruct Hin].
      destruct (if build_clicked inp then Some bp
                else held_blueprint (session w)); screen_cases Hin.
Qed.

(** X14: when nothing cuts the run short, Clear chat empties the
    history, also when a message was sent in the same run, and says so;
    the run ends normally. *)
Theorem page_clear_empties_history :
  forall (w : state),
    clear_clicked inp = true ->
    Forall entry_ok (history_of (session w)) ->
    steady lower fl fs api svc script_file inp w ->
    let r := run lower fl fs api svc script_file inp w in
    snd r = inr tt
    /\ ss_history (session (fst r)) = Some []
    /\ In (Success (lit "Chat history cleared")) (screen (fst r)).
Proof.
  intros w Hc Hok Hsteady r.
  destruct (run_result lower fl fs api svc script_file inp w
              (fun _ _ _ => Hok) Hsteady)
    as (bp & h1 & o1 & sent_shown & g1 & deploy_shown
        & Hbuild & Hsend & Hok1 & Hdeploy & Hrun).
  subst r. rewrite Hrun. cbn [fst snd session screen openai ss_history].
  rewrite Hc. split; [reflexivity|]. split; [reflexivity|]. on_screen.
Qed.

(** X15: when the builder returns and nothing else cuts the run short,
    the Build button stores what [build_blueprint_from_folder] returned
    for the folder [admin_tools] beside the script, replacing whatever
    the session held; the run reports the number of files, previews the
    new blueprint at once -- its JSON, or the note that it cannot be
    previewed when Streamlit refuses the text -- and warns exactly when
    the blueprint is empty. *)
Theorem page_build_replaces_blueprint :
  forall (w : state),
    build_clicked inp = true ->
    Forall entry_ok (history_of (session w)) ->
    steady lower fl fs api svc script_file inp w ->
    let r := run lower fl fs api svc script_file inp w in
    exists bp : blueprint,
      build_blueprint_from_folder lower fl fs
                                  (joinpath (parent script_file)
                                            (lit "admin_tools"))
      = inr bp
      /\ snd r = inr tt
      /\ ss_blueprint (session (fst r)) = Some (Some bp)
      /\ In (Success (lit "Blueprint built with " ++ decimal (length bp)
                        ++ lit " file(s)"))
            (screen (fst r))
      /\ In (if encodable (firstn 1000 (dumps_compact bp))
             then Code (firstn 1000 (dumps_compact bp))
             else Write (lit "Unable to preview blueprint"))
            (screen (fst r))
      /\ (bp = []
          <-> In (Warning
                    (lit "No files found under admin_tools/. The blueprint will be empty"))
                 (screen (fst r))).
Proof.
  intros w Hb Hok Hsteady r.
  destruct (run_result lower fl fs api svc script_file inp w
              (fun _ _ _ => Hok) Hsteady)
    as (bp & h1 & o1 & sent_shown & g1 & deploy_shown
        & Hbuild & Hsend & Hok1 & Hdeploy & Hrun).
  exists bp. split; [exact (Hbuild Hb)|].
  subst r. rewrite Hrun.
  cbn [fst snd session screen openai ss_history ss_blueprint].
  rewrite Hb in *.
  split; [reflexivity|]. split; [reflexivity|].
  split; [unfold build_report; on_screen|].
  split; [unfold preview_of; on_screen|]. split.
  - intros ->. unfold build_report. on_screen.
  - intros Hin.
    apply in_app_or in Hin. destruct Hin as [Hin|Hin].
    2:{ unfold download_offer in Hin. screen_cases Hin. }
    apply in_app_or in Hin. destruct Hin as [Hin|Hin].
    2:{ contradiction (deploy_outcome_no_warning _ _ _ _ _ _ _ _ Hdeploy
                                                 Hin). }
    apply in_app_or in Hin. destruct Hin as [Hin|Hin].
    + apply in_app_or in Hin. destruct Hin as [Hin|Hin].
      { unfold page_top in Hin. screen_cases Hin. }
      destruct Hin as [Hin|Hin]; [discriminate Hin|].
      apply in_app_or in Hin. destruct Hin as [Hin|Hin].
      { apply in_map_iff in Hin. destruct Hin as (m & Hm & _).
        unfold transcript_line in Hm.
        destruct (str_eqb _ _); discriminate Hm. }
      apply in_app_or in Hin. destruct Hin as [Hin|Hin];
        [screen_cases Hin|].
      contradiction (send_outcome_no_build_warning _ _ _ _ _ _ _ Hsend Hin).
    + destruct Hin as [Hin|Hin]; [discriminate Hin|].
      destruct Hin as [Hin|Hin]; [discriminate Hin|].
      apply in_app_or in Hin. destruct Hin as [Hin|Hin].
      * unfold build_report in Hin.
        destruct bp as [|kv bp']; [reflexivity|]. screen_cases Hin.
      * apply in_app_or in Hin. destruct Hin as [Hin|Hin].
        -- contradiction (preview_no_warning _ _ Hin).
        -- screen_cases Hin.
Qed.

(** X16: only the Build button changes the blueprint the session
    holds: a run in which it is not clicked, whatever else is clicked
    and however the run ends, leaves the blueprint as it was. *)
Theorem page_blueprint_changes_only_on_build :
  forall (w : state),
    build_clicked inp = false ->
    Forall entry_ok (history_of (session w)) ->
    held_blueprint (session (fst (run lower fl fs api svc script_file inp w)))
    = held_blueprint (session w).
Proof.
  intros w Hb Hok.
  destruct (run_shape lower fl fs api svc script_file inp w
              (fun _ _ _ => Hok))
    as (h' & held' & scr' & o' & g' & r & Hrun & _ & _ & _ & Hsame & _).
  rewrite Hrun. unfold held_blueprint at 1.
  cbn [fst session ss_blueprint]. exact (Hsame Hb).
Qed.

(** X17: a run sends nothing to GitHub unless Deploy is clicked, the
    token and the repository name are filled in, and there is a
    blueprint, held from before or built in this run. *)
Theorem page_publishes_nothing_unless :
  forall (w : state),
    Forall entry_ok (history_of (session w)) ->
    deploy_clicked inp = false \/ github_token inp = []
    \/ repo_name inp = []
    \/ (build_clicked inp = false /\ held_blueprint (session w) = None) ->
    github (fst (run lower fl fs api svc script_file inp w)) = github w.
Proof.
  intros w Hok Hq.
  destruct (run_shape lower fl fs api svc script_file inp w
              (fun _ _ _ => Hok))
    as (h' & held' & scr' & o' & g' & r & Hrun & _ & _ & _ & _ & _ & Hg).
  rewrite Hrun. cbn [fst github]. exact (Hg Hq).
Qed.

(** X18: when nothing cuts the run short, Deploy, with token and
    repository filled in, publishes the blueprint the session holds at
    that point (the one built in this run when Build was clicked too)
    by one call of [deploy_to_github], with the fixed commit message
    and the branch of the sidebar.  Its exception, if any, is caught
    and shown; otherwise success is shown.  The run ends normally
    either way. *)
Theorem page_deploy_publishes_held_blueprint :
  forall (w : state) (bp : blueprint),
    deploy_clicked inp = true -> github_token inp <> [] ->
    repo_name inp <> [] ->
    Forall entry_ok (history_of (session w)) ->
    steady lower fl fs api svc script_file inp w ->
    (if build_clicked inp
     then build_blueprint_from_folder lower fl fs
            (joinpath (parent script_file) (lit "admin_tools")) = inr bp
     else held_blueprint (session w) = Some bp) ->
    let published :=
      Github.deploy_to_github lower svc (github_token inp) (repo_name inp)
        bp (lit "Automated admin_tools blueprint update") (branch inp)
        (github w) in
    let r := run lower fl fs api svc script_file inp w in
    snd r = inr tt
    /\ github (fst r) = fst published
    /\ In (match snd published with
           | inr _ =>
               Success (lit "Deployed blueprint to GitHub successfully")
           | inl e => ExceptionBox (Raised e)
           end)
          (screen (fst r)).
Proof.
  intros w bp Hd Ht Hr Hok Hsteady Hheld published r.
  destruct (run_result lower fl fs api svc script_file inp w
              (fun _ _ _ => Hok) Hsteady)
    as (bp' & h1 & o1 & sent_shown & g1 & deploy_shown
        & Hbuild & Hsend & Hok1 & Hdeploy & Hrun).
  subst r. rewrite Hrun. cbn [fst snd github screen].
  rewrite (held_after_build _ _ _ _ _ _ _ _ Hbuild Hheld) in Hdeploy.
  destruct (deploy_outcome_published _ _ _ _ _ _ _ Hd Ht Hr Hdeploy)
    as (-> & ->).
  split; [reflexivity|]. split; [reflexivity|].
  fold published. on_screen.
Qed.

(** X19: when nothing cuts the run short -- in particular, the text
    can be encoded -- Download offers, as [admin_tools_blueprint.json],
    the very text [deploy_to_github] writes for the blueprint the
    session holds, and that text parses back to the blueprint. *)
Theorem page_download_offers_published_text :
  forall (w : state) (bp : blueprint),
    download_clicked inp = true ->
    session_ok (session w) ->
    steady lower fl fs api svc script_file inp w ->
    (if build_clicked inp
     then build_blueprint_from_folder lower fl fs
            (joinpath (parent script_file) (lit "admin_tools")) = inr bp
     else held_blueprint (session w) = Some bp) ->
    let r := run lower fl fs api svc script_file inp w in
    snd r = inr tt
    /\ In (DownloadButton (lit "Download JSON") (Json.dumps bp)
                          (lit "admin_tools_blueprint.json")
                          (lit "application/json"))
          (screen (fst r))
    /\ Json.loads (Json.dumps bp) = Some (Json.of_blueprint bp).
Proof.
  intros w bp Hd [Hok Hdistinct] Hsteady Hheld r.
  destruct (run_result lower fl fs api svc script_file inp w
              (fun _ _ _ => Hok) Hsteady)
    as (bp' & h1 & o1 & sent_shown & g1 & deploy_shown
        & Hbuild & Hsend & Hok1 & Hdeploy & Hrun).
  subst r. rewrite Hrun. cbn [fst snd github screen].
  rewrite (held_after_build _ _ _ _ _ _ _ _ Hbuild Hheld), Hd.
  unfold download_offer.
  split; [reflexivity|]. split; [on_screen|]. apply loads_dumps.
  destruct (build_clicked inp).
  - exact (build_result_distinct _ _ _ _ _ Hheld).
  - rewrite Hheld in Hdistinct. exact Hdistinct.
Qed.

Lemma build_not_directory :
  forall folder : Path,
    is_dir fs folder = inr false ->
    build_blueprint_from_folder lower fl fs folder = inr [].
Proof.
  intros folder H. unfold build_blueprint_from_folder. rewrite H.
  cbv zeta. destruct (exists_ fs folder) as [e|[|]] eqn:He;
    try reflexivity.
  unfold exists_, is_dir, stat in *.
  destruct (stat_error fs folder); [discriminate H|].
  destruct (lookup fs folder); discriminate He.
Qed.

(** X20: when there is no directory [admin_tools] beside the script --
    [is_dir] answers no -- and nothing cuts the run short, Build stores
    the empty blueprint, warns that no files were found and reports 0
    files; the builder does not fail, and the run ends normally. *)
Theorem page_build_without_folder :
  forall (w : state),
    build_clicked inp = true ->
    is_dir fs (joinpath (parent script_file) (lit "admin_tools"))
    = inr false ->
    Forall entry_ok (history_of (session w)) ->
    chat_steady api inp w ->
    (deploy_clicked inp = true ->
     github_token inp <> [] -> repo_name inp <> [] ->
     forall e,
       snd (Github.deploy_to_github lower svc (github_token inp)
              (repo_name inp) []
              (lit "Automated admin_tools blueprint update") (branch inp)
              (github w))
       = inl e ->
       encodable (exn_str e) = true) ->
    let r := run lower fl fs api svc script_file inp w in
    build_blueprint_from_folder lower fl fs
      (joinpath (parent script_file) (lit "admin_tools")) = inr []
    /\ snd r = inr tt
    /\ ss_blueprint (session (fst r)) = Some (Some [])
    /\ In (Warning
             (lit "No files found under admin_tools/. The blueprint will be empty"))
          (screen (fst r))
    /\ In (Success (lit "Blueprint built with 0 file(s)")) (screen (fst r)).
Proof.
  intros w Hb Hdir Hok Hchat Hdeploys r.
  pose proof (build_not_directory _ Hdir) as Hempty.
  split; [exact Hempty|].
  assert (Hsteady : steady lower fl fs api svc script_file inp w).
  { split; [exact Hchat|]. split; [|split].
    - intros _. exists []. exact Hempty.
    - intros Hd Ht Hr bp e Hbp He. rewrite Hb in Hbp.
      unfold admin_folder in Hbp. cbv zeta in Hbp.
      rewrite Hempty in Hbp. injection Hbp as <-.
      exact (Hdeploys Hd Ht Hr e He).
    - intros _ bp Hbp. rewrite Hb in Hbp.
      unfold admin_folder in Hbp. cbv zeta in Hbp.
      rewrite Hempty in Hbp. injection Hbp as <-. reflexivity. }
  destruct (run_result lower fl fs api svc script_file inp w
              (fun _ _ _ => Hok) Hsteady)
    as (bp & h1 & o1 & sent_shown & g1 & deploy_shown
        & Hbuild & Hsend & Hok1 & Hdeploy & Hrun).
  pose proof (Hbuild Hb) as Hbp.
  unfold admin_folder in Hbp. cbv zeta in Hbp.
  rewrite Hempty in Hbp. injection Hbp as <-.
  subst r. rewrite Hrun.
  cbn [fst snd session screen openai ss_history ss_blueprint].
  rewrite Hb. unfold build_report.
  split; [reflexivity|]. split; [reflexivity|].
  split; on_screen.
Qed.

(** X21: a run in which none of Send, Build, Deploy and Clear is
    clicked changes nothing, however it ends: the history, the
    blueprint, and what has been sent to the model and to GitHub are as
    before (a session that was not initialised gets the empty history
    and no blueprint).  It ends normally when the transcript can be
    shown and, if Download is clicked, the text offered can be
    encoded. *)
Theorem page_idle_run_changes_nothing :
  forall (w : state),
    send inp = false -> build_clicked inp = false ->
    deploy_clicked inp = false -> clear_clicked inp = false ->
    let r := run lower fl fs api svc script_file inp w in
    session (fst r)
    = mkSession (Some (history_of (session w)))
                (Some (held_blueprint (session w)))
    /\ openai (fst r) = openai w
    /\ github (fst r) = github w
    /\ (Forall showable (history_of (session w)) ->
        (download_clicked inp = true ->
         forall bp,
           held_blueprint (session w) = Some bp ->
           encodable (Json.dumps bp) = true) ->
        snd r = inr tt).
Proof.
  intros w Hs Hb Hd Hc r.
  assert (Hread : send inp = true -> ~ blank (user_input inp) ->
                  openai_key inp <> [] ->
                  Forall entry_ok (history_of (session w)))
    by (intros H; rewrite Hs in H; discriminate H).
  destruct (run_shape lower fl fs api svc script_file inp w Hread)
    as (h' & held' & scr' & o' & g' & r' & Hshape & _ & _ & Hquiet
        & Hheld & _ & Hg).
  destruct (Hquiet (or_introl Hs)) as (Ho & Hh).
  assert (Hh' : h' = history_of (session w)).
  { destruct Hh as [H|[H _]]; [exact H|].
    rewrite Hc in H. discriminate H. }
  split; [|split; [|split]].
  - subst r. rewrite Hshape. cbn [fst session].
    rewrite Hh', (Hheld Hb). reflexivity.
  - subst r. rewrite Hshape. exact Ho.
  - subst r. rewrite Hshape. exact (Hg (or_introl Hd)).
  - intros Hshow Hdown.
    assert (Hsteady : steady lower fl fs api svc script_file inp w).
    { split; [split|split; [|split]].
      - exact Hshow.
      - intros H. rewrite Hs in H. discriminate H.
      - intros H. rewrite Hb in H. discriminate H.
      - intros H. rewrite Hd in H. discriminate H.
      - rewrite Hb. exact Hdown. }
    destruct (run_result lower fl fs api svc script_file inp w Hread
                Hsteady)
      as (bp & h1 & o1 & sent_shown & g1 & deploy_shown
          & _ & _ & _ & _ & Hrun).
    subst r. rewrite Hrun. reflexivity.
Qed.

(** X23: when the builder raises -- the folder cannot be examined, a
    directory cannot be listed for another reason than permissions, the
    tree is too deep -- the exception is not caught: the run stops at
    the Build button with that exception, the session keeps the
    blueprint it held, and nothing is sent to GitHub. *)
Theorem page_build_failure_ends_run :
  forall (w : state) (e : exn),
    build_clicked inp = true ->
    Forall entry_ok (history_of (session w)) ->
    chat_steady api inp w ->
    build_blueprint_from_folder lower fl fs
      (joinpath (parent script_file) (lit "admin_tools")) = inl e ->
    let r := run lower fl fs api svc script_file inp w in
    snd r = inl (Raised e)
    /\ held_blueprint (session (fst r)) = held_blueprint (session w)
    /\ github (fst r) = github w
    /\ exists above,
         screen (fst r)
         = above ++ [Header (lit "Deployment");
                     Button (lit "Build JSON blueprint from admin_tools/")].
Proof.
  intros w e Hb Hok Hchat Hbuild r.
  destruct (chat_column_result api inp (history_of (session w))
              (held_blueprint (session w)) page_top (openai w) (github w)
              (fun _ _ _ => Hok) Hchat)
    as (h1 & o1 & sent_shown & Heq & _ & _).
  assert (Hrun : r = (mkState
                        (mkSession (Some h1)
                                   (Some (held_blueprint (session w))))
                        ((page_top
                            ++ Header (lit "Chat")
                            :: map transcript_line (history_of (session w))
                            ++ [TextArea (lit "Message");
                                Button (lit "Send")]
                            ++ sent_shown)
                           ++ [Header (lit "Deployment");
                               Button
                                 (lit "Build JSON blueprint from admin_tools/")])
                        o1 (github w),
                      inl (Raised e))).
  { subst r. rewrite run_phases. unfold bind at 1. rewrite Heq.
    unfold bind at 1.
    rewrite (deployment_column_raises lower fl fs svc script_file inp _ e
               Hb Hbuild).
    reflexivity. }
  rewrite Hrun. cbn [fst snd session screen openai github].
  split; [reflexivity|]. split; [reflexivity|]. split; [reflexivity|].
  eexists. reflexivity.
Qed.

(** X24: an entry of the history whose content holds a lone surrogate
    -- a reply of the model can -- stops the run in the transcript:
    [st.markdown] raises [UnicodeEncodeError], the page ends above that
    entry, and the session is left as it was.  So every later run stops
    there as well, and Clear chat, further down the script, is never
    reached. *)
Theorem page_transcript_stops_at_unencodable :
  forall (w : state) (h1 : list entry) (m : entry) (h2 : list entry),
    history_of (session w) = h1 ++ m :: h2 ->
    Forall showable h1 ->
    encodable (get_default m (lit "content") []) = false ->
    let r := run lower fl fs api svc script_file inp w in
    snd r = inl (Raised unicode_encode_error)
    /\ screen (fst r)
       = page_top ++ Header (lit "Chat") :: map transcript_line h1
    /\ session (fst r)
       = mkSession (Some (history_of (session w)))
                   (Some (held_blueprint (session w)))
    /\ openai (fst r) = openai w
    /\ github (fst r) = github w.
Proof.
  intros w h1 m h2 Hh Hshow Hm r.
  assert (Hrun : r = (mkState
                        (mkSession (Some (history_of (session w)))
                                   (Some (held_blueprint (session w))))
                        (page_top ++ Header (lit "Chat")
                                  :: map transcript_line h1)
                        (openai w) (github w),
                      inl (Raised unicode_encode_error))).
  { subst r. rewrite run_phases. rewrite Hh. unfold bind at 1.
    rewrite (chat_column_stops api inp h1 m h2 _ _ _ _ Hshow Hm).
    reflexivity. }
  rewrite Hrun. cbn [fst snd session screen openai github].
  repeat split.
Qed.

(** X25: when the text of the blueprint cannot be encoded -- a key
    holds a lone surrogate, as the name of a file that is not UTF-8
    gives -- Download stops the run: [st.download_button] raises
    [UnicodeEncodeError] outside any [try], and nothing is offered. *)
Theorem page_download_stops_at_unencodable :
  forall (w : state) (bp : blueprint),
    send inp = false -> build_clicked inp = false ->
    deploy_clicked inp = false -> download_clicked inp = true ->
    Forall showable (history_of (session w)) ->
    held_blueprint (session w) = Some bp ->
    encodable (Json.dumps bp) = false ->
    let r := run lower fl fs api svc script_file inp w in
    snd r = inl (Raised unicode_encode_error)
    /\ held_blueprint (session (fst r)) = Some bp
    /\ exists above,
         screen (fst r) = above ++ [Button (lit "Download blueprint")].
Proof.
  intros w bp Hs Hb Hd Hdown Hshow Hheld Henc r.
  assert (Hrun : exists above,
             r = (mkState
                    (mkSession
                       (if clear_clicked inp then Some []
                        else Some (history_of (session w)))
                       (Some (Some bp)))
                    (above ++ [Button (lit "Download blueprint")])
                    (openai w) (github w),
                  inl (Raised unicode_encode_error))).
  { subst r. rewrite run_phases. unfold bind at 1.
    rewrite (chat_column_shown api inp _ _ _ _ _ Hshow). rewrite Hs.
    unfold ret at 1. unfold bind at 1.
    rewrite (deployment_column_shown lower fl fs svc script_file inp
               _ _ _ _ _ []
               ltac:(intros H; rewrite Hb in H; discriminate H)).
    cbv zeta. rewrite Hb, Hd. unfold ret at 1.
    rewrite Hheld.
    rewrite (utility_controls_raises inp _ _ _ _ _ Hdown Henc).
    eexists. f_equal. f_equal.
    match goal with
    | |- ?X ++ ?a :: ?b :: ?c :: ?L ++ ?B = _ =>
        change (X ++ a :: b :: c :: L ++ B)
          with (X ++ (a :: b :: c :: L) ++ B);
        rewrite (app_assoc X (a :: b :: c :: L) B)
    end.
    reflexivity. }
  destruct Hrun as (above & Hrun).
  rewrite Hrun. cbn [fst snd session screen openai github].
  split; [reflexivity|]. split; [reflexivity|].
  exists above. reflexivity.
Qed.

End PageRuns.


Section PageRunsExamples.
Import App.

(** Nothing cuts a run short, settled by computation on given inputs. *)
Ltac settled :=
  let e := fresh "e" in
  let bp := fresh "bp" in
  let Hclick := fresh "Hclick" in
  let Hheld := fresh "Hheld" in
  let Hfail := fresh "Hfail" in
  split;
  [ split;
    [ repeat (apply Forall_cons; [reflexivity|]); apply Forall_nil
    | intros _ _ _ e Hfail; vm_compute in Hfail;
      first [discriminate Hfail | injection Hfail as <-; reflexivity] ]
  | split;
    [ intros Hclick;
      first [discriminate Hclick | eexists; vm_compute; reflexivity]
    | split;
      [ intros Hclick;
        first [ discriminate Hclick
              | intros _ _ bp e Hheld Hfail; vm_compute in Hheld;
                injection Hheld as <-; vm_compute in Hfail;
                first [ discriminate Hfail
                      | injection Hfail as <-; reflexivity ] ]
      | intros Hclick;
        first [ discriminate Hclick
              | intros bp Hheld; vm_compute in Hheld;
                injection Hheld as <-; reflexivity ] ] ] ].

Lemma page_lookups_never_fail_fresh :
  ~ lookup_failure
      (snd (run ascii_lower Posix PageSamples.disk
                MoreSamples.broken_endpoint Samples.svc_outage
                PageSamples.script_file PageSamples.asking fresh))
  /\ ss_history
       (session
          (fst (run ascii_lower Posix PageSamples.disk
                    MoreSamples.broken_endpoint Samples.svc_outage
                    PageSamples.script_file PageSamples.asking fresh)))
     <> None
  /\ ss_blueprint
       (session
          (fst (run ascii_lower Posix PageSamples.disk
                    MoreSamples.broken_endpoint Samples.svc_outage
                    PageSamples.script_file PageSamples.asking fresh)))
     <> None
  /\ snd (run ascii_lower Posix PageSamples.disk
              MoreSamples.broken_endpoint Samples.svc_outage
              PageSamples.script_file PageSamples.asking fresh)
     = inr tt.
Proof.
  destruct (page_lookups_never_fail fresh reachable_fresh ascii_lower Posix
              PageSamples.disk MoreSamples.broken_endpoint
              Samples.svc_outage PageSamples.script_file PageSamples.asking)
    as (Hlook & Hh & Hb & Hret).
  split; [exact Hlook|]. split; [exact Hh|]. split; [exact Hb|].
  apply Hret. settled.
Defined.

Lemma page_sends_nothing_without_message_and_key_no_key :
  let r := run ascii_lower Posix PageSamples.disk Samples.chat_endpoint
               Samples.svc_present PageSamples.script_file
               PageSamples.asking_without_key PageSamples.busy in
  openai (fst r) = openai PageSamples.busy
  /\ (history_of (session (fst r)) = history_of (session PageSamples.busy)
      \/ (clear_clicked PageSamples.asking_without_key = true
          /\ history_of (session (fst r)) = []))
  /\ snd r = inr tt
  /\ ss_history (session (fst r))
     = Some (history_of (session PageSamples.busy))
  /\ In (Error (lit "OpenAI API key is required in the sidebar"))
        (screen (fst r)).
Proof.
  destruct (page_sends_nothing_without_message_and_key ascii_lower Posix
              PageSamples.disk Samples.chat_endpoint Samples.svc_present
              PageSamples.script_file PageSamples.asking_without_key
              PageSamples.busy (or_intror (or_intror eq_refl)))
    as (Ho & Hh & Hrest).
  destruct Hrest as (Hret & _ & Hhist & _ & Herr); [settled|].
  split; [exact Ho|]. split; [exact Hh|]. split; [exact Hret|].
  split; [exact Hhist|].
  apply Herr; [reflexivity|]. unfold blank. vm_compute. discriminate.
Defined.

Lemma page_send_records_exchange_hi :
  let asked :=
    history_of (session PageSamples.busy)
      ++ [chat_entry (lit "user") (user_input PageSamples.asking)] in
  let request :=
    Chat.ChatCompletionCreate (openai_key PageSamples.asking)
                              (model PageSamples.asking)
                              (map as_message asked) in
  let r := run ascii_lower Posix PageSamples.disk Samples.chat_endpoint
               Samples.svc_present PageSamples.script_file
               PageSamples.asking PageSamples.busy in
  snd r = inr tt
  /\ openai (fst r)
     = Chat.mkWorld (openai_key PageSamples.asking)
                    (Chat.sent (openai PageSamples.busy) ++ [request])
  /\ ss_history (session (fst r))
     = Some (if clear_clicked PageSamples.asking then []
             else asked
                    ++ [chat_entry (lit "assistant")
                          (Chat.or_empty
                             (Chat.extract_content
                                (Some (Chat.mkResponse
                                         [Chat.mkChoice
                                            (Some (Chat.MsgMapping
                                                     [(lit "role", Some (lit "assistant"));
                                                      (lit "content", Some (lit "hello"))]))
                                            None]))))]).
Proof.
  apply (page_send_records_exchange ascii_lower Posix PageSamples.disk
           Samples.chat_endpoint Samples.svc_present PageSamples.script_file
           PageSamples.asking PageSamples.busy).
  - reflexivity.
  - unfold blank. vm_compute. discriminate.
  - discriminate.
  - repeat constructor; discriminate.
  - settled.
  - reflexivity.
Defined.

Lemma page_send_failure_keeps_question_outage :
  let asked :=
    history_of (session PageSamples.busy)
      ++ [chat_entry (lit "user") (user_input PageSamples.asking)] in
  let r := run ascii_lower Posix PageSamples.disk
               MoreSamples.broken_endpoint Samples.svc_present
               PageSamples.script_file PageSamples.asking
               PageSamples.busy in
  snd r = inr tt
  /\ ss_history (session (fst r))
     = Some (if clear_clicked PageSamples.asking then [] else asked)
  /\ In (Error (lit "OpenAI request failed: "
                  ++ exn_str (Exn RemoteException
                                  (lit "Rate limit reached"))))
        (screen (fst r)).
Proof.
  apply (page_send_failure_keeps_question ascii_lower Posix PageSamples.disk
           MoreSamples.broken_endpoint Samples.svc_present
           PageSamples.script_file PageSamples.asking PageSamples.busy
           (Exn RemoteException (lit "Rate limit reached"))).
  - reflexivity.
  - unfold blank. vm_compute. discriminate.
  - discriminate.
  - repeat constructor; discriminate.
  - settled.
  - reflexivity.
Defined.

Lemma page_transcript_is_history_at_start_busy :
  exists rest,
    screen (fst (run ascii_lower Posix PageSamples.disk
                     Samples.chat_endpoint Samples.svc_present
                     PageSamples.script_file PageSamples.asking
                     PageSamples.busy))
    = page_top
        ++ Header (lit "Chat")
        :: map transcript_line (history_of (session PageSamples.busy))
        ++ TextArea (lit "Message") :: Button (lit "Send") :: rest
    /\ forall t : str,
        In (Markdown t) rest ->
        t = lit "---"
        \/ t = lit "Blueprint preview (first 1k chars of JSON)".
Proof.
  apply (page_transcript_is_history_at_start ascii_lower Posix
           PageSamples.disk Samples.chat_endpoint Samples.svc_present
           PageSamples.script_file PageSamples.asking PageSamples.busy).
  - repeat constructor; discriminate.
  - settled.
Defined.

Lemma page_clear_empties_history_busy :
  let r := run ascii_lower Posix PageSamples.disk Samples.chat_endpoint
               Samples.svc_present PageSamples.script_file
               PageSamples.clearing PageSamples.busy in
  snd r = inr tt
  /\ ss_history (session (fst r)) = Some []
  /\ In (Success (lit "Chat history cleared")) (screen (fst r)).
Proof.
  apply (page_clear_empties_history ascii_lower Posix PageSamples.disk
           Samples.chat_endpoint Samples.svc_present PageSamples.script_file
           PageSamples.clearing PageSamples.busy).
  - reflexivity.
  - repeat constructor; discriminate.
  - settled.
Defined.

Lemma page_build_replaces_blueprint_busy :
  let r := run ascii_lower Posix PageSamples.disk Samples.chat_endpoint
               Samples.svc_present PageSamples.script_file
               PageSamples.building PageSamples.busy in
  exists bp : blueprint,
    build_blueprint_from_folder ascii_lower Posix PageSamples.disk
                                (joinpath (parent PageSamples.script_file)
                                          (lit "admin_tools"))
    = inr bp
    /\ snd r = inr tt
    /\ ss_blueprint (session (fst r)) = Some (Some bp)
    /\ In (Success (lit "Blueprint built with " ++ decimal (length bp)
                      ++ lit " file(s)"))
          (screen (fst r))
    /\ In (if encodable (firstn 1000 (dumps_compact bp))
           then Code (firstn 1000 (dumps_compact bp))
           else Write (lit "Unable to preview blueprint"))
          (screen (fst r))
    /\ (bp = []
        <-> In (Warning
                  (lit "No files found under admin_tools/. The blueprint will be empty"))
               (screen (fst r))).
Proof.
  apply (page_build_replaces_blueprint ascii_lower Posix PageSamples.disk
           Samples.chat_endpoint Samples.svc_present PageSamples.script_file
           PageSamples.building PageSamples.busy).
  - reflexivity.
  - repeat constructor; discriminate.
  - settled.
Defined.

Lemma page_blueprint_changes_only_on_build_deploying :
  held_blueprint
    (session (fst (run ascii_lower Posix PageSamples.disk
                       Samples.chat_endpoint Samples.svc_present
                       PageSamples.script_file PageSamples.deploying
                       PageSamples.busy)))
  = held_blueprint (session PageSamples.busy).
Proof.
  apply (page_blueprint_changes_only_on_build ascii_lower Posix
           PageSamples.disk Samples.chat_endpoint Samples.svc_present
           PageSamples.script_file PageSamples.deploying PageSamples.busy).
  - reflexivity.
  - repeat constructor; discriminate.
Defined.

Lemma page_publishes_nothing_unless_fresh :
  github (fst (run ascii_lower Posix PageSamples.disk
                   Samples.chat_endpoint Samples.svc_present
                   PageSamples.script_file PageSamples.deploying fresh))
  = github fresh.
Proof.
  apply (page_publishes_nothing_unless ascii_lower Posix PageSamples.disk
           Samples.chat_endpoint Samples.svc_present PageSamples.script_file
           PageSamples.deploying fresh).
  - constructor.
  - right. right. right. split; reflexivity.
Defined.

Lemma page_deploy_publishes_held_blueprint_busy :
  let published :=
    Github.deploy_to_github ascii_lower Samples.svc_present
      (github_token PageSamples.deploying) (repo_name PageSamples.deploying)
      Samples.small_blueprint
      (lit "Automated admin_tools blueprint update")
      (branch PageSamples.deploying) (github PageSamples.busy) in
  let r := run ascii_lower Posix PageSamples.disk Samples.chat_endpoint
               Samples.svc_present PageSamples.script_file
               PageSamples.deploying PageSamples.busy in
  snd r = inr tt
  /\ github (fst r) = fst published
  /\ In (match snd published with
         | inr _ => Success (lit "Deployed blueprint to GitHub successfully")
         | inl e => ExceptionBox (Raised e)
         end)
        (screen (fst r)).
Proof.
  apply (page_deploy_publishes_held_blueprint ascii_lower Posix
           PageSamples.disk Samples.chat_endpoint Samples.svc_present
           PageSamples.script_file PageSamples.deploying PageSamples.busy
           Samples.small_blueprint).
  - reflexivity.
  - discriminate.
  - discriminate.
  - repeat constructor; discriminate.
  - settled.
  - reflexivity.
Defined.

Lemma page_download_offers_published_text_busy :
  let r := run ascii_lower Posix PageSamples.disk Samples.chat_endpoint
               Samples.svc_present PageSamples.script_file
               PageSamples.downloading PageSamples.busy in
  snd r = inr tt
  /\ In (DownloadButton (lit "Download JSON")
                        (Json.dumps Samples.small_blueprint)
                        (lit "admin_tools_blueprint.json")
                        (lit "application/json"))
        (screen (fst r))
  /\ Json.loads (Json.dumps Samples.small_blueprint)
     = Some (Json.of_blueprint Samples.small_blueprint).
Proof.
  apply (page_download_offers_published_text ascii_lower Posix
           PageSamples.disk Samples.chat_endpoint Samples.svc_present
           PageSamples.script_file PageSamples.downloading PageSamples.busy
           Samples.small_blueprint).
  - reflexivity.
  - split.
    + repeat constructor; discriminate.
    + repeat constructor; simpl; intuition discriminate.
  - settled.
  - reflexivity.
Defined.

Lemma page_build_without_folder_elsewhere :
  let r := run ascii_lower Posix
               (Samples.mount Samples.root_dir Samples.scenario_tree)
               Samples.chat_endpoint Samples.svc_present
               PageSamples.script_file PageSamples.building
               PageSamples.busy in
  build_blueprint_from_folder ascii_lower Posix
    (Samples.mount Samples.root_dir Samples.scenario_tree)
    (joinpath (parent PageSamples.script_file) (lit "admin_tools")) = inr []
  /\ snd r = inr tt
  /\ ss_blueprint (session (fst r)) = Some (Some [])
  /\ In (Warning
           (lit "No files found under admin_tools/. The blueprint will be empty"))
        (screen (fst r))
  /\ In (Success (lit "Blueprint built with 0 file(s)")) (screen (fst r)).
Proof.
  apply (page_build_without_folder ascii_lower Posix
           (Samples.mount Samples.root_dir Samples.scenario_tree)
           Samples.chat_endpoint Samples.svc_present PageSamples.script_file
           PageSamples.building PageSamples.busy).
  - reflexivity.
  - reflexivity.
  - repeat constructor; discriminate.
  - split.
    + repeat (apply Forall_cons; [reflexivity|]); apply Forall_nil.
    + intros Hs. discriminate Hs.
  - intros Hd. discriminate Hd.
Defined.

Lemma page_idle_run_changes_nothing_busy :
  let r := run ascii_lower Posix PageSamples.disk Samples.chat_endpoint
               Samples.svc_present PageSamples.script_file
               PageSamples.downloading PageSamples.busy in
  session (fst r)
  = mkSession (Some (history_of (session PageSamples.busy)))
              (Some (held_blueprint (session PageSamples.busy)))
  /\ openai (fst r) = openai PageSamples.busy
  /\ github (fst r) = github PageSamples.busy
  /\ snd r = inr tt.
Proof.
  destruct (page_idle_run_changes_nothing ascii_lower Posix PageSamples.disk
              Samples.chat_endpoint Samples.svc_present
              PageSamples.script_file PageSamples.downloading
              PageSamples.busy eq_refl eq_refl eq_refl eq_refl)
    as (Hs & Ho & Hg & Hret).
  split; [exact Hs|]. split; [exact Ho|]. split; [exact Hg|].
  apply Hret.
  - repeat (apply Forall_cons; [reflexivity|]); apply Forall_nil.
  - intros _ bp Hbp. vm_compute in Hbp. injection Hbp as <-. reflexivity.
Defined.

Lemma page_build_failure_ends_run_closed :
  let r := run ascii_lower Posix PageSamples.closed_disk
               Samples.chat_endpoint Samples.svc_present
               PageSamples.script_file PageSamples.building
               PageSamples.busy in
  snd r = inl (Raised Samples.permission_denied)
  /\ held_blueprint (session (fst r))
     = held_blueprint (session PageSamples.busy)
  /\ github (fst r) = github PageSamples.busy
  /\ exists above,
       screen (fst r)
       = above ++ [Header (lit "Deployment");
                   Button (lit "Build JSON blueprint from admin_tools/")].
Proof.
  apply (page_build_failure_ends_run ascii_lower Posix
           PageSamples.closed_disk Samples.chat_endpoint Samples.svc_present
           PageSamples.script_file PageSamples.building PageSamples.busy
           Samples.permission_denied).
  - reflexivity.
  - repeat constructor; discriminate.
  - split.
    + repeat (apply Forall_cons; [reflexivity|]); apply Forall_nil.
    + intros Hs. discriminate Hs.
  - reflexivity.
Defined.

Lemma page_transcript_stops_at_unencodable_garbled :
  let r := run ascii_lower Posix PageSamples.disk Samples.chat_endpoint
               Samples.svc_present PageSamples.script_file
               PageSamples.clearing PageSamples.garbled in
  snd r = inl (Raised unicode_encode_error)
  /\ screen (fst r)
     = page_top
         ++ Header (lit "Chat")
         :: map transcript_line [chat_entry (lit "user") (lit "hello")]
  /\ session (fst r)
     = mkSession (Some (history_of (session PageSamples.garbled)))
                 (Some (held_blueprint (session PageSamples.garbled)))
  /\ openai (fst r) = openai PageSamples.garbled
  /\ github (fst r) = github PageSamples.garbled.
Proof.
  apply (page_transcript_stops_at_unencodable ascii_lower Posix
           PageSamples.disk Samples.chat_endpoint Samples.svc_present
           PageSamples.script_file PageSamples.clearing PageSamples.garbled
           [chat_entry (lit "user") (lit "hello")]
           (chat_entry (lit "assistant") [55357%N])
           [chat_entry (lit "user") (lit "pardon?")]).
  - reflexivity.
  - repeat (apply Forall_cons; [reflexivity|]); apply Forall_nil.
  - reflexivity.
Defined.

Lemma page_download_stops_at_unencodable_odd :
  let r := run ascii_lower Posix PageSamples.disk Samples.chat_endpoint
               Samples.svc_present PageSamples.script_file
               PageSamples.downloading PageSamples.odd in
  snd r = inl (Raised unicode_encode_error)
  /\ held_blueprint (session (fst r)) = Some PageSamples.odd_blueprint
  /\ exists above,
       screen (fst r) = above ++ [Button (lit "Download blueprint")].
Proof.
  apply (page_download_stops_at_unencodable ascii_lower Posix
           PageSamples.disk Samples.chat_endpoint Samples.svc_present
           PageSamples.script_file PageSamples.downloading PageSamples.odd
           PageSamples.odd_blueprint).
  - reflexivity.
  - reflexivity.
  - reflexivity.
  - reflexivity.
  - apply Forall_nil.
  - reflexivity.
  - vm_compute. reflexivity.
Defined.

End PageRunsExamples.

(* ------------------------------------------------------------------ *)
(** ** The folder the page builds from *)

Section PageFolder.
Import App.
Variable lower : str -> str.
Variable fl : flavour.

(** X22: the page builds from the folder [admin_tools] beside the
    script, so for a well-formed tree there every key of the blueprint
    starts with [admin_tools/], on either flavour of path. *)
Theorem page_blueprint_keys_under_admin_tools :
  forall (fs : filesystem) (script_file : Path) (es : list (str * node))
         (bp : blueprint) (k text : str),
    fs (admin_folder script_file) = Some (Dir es) ->
    well_formed lower fl (Dir es) = true ->
    build_blueprint_from_folder lower fl fs (admin_folder script_file)
    = inr bp ->
    In (k, text) bp ->
    startswith k (lit "admin_tools/") = true.
Proof.
  intros fs script_file es bp k text Hfs Hwf Hrun Hin.
  destruct (build_entry_origin lower fl fs _ bp k text Hrun Hin)
    as (items & p & n & Hrg & Hp & _ & _ & ->).
  destruct (rglob_found fs _ items Hrg) as [->|(es' & Hfs' & Hincl)];
    [destruct Hp|].
  rewrite Hfs in Hfs'. injection Hfs' as <-.
  destruct (descendants_rel _ es (p, n) (Hincl _ Hp))
    as (rel & Hrel & Hunder).
  cbn [fst snd] in Hrel, Hunder. subst p.
  rewrite (key_of_valid fl _ rel (below_nonempty _ _ _ Hrel)
             (below_valid lower fl _ Hwf _ _ Hrel)).
  unfold admin_folder, name. cbv zeta. cbn [parts joinpath].
  destruct (parts (parent script_file) ++ [lit "admin_tools"])
    as [|x l] eqn:E.
  - symmetry in E. apply app_cons_not_nil in E. contradiction.
  - rewrite <- E, last_last.
    apply startswith_spec. exists (join [slash] rel).
    destruct fl; reflexivity.
Qed.
End PageFolder.

Section PageFolderExamples.
Import App.

Lemma page_blueprint_keys_under_admin_tools_scenario :
  startswith (lit "admin_tools/a.txt") (lit "admin_tools/") = true.
Proof.
  apply (page_blueprint_keys_under_admin_tools ascii_lower Posix
           PageSamples.disk PageSamples.script_file Samples.scenario_entries
           [(lit "admin_tools/a.txt", lit "hi")]
           (lit "admin_tools/a.txt") (lit "hi")).
  - reflexivity.
  - reflexivity.
  - vm_compute. reflexivity.
  - left. reflexivity.
Defined.
End PageFolderExamples.
